(** * cropharvest/engineer.py: the feature-engineering pipeline

    A shallow embedding of [src/cropharvest/engineer.py]: the band catalog,
    the band transforms ([calculate_ndvi], [remove_bands], [fillna]), the
    online normalizer ([update_normalizing_values],
    [calculate_normalizing_dict], [adjust_normalizing_dict]), coordinate
    snapping ([find_nearest]), test-label construction
    ([process_test_file]) and the orchestrator ([create_pickled_dataset]);
    and, after these, the reading of file names ([process_filename]), the
    regrouping of a raster by time step ([load_tif]), the arrays of a test
    instance (the rest of [process_test_file]) and the loop of
    [pickle_test_instances].

    The Python code is written against numpy's float64.  The embedding is
    written once, over a class [Scalar] of the numeric operations the source
    uses, and read at two carriers:
    - [float], Rocq's primitive binary64 numbers, where NaN, the infinities
      and division by zero behave as they do in numpy, and on which the code
      runs by [vm_compute];
    - [R], the real numbers, for the statements that are about exact
      arithmetic (the algebra of the normalizer).  *)

From stdpp Require Import gmap strings list pretty.
From Stdlib Require Import Ascii ZArith Reals Lra Lia Floats Permutation.

Open Scope Z_scope.
Open Scope string_scope.
Open Scope list_scope.

(** ** Exceptions and optional results *)

(** The exceptions the modelled code can raise. *)
Inductive exn : Set :=
| ValueError
| AssertionError
| IndexError
| ZeroDivisionError.

(** A computation either returns or raises. *)
Inductive result (A : Type) : Type :=
| Ok (a : A)
| Raise (e : exn).
Arguments Ok {A} a.
Arguments Raise {A} e.

Definition bind {A B : Type} (m : result A) (k : A -> result B) : result B :=
  match m with
  | Ok a => k a
  | Raise e => Raise e
  end.

Notation "x <~ m ;; k" := (bind m (fun x => k))
  (at level 100, m at next level, right associativity, only parsing).

(** [assert c] raises [AssertionError] when [c] is false. *)
Definition py_assert (c : bool) : result unit :=
  if c then Ok tt else Raise AssertionError.

(** ** The numeric carrier *)

(** The operations of numpy's float64 that the source uses. *)
Class Scalar (F : Type) : Type := {
  s_zero : F;
  s_add : F -> F -> F;
  s_sub : F -> F -> F;
  s_mul : F -> F -> F;
  s_div : F -> F -> F;
  s_sqrt : F -> F;
  s_abs : F -> F;
  (** conversion of a Python int *)
  s_of_int : Z -> F;
  s_eqb : F -> F -> bool;
  s_ltb : F -> F -> bool;
  s_leb : F -> F -> bool;
  s_isnan : F -> bool;
  s_isposinf : F -> bool;
  s_isneginf : F -> bool;
  (** [np.finfo(float64).max], what [nan_to_num] puts for an infinity *)
  s_finfo_max : F
}.

(** What the statements below use of the order and of zero; it holds of
    binary64 and of the reals alike. *)
Class ScalarLaws (F : Type) `{Scalar F} : Prop := {
  nonpos_not_pos : forall x : F, s_leb x s_zero = true -> s_ltb s_zero x = false;
  eqzero_not_pos : forall x : F, s_eqb x s_zero = true -> s_ltb s_zero x = false;
  zero_not_nan : s_isnan (s_zero : F) = false;
  zero_not_posinf : s_isposinf (s_zero : F) = false;
  zero_not_neginf : s_isneginf (s_zero : F) = false;
  finfo_max_not_nan : s_isnan (s_finfo_max : F) = false;
  finfo_max_not_posinf : s_isposinf (s_finfo_max : F) = false;
  finfo_max_not_neginf : s_isneginf (s_finfo_max : F) = false;
  finfo_min_not_nan : s_isnan (s_sub s_zero s_finfo_max : F) = false;
  finfo_min_not_posinf : s_isposinf (s_sub s_zero s_finfo_max : F) = false;
  finfo_min_not_neginf : s_isneginf (s_sub s_zero s_finfo_max : F) = false
}.

(** The order on the numbers that are not NaN is total and transitive. *)
Class OrderLaws (F : Type) `{Scalar F} : Prop := {
  leb_refl : forall x : F, s_isnan x = false -> s_leb x x = true;
  leb_total : forall x y : F, s_isnan x = false -> s_isnan y = false ->
              s_leb x y = false -> s_leb y x = true;
  leb_trans : forall x y z : F, s_leb x y = true -> s_leb y z = true ->
              s_leb x z = true;
  leb_not_nan : forall x y : F, s_leb x y = true -> s_isnan y = false;
  ltb_nan : forall x y : F, s_isnan y = true -> s_ltb x y = false;
  leb_not_gt : forall x y : F, s_leb x y = true -> s_ltb y x = false
}.

(** binary64 *)
Definition float_of_Z (z : Z) : float :=
  SF2Prim (binary_normalize prec emax z 0 false).

Definition float_isposinf (x : float) : bool :=
  (PrimFloat.is_infinity x && PrimFloat.ltb 0%float x)%bool.

Definition float_isneginf (x : float) : bool :=
  (PrimFloat.is_infinity x && PrimFloat.ltb x 0%float)%bool.

#[export] Instance float_scalar : Scalar float := {|
  s_zero := 0%float;
  s_add := PrimFloat.add;
  s_sub := PrimFloat.sub;
  s_mul := PrimFloat.mul;
  s_div := PrimFloat.div;
  s_sqrt := PrimFloat.sqrt;
  s_abs := PrimFloat.abs;
  s_of_int := float_of_Z;
  s_eqb := PrimFloat.eqb;
  s_ltb := PrimFloat.ltb;
  s_leb := PrimFloat.leb;
  s_isnan := PrimFloat.is_nan;
  s_isposinf := float_isposinf;
  s_isneginf := float_isneginf;
  s_finfo_max := 0x1.fffffffffffffp+1023%float
|}.

(** exact real arithmetic: no NaN, no infinity *)
Definition Reqb (x y : R) : bool := if Req_dec_T x y then true else false.
Definition Rltb (x y : R) : bool := if Rlt_dec x y then true else false.
Definition Rleb (x y : R) : bool := if Rle_dec x y then true else false.

#[export] Instance real_scalar : Scalar R := {|
  s_zero := 0%R;
  s_add := Rplus;
  s_sub := Rminus;
  s_mul := Rmult;
  s_div := Rdiv;
  s_sqrt := R_sqrt.sqrt;
  s_abs := Rabs;
  s_of_int := IZR;
  s_eqb := Reqb;
  s_ltb := Rltb;
  s_leb := Rleb;
  s_isnan := fun _ => false;
  s_isposinf := fun _ => false;
  s_isneginf := fun _ => false;
  s_finfo_max := 0%R
|}.

(** ** Lists as Python lists and numpy vectors *)

(** [x in l], on strings *)
Definition py_in (x : string) (l : list string) : bool :=
  existsb (String.eqb x) l.

(** [l.index(x)]: the first position of [x], [ValueError] when absent *)
Fixpoint index (x : string) (l : list string) : result nat :=
  match l with
  | [] => Raise ValueError
  | y :: r => if String.eqb x y then Ok 0%nat
              else i <~ index x r ;; Ok (S i)
  end.

(** [i in l], on ints *)
Definition nat_in (i : nat) (l : list nat) : bool := existsb (Nat.eqb i) l.

(** running every [f x] in order, stopping at the first exception *)
Fixpoint mapM {A B : Type} (f : A -> result B) (l : list A) : result (list B) :=
  match l with
  | [] => Ok []
  | x :: r => y <~ f x ;; ys <~ mapM f r ;; Ok (y :: ys)
  end.

(** ** The band catalog (lines 27-29)

    [DYNAMIC_BANDS] and [STATIC_BANDS] are imported from [cropharvest.eo],
    which is not part of the sources at hand: the two lists are parameters
    of everything below. *)

Definition REMOVED_BANDS : list string := ["B1"; "B10"].

Definition RAW_BANDS (DYNAMIC_BANDS STATIC_BANDS : list string) : list string :=
  DYNAMIC_BANDS ++ STATIC_BANDS.

Definition BANDS (DYNAMIC_BANDS STATIC_BANDS : list string) : list string :=
  List.filter (fun x => negb (py_in x REMOVED_BANDS)) DYNAMIC_BANDS
    ++ STATIC_BANDS ++ ["NDVI"].

Definition MISSING_DATA : Z := -1.

(** ** Arrays

    A numpy array of rank 2 or 3 is its shape and its nested rows; of any
    other rank only the shape is kept, the code raises on those. *)
Inductive ndarray (F : Type) : Type :=
| Arr2 (T B : nat) (d : list (list F))
| Arr3 (N T B : nat) (d : list (list (list F)))
| ArrN (shape : list nat).
Arguments Arr2 {F} T B d.
Arguments Arr3 {F} N T B d.
Arguments ArrN {F} shape.

(** the rows of a [[T, B]] array: [T] rows of [B] entries *)
Definition wf2 {F : Type} (T B : nat) (d : list (list F)) : Prop :=
  length d = T /\ Forall (fun r => length r = B) d.

(** the pixels of a [[N, T, B]] array *)
Definition wf3 {F : Type} (N T B : nat) (d : list (list (list F))) : Prop :=
  length d = N /\ Forall (wf2 T B) d.

Definition wf_array {F : Type} (a : ndarray F) : Prop :=
  match a with
  | Arr2 T B d => wf2 T B d
  | Arr3 N T B d => wf3 N T B d
  | ArrN _ => True
  end.

(** [a.shape[-1]] *)
Definition last_axis {F : Type} (a : ndarray F) : option nat :=
  match a with
  | Arr2 _ B _ => Some B
  | Arr3 _ _ B _ => Some B
  | ArrN shape => last shape
  end.

(** [len(a.shape)] is 2 or 3 *)
Definition rank_2_or_3 {F : Type} (a : ndarray F) : Prop :=
  match a with
  | ArrN _ => False
  | _ => True
  end.

Section Transforms.
Context {F : Type} `{Scalar F}.
Variables DYNAMIC_BANDS STATIC_BANDS : list string.

Local Abbreviation BANDS := (BANDS DYNAMIC_BANDS STATIC_BANDS).
Local Abbreviation RAW_BANDS := (RAW_BANDS DYNAMIC_BANDS STATIC_BANDS).

(** *** [calculate_ndvi] (lines 185-214) *)

(** [a[:, i]] on the rows of a [[T, B]] array *)
Definition take_band2 (B i : nat) (d : list (list F)) : result (list F) :=
  if (i <? B)%nat then Ok (List.map (fun r => nth i r s_zero) d)
  else Raise IndexError.

(** [a[:, :, i]] on the pixels of a [[N, T, B]] array *)
Definition take_band3 (B i : nat) (d : list (list (list F)))
  : result (list (list F)) :=
  if (i <? B)%nat
  then Ok (List.map (fun px => List.map (fun r => nth i r s_zero) px) d)
  else Raise IndexError.

(** one entry of
    [np.where((b1 + b2) > 0, (b1 - b2) / (b1 + b2), 0)] *)
Definition ndvi_value (band_1 band_2 : F) : F :=
  if s_ltb s_zero (s_add band_1 band_2)
  then s_div (s_sub band_1 band_2) (s_add band_1 band_2)
  else s_zero.

(** [np.append(rows, np.expand_dims(v, -1), axis=-1)] *)
Definition append_band (d : list (list F)) (v : list F) : list (list F) :=
  zip_with (fun r x => r ++ [x]) d v.

Definition calculate_ndvi (input_array : ndarray F) : result (ndarray F) :=
  match input_array with
  | Arr2 T B d =>
      i1 <~ index "B8" BANDS ;;
      band_1_np <~ take_band2 B i1 d ;;
      i2 <~ index "B4" BANDS ;;
      band_2_np <~ take_band2 B i2 d ;;
      let ndvi := zip_with ndvi_value band_1_np band_2_np in
      Ok (Arr2 T (S B) (append_band d ndvi))
  | Arr3 N T B d =>
      i1 <~ index "B8" BANDS ;;
      band_1_np <~ take_band3 B i1 d ;;
      i2 <~ index "B4" BANDS ;;
      band_2_np <~ take_band3 B i2 d ;;
      let ndvi := zip_with (zip_with ndvi_value) band_1_np band_2_np in
      Ok (Arr3 N T (S B) (zip_with append_band d ndvi))
  | ArrN _ => Raise ValueError
  end.

(** a row with its NDVI entry, from the entries at positions [i1], [i2] *)
Definition ndvi_row (i1 i2 : nat) (r : list F) : list F :=
  r ++ [ndvi_value (nth i1 r s_zero) (nth i2 r s_zero)].

(** what NDVI derivation does to one row [r], giving [r']: one entry more,
    the old entries as they were, and in the new last place the guarded
    quotient of the entries at positions [i1] (NIR) and [i2] (RED) *)
Definition ndvi_appended (i1 i2 : nat) (r r' : list F) : Prop :=
  let nir := nth i1 r s_zero in
  let red := nth i2 r s_zero in
  let v := nth (length r) r' s_zero in
  length r' = S (length r)
  /\ firstn (length r) r' = r
  /\ (s_ltb s_zero (s_add nir red) = true ->
      v = s_div (s_sub nir red) (s_add nir red))
  /\ (s_ltb s_zero (s_add nir red) = false -> v = s_zero)
  /\ (s_eqb (s_add nir red) s_zero = true ->
      v = s_zero /\ s_isnan v = false
      /\ s_isposinf v = false /\ s_isneginf v = false).

(** *** [remove_bands] (lines 249-272) *)

Definition indices_to_keep (B : nat) (indices_to_remove : list nat) : list nat :=
  List.filter (fun i => negb (nat_in i indices_to_remove)) (seq 0 B).

(** [row[keep]], the fancy index on the band axis *)
Definition pick (keep : list nat) (r : list F) : list F :=
  List.map (fun i => nth i r s_zero) keep.

Definition remove_bands (array : ndarray F) : result (ndarray F) :=
  match array with
  | Arr2 T B d =>
      indices_to_remove <~ mapM (fun band => index band RAW_BANDS) REMOVED_BANDS ;;
      let keep := indices_to_keep B indices_to_remove in
      Ok (Arr2 T (length keep) (List.map (pick keep) d))
  | Arr3 N T B d =>
      indices_to_remove <~ mapM (fun band => index band RAW_BANDS) REMOVED_BANDS ;;
      let keep := indices_to_keep B indices_to_remove in
      Ok (Arr3 N T (length keep) (List.map (List.map (pick keep)) d))
  | ArrN _ => Raise ValueError
  end.

(** *** [fillna] (lines 216-247) *)

(** [np.sum] of a vector, added left to right from its first entry (the
    order in which numpy groups the additions of a long reduction is not
    modelled). *)
Definition np_sum (l : list F) : F :=
  match l with
  | [] => s_zero
  | x :: r => fold_left s_add r x
  end.

(** [np.nanmean] of a vector: NaN entries count as 0 in the sum and are
    left out of the count; an empty or all-NaN vector gives [0 / 0]. *)
Definition nanmean (l : list F) : F :=
  let tot := np_sum (List.map (fun x => if s_isnan x then s_zero else x) l) in
  let cnt := length (List.filter (fun x => negb (s_isnan x)) l) in
  s_div tot (s_of_int (Z.of_nat cnt)).

(** [np.nanmean(a, axis=0)] of a [[T, B]] array *)
Definition nanmean_axis0 (B : nat) (d : list (list F)) : list F :=
  List.map (fun i => nanmean (List.map (fun r => nth i r s_zero) d)) (seq 0 B).

(** [np.nanmean(a, axis=0)] of a [[N, T, B]] array: a [[T, B]] array *)
Definition nanmean3_axis0 (T B : nat) (d : list (list (list F)))
  : list (list F) :=
  List.map (fun t =>
    List.map (fun i =>
      nanmean (List.map (fun px => nth i (nth t px []) s_zero) d)) (seq 0 B))
    (seq 0 T).

(** one entry of [np.nan_to_num(x, nan=fill)]: the infinities go to the
    largest and smallest finite numbers *)
Definition nan_to_num (fill x : F) : F :=
  if s_isnan x then fill
  else if s_isposinf x then s_finfo_max
  else if s_isneginf x then s_sub s_zero s_finfo_max
  else x.

(** the loop of lines 242-246 on one row *)
Definition fill_row (B : nat) (mean_per_band : list F) (r : list F) : list F :=
  List.map (fun i => nan_to_num (nth i mean_per_band s_zero) (nth i r s_zero))
    (seq 0 B).

(** lines 232-241, shared by the two ranks: the per-band fill values, or
    [None] when imputation is impossible *)
Definition fill_values (bands_index B : nat) (mean_per_band : list F)
    (average_slope : F) : result (option (list F)) :=
  _ <~ py_assert (B =? length BANDS)%nat ;;
  if existsb s_isnan mean_per_band then
    let num_nan := length (List.filter s_isnan mean_per_band) in
    slope <~ index "slope" BANDS ;;
    if ((num_nan =? bands_index)%nat
        && s_isnan (nth slope mean_per_band s_zero))%bool
    then
      let mean_per_band := <[slope := average_slope]> mean_per_band in
      _ <~ py_assert (negb (existsb s_isnan mean_per_band)) ;;
      Ok (Some mean_per_band)
    else Ok None
  else Ok (Some mean_per_band).

Definition fillna (array : ndarray F) (average_slope : F)
  : result (option (ndarray F)) :=
  match array with
  | Arr2 T B d =>
      let bands_index := 1%nat in
      let mean_per_band := nanmean_axis0 B d in
      fv <~ fill_values bands_index B mean_per_band average_slope ;;
      match fv with
      | None => Ok None
      | Some mean_per_band =>
          Ok (Some (Arr2 T B (List.map (fill_row B mean_per_band) d)))
      end
  | Arr3 N T B d =>
      let bands_index := 2%nat in
      let mean_per_band := nanmean_axis0 B (nanmean3_axis0 T B d) in
      fv <~ fill_values bands_index B mean_per_band average_slope ;;
      match fv with
      | None => Ok None
      | Some mean_per_band =>
          Ok (Some (Arr3 N T B
                      (List.map (List.map (fill_row B mean_per_band)) d)))
      end
  | ArrN _ => Raise ValueError
  end.

(** neither NaN nor an infinity *)
Definition is_finite (x : F) : bool :=
  negb (s_isnan x || s_isposinf x || s_isneginf x).

(** what imputation with the fill values [fills] does to one row [r],
    giving [r']: a NaN entry becomes its band's fill value, a finite entry
    stays, an infinity becomes the largest or smallest finite number *)
Definition imputed (B : nat) (fills r r' : list F) : Prop :=
  length r' = B
  /\ forall i, (i < B)%nat ->
       let x := nth i r s_zero in
       let y := nth i r' s_zero in
       (s_isnan x = true -> y = nth i fills s_zero)
       /\ (is_finite x = true -> y = x)
       /\ (s_isnan x = false -> s_isposinf x = true -> y = s_finfo_max)
       /\ (s_isnan x = false -> s_isposinf x = false ->
           s_isneginf x = true -> y = s_sub s_zero s_finfo_max).

(** [a[:, i]] of a [[T, B]] array, as a list *)
Definition column (i : nat) (d : list (list F)) : list F :=
  List.map (fun r => nth i r s_zero) d.

(** *** [find_nearest] (lines 72-76) *)

(** the scan of numpy's [argmin] on floats: the first smallest entry, or
    the first NaN when there is one *)
Fixpoint argmin_loop (mp : F) (min_ind i : nat) (l : list F) : nat :=
  match l with
  | [] => min_ind
  | x :: r =>
      if s_leb mp x then argmin_loop mp min_ind (S i) r
      else if s_isnan x then i
      else argmin_loop x i (S i) r
  end.

Definition argmin (l : list F) : result nat :=
  match l with
  | [] => Raise ValueError
  | x :: r => Ok (if s_isnan x then 0%nat else argmin_loop x 0%nat 1%nat r)
  end.

Definition find_nearest (array : list F) (value : F) : result F :=
  idx <~ argmin (List.map (fun a => s_abs (s_sub a value)) array) ;;
  Ok (nth idx array s_zero).

End Transforms.

(** ** Vectors with numpy's broadcasting *)

(** [a op b] on two vectors: entry by entry when the lengths agree, a
    vector of length one is stretched, anything else is a [ValueError]. *)
Definition broadcast2 {A : Type} (op : A -> A -> A) (a b : list A)
  : result (list A) :=
  if (length a =? length b)%nat then Ok (zip_with op a b)
  else match a, b with
       | [x], _ => Ok (List.map (op x) b)
       | _, [y] => Ok (List.map (fun x => op x y) a)
       | _, _ => Raise ValueError
       end.

(** [a op= b]: the result has to fit the shape of [a] *)
Definition inplace {A : Type} (op : A -> A -> A) (a b : list A)
  : result (list A) :=
  r <~ broadcast2 op a b ;;
  if (length r =? length a)%nat then Ok r else Raise ValueError.

(** ** The online normalizer (lines 127-183) *)

(** [self.norm_interim]: the key "n", and the keys "mean" and "M2", which
    are absent until the first update. *)
Record norm_interim (F : Type) : Type := {
  ni_n : Z;
  ni_stats : option (list F * list F)
}.
Arguments ni_n {F} _.
Arguments ni_stats {F} _.

(** a normalizing dict: the keys "mean" and "std" *)
Record ndict (F : Type) : Type := {
  nd_mean : list F;
  nd_std : list F
}.
Arguments nd_mean {F} _.
Arguments nd_std {F} _.

(** [{"n": 0}], the state [__init__] sets up (line 70) *)
Definition norm_init {F : Type} : norm_interim F :=
  {| ni_n := 0; ni_stats := None |}.

Section Normalizer.
Context {F : Type} `{Scalar F}.

(** the body of the loop of lines 139-146, on the row [x] *)
Definition welford_step (st : Z * list F * list F) (x : list F)
  : result (Z * list F * list F) :=
  let '(n, mean, M2) := st in
  let n := n + 1 in
  delta <~ broadcast2 s_sub x mean ;;
  mean <~ inplace s_add mean (List.map (fun v => s_div v (s_of_int n)) delta) ;;
  t <~ broadcast2 s_sub x mean ;;
  u <~ broadcast2 s_mul delta t ;;
  M2 <~ inplace s_add M2 u ;;
  Ok (n, mean, M2).

Fixpoint welford_rows (st : Z * list F * list F) (rows : list (list F))
  : result (Z * list F * list F) :=
  match rows with
  | [] => Ok st
  | x :: r => st' <~ welford_step st x ;; welford_rows st' r
  end.

(** [update_normalizing_values], on the rows [d] of a [[T, B]] array.  An
    exception leaves no state behind here; in Python the fields updated
    before it stay updated. *)
Definition update_normalizing_values (st : norm_interim F) (B : nat)
    (d : list (list F)) : result (norm_interim F) :=
  let num_bands := B in
  let '(mean, M2) :=
    match ni_stats st with
    | None => (repeat s_zero num_bands, repeat s_zero num_bands)
    | Some stats => stats
    end in
  st' <~ welford_rows (ni_n st, mean, M2) d ;;
  let '(n, mean, M2) := st' in
  Ok {| ni_n := n; ni_stats := Some (mean, M2) |}.

Definition calculate_normalizing_dict (st : norm_interim F) : option (ndict F) :=
  match ni_stats st with
  | None => None
  | Some (mean, M2) =>
      let variance := List.map (fun v => s_div v (s_of_int (ni_n st - 1))) M2 in
      Some {| nd_mean := mean; nd_std := List.map s_sqrt variance |}
  end.

(** Python's [sum] of the vectors [v], [r]...: (0 + v) + ... *)
Definition py_sum (v : list F) (r : list (list F)) : result (list F) :=
  fold_left (fun acc w => a <~ acc ;; broadcast2 s_add a w) r
    (Ok (List.map (s_add (s_of_int 0)) v)).

(** one term of the sum of line 171 *)
Definition mean_term (p : Z * ndict F) : list F :=
  let '(length, single_dict) := p in
  List.map (fun v => s_mul v (s_of_int length)) (nd_mean single_dict).

(** one term of the sum of lines 174-179 *)
Definition variance_term (new_mean : list F) (p : Z * ndict F)
  : result (list F) :=
  let '(length, single_dict) := p in
  dev <~ broadcast2 s_sub (nd_mean single_dict) new_mean ;;
  a <~ broadcast2 s_add
         (List.map (fun v => s_mul v v) (nd_std single_dict))
         (List.map (fun v => s_mul v v) dev) ;;
  Ok (List.map (fun v => s_mul v (s_of_int length)) a).

(** the dicts of lines 163-167, when none of them is [None] *)
Fixpoint all_present (dicts : list (Z * option (ndict F)))
  : option (list (Z * ndict F)) :=
  match dicts with
  | [] => Some []
  | (length, Some single_dict) :: r =>
      match all_present r with
      | Some r => Some ((length, single_dict) :: r)
      | None => None
      end
  | (_, None) :: _ => None
  end.

Definition adjust_normalizing_dict (dicts : list (Z * option (ndict F)))
  : result (option (ndict F)) :=
  match all_present dicts with
  | None => Ok None
  | Some [] =>
      (* sum([]) / sum([]), the int 0 by the int 0 *)
      Raise ZeroDivisionError
  | Some (p :: ps) =>
      let new_total := fold_left Z.add (List.map fst (p :: ps)) 0 in
      tot <~ py_sum (mean_term p) (List.map mean_term ps) ;;
      let new_mean := List.map (fun x => s_div x (s_of_int new_total)) tot in
      t <~ variance_term new_mean p ;;
      ts <~ mapM (variance_term new_mean) ps ;;
      vtot <~ py_sum t ts ;;
      let new_variance := List.map (fun x => s_div x (s_of_int new_total)) vtot in
      Ok (Some {| nd_mean := new_mean; nd_std := List.map s_sqrt new_variance |})
  end.

End Normalizer.

(** ** The normalizer, one band at a time *)

(** the vector with entries f 0, ..., f (B - 1) *)
Definition tab {A : Type} (B : nat) (f : nat -> A) : list A :=
  List.map f (seq 0 B).

Section Scalarwise.
Context {F : Type} `{Scalar F}.

(** the update of lines 140-146 on one band: the count, the mean and the M2
    of that band, and the band's entry [x] of the row *)
Definition welford1 (st : Z * F * F) (x : F) : Z * F * F :=
  let '(n, mean, M2) := st in
  let n := n + 1 in
  let delta := s_sub x mean in
  let mean := s_add mean (s_div delta (s_of_int n)) in
  (n, mean, s_add M2 (s_mul delta (s_sub x mean))).

Definition w_n (st : Z * F * F) : Z := fst (fst st).
Definition w_mean (st : Z * F * F) : F := snd (fst st).
Definition w_M2 (st : Z * F * F) : F := snd st.

(** band [j] of a (count, dict) pair: the count, the mean and the std *)
Definition band_stat (j : nat) (p : Z * ndict F) : Z * (F * F) :=
  (fst p, (nth j (nd_mean (snd p)) s_zero, nth j (nd_std (snd p)) s_zero)).

Definition band_stats (j : nat) (ds : list (Z * ndict F)) : list (Z * (F * F)) :=
  List.map (band_stat j) ds.

(** Python's [sum] on one band *)
Definition py_sum1 (x : F) (r : list F) : F :=
  fold_left s_add r (s_add (s_of_int 0) x).

(** [new_total] of line 169 *)
Definition total_count {A : Type} (cs : list (Z * A)) : Z :=
  fold_left Z.add (List.map fst cs) 0.

(** line 171 on one band *)
Definition merged_mean1 (p : Z * (F * F)) (ps : list (Z * (F * F))) : F :=
  let term := fun q : Z * (F * F) => s_mul (fst (snd q)) (s_of_int (fst q)) in
  s_div (py_sum1 (term p) (List.map term ps)) (s_of_int (total_count (p :: ps))).

(** lines 173-181 on one band *)
Definition merged_variance1 (new_mean : F) (p : Z * (F * F))
    (ps : list (Z * (F * F))) : F :=
  let term := fun q : Z * (F * F) =>
    let dev := s_sub (fst (snd q)) new_mean in
    s_mul (s_add (s_mul (snd (snd q)) (snd (snd q))) (s_mul dev dev))
          (s_of_int (fst q)) in
  s_div (py_sum1 (term p) (List.map term ps)) (s_of_int (total_count (p :: ps))).

(** a list of (count, dict) pairs whose vectors all have [B] entries *)
Definition wf_dicts (B : nat) (ds : list (Z * ndict F)) : Prop :=
  Forall (fun p => length (nd_mean (snd p)) = B
                   /\ length (nd_std (snd p)) = B) ds.

(** the pairs as [adjust_normalizing_dict] takes them, none of them None *)
Definition present (ds : list (Z * ndict F)) : list (Z * option (ndict F)) :=
  List.map (fun p => (fst p, Some (snd p))) ds.

End Scalarwise.

(** *** In the words of the specification, over the reals *)

(** the sum of a list of reals *)
Definition Rsum (l : list R) : R := fold_right Rplus 0%R l.

(** the count-weighted average of the values [x_i] with counts [c_i] *)
Definition weighted_average (cx : list (Z * R)) : R :=
  (Rsum (List.map (fun p => IZR (fst p) * snd p) cx)
   / IZR (fold_right Z.add 0%Z (List.map fst cx)))%R.

(** the count-weighted average of std_i^2 + (mean_i - m)^2 *)
Definition weighted_variance (m : R) (cms : list (Z * (R * R))) : R :=
  weighted_average
    (List.map (fun p => (fst p,
                         (snd (snd p) * snd (snd p)
                          + (fst (snd p) - m) * (fst (snd p) - m))%R)) cms).

(** the mean of a sample, and its variance with divisor n - 1 *)
Definition sample_mean (xs : list R) : R :=
  (Rsum xs / INR (length xs))%R.

Definition sample_variance (xs : list R) : R :=
  (Rsum (List.map (fun x => (x - sample_mean xs) * (x - sample_mean xs)) xs)
   / (INR (length xs) - 1))%R.

(** what the fold of one band keeps, over the reals, after the entries
    [xs]: their number, their mean (as n * mean = sum, and 0 before any
    entry) and the sum of squares less n * mean^2 *)
Definition welford_inv (st : Z * R * R) (xs : list R) : Prop :=
  w_n st = Z.of_nat (length xs)
  /\ (IZR (w_n st) * w_mean st = Rsum xs)%R
  /\ (w_M2 st
      = Rsum (List.map (fun x => x * x) xs)
        - IZR (w_n st) * w_mean st * w_mean st)%R
  /\ (xs = [] -> w_mean st = 0%R).

(** ** Test labels (lines 311-320) *)

(** [y[mask] = v] *)
Definition assign_where (mask : list bool) (v : Z) (y : list Z) : list Z :=
  zip_with (fun (m : bool) x => if m then v else x) mask y.

(** The labels of the pixels of a test raster, from the two masks that
    [rasterio.mask.raster_geometry_mask] returns for the positive and for
    the negative geometries: a mask is a grid of booleans, true outside the
    shapes and false inside (line 308). *)
Definition test_labels (positive negative : list (list bool)) : result (list Z) :=
  let positive := List.map (fun b : bool => if negb b then 1 else 0) (concat positive) in
  let negative :=
    List.map (fun b : bool => (if negb b then 1 else 0) * -1) (concat negative) in
  y <~ broadcast2 Z.add positive negative ;;
  let negative := List.map (fun v => (v =? -1)%Z) y in
  let missing := List.map (fun v => (v =? 0)%Z) y in
  let y := assign_where negative 0 y in
  let y := assign_where missing MISSING_DATA y in
  Ok y.

(** the label of a pixel, from whether it is inside a positive and inside a
    negative geometry *)
Definition label_of (in_positive in_negative : bool) : Z :=
  match in_positive, in_negative with
  | true, false => 1
  | false, true => 0
  | _, _ => MISSING_DATA
  end.

(** ** Training instances and the orchestrator (lines 325-416) *)

(** a row of the labels table *)
Record label_row (F : Type) : Type := {
  row_dataset : string;
  row_index : Z;
  row_lat : F;
  row_lon : F;
  row_export_end_date : Z;
  row_is_crop : Z;
  row_label : option string
}.
Arguments row_dataset {F} _.
Arguments row_index {F} _.
Arguments row_lat {F} _.
Arguments row_lon {F} _.
Arguments row_export_end_date {F} _.
Arguments row_is_crop {F} _.
Arguments row_label {F} _.

Record DataInstance (F : Type) : Type := {
  dataset : string;
  label_lat : F;
  label_lon : F;
  instance_lat : F;
  instance_lon : F;
  array : ndarray F;
  is_crop : Z;
  label : option string
}.
Arguments dataset {F} _.
Arguments label_lat {F} _.
Arguments label_lon {F} _.
Arguments instance_lat {F} _.
Arguments instance_lon {F} _.
Arguments array {F} _.
Arguments is_crop {F} _.
Arguments label {F} _.

(** What the code uses of the [xarray.DataArray] that [load_tif] returns:
    the coordinate axes, and the [[time, band]] values at one x and one y
    ([da.sel(x=...).sel(y=...).values]), as a shape and rows. *)
Record DataArray (F : Type) : Type := {
  da_x : list F;
  da_y : list F;
  da_sel : F -> F -> nat * nat * list (list F)
}.
Arguments da_x {F} _.
Arguments da_y {F} _.
Arguments da_sel {F} _ _ _.

(** The files the orchestrator reads and writes, and the normalizer state
    of the [Engineer]: [features/arrays/*.pkl] by file name,
    [features/normalizing_dict.pkl] when it exists, [self.norm_interim]. *)
Record world (F : Type) : Type := {
  arrays_dir : gmap string (DataInstance F);
  normalizing_dict_pkl : option (ndict F);
  engine : norm_interim F
}.
Arguments arrays_dir {F} _.
Arguments normalizing_dict_pkl {F} _.
Arguments engine {F} _.

Section Orchestrator.
Context {F : Type} `{Scalar F}.
Variables DYNAMIC_BANDS STATIC_BANDS : list string.

(** [NUM_TIMESTEPS] and [DAYS_PER_TIMESTEP] come from [config.py], which is
    not part of the sources at hand. *)
Variables NUM_TIMESTEPS DAYS_PER_TIMESTEP : Z.

(** [load_tif] decodes and regroups a raster with xarray; here it is the
    function from a path and a start date to what it returns. *)
Variable load_tif : string -> Z -> result (DataArray F * F).

(** [process_filename]: the index and the dataset in a file name. *)
Variable process_filename : string -> result (Z * string).

Definition process_single_file (st : norm_interim F) (path_to_file : string)
    (row : label_row F) : result (norm_interim F * option (DataInstance F)) :=
  let start_date := row_export_end_date row - NUM_TIMESTEPS * DAYS_PER_TIMESTEP in
  loaded <~ load_tif path_to_file start_date ;;
  let '(da, average_slope) := loaded in
  closest_lon <~ find_nearest (da_x da) (row_lon row) ;;
  closest_lat <~ find_nearest (da_y da) (row_lat row) ;;
  let '(T, B, d) := da_sel da closest_lon closest_lat in
  labelled_np <~ calculate_ndvi DYNAMIC_BANDS STATIC_BANDS (Arr2 T B d) ;;
  labelled_np <~ remove_bands DYNAMIC_BANDS STATIC_BANDS labelled_np ;;
  labelled_array <~ fillna DYNAMIC_BANDS STATIC_BANDS labelled_np average_slope ;;
  match labelled_array with
  | None => Ok (st, None)
  | Some (Arr2 T B d as labelled_array) =>
      st <~ update_normalizing_values st B d ;;
      Ok (st, Some {| dataset := row_dataset row;
                      label_lat := row_lat row;
                      label_lon := row_lon row;
                      instance_lat := closest_lat;
                      instance_lon := closest_lon;
                      array := labelled_array;
                      is_crop := row_is_crop row;
                      label := row_label row |})
  | Some _ =>
      (* not reached: the three transforms keep the rank of a rank-2 array *)
      Raise IndexError
  end.

(** [self.labels[(dataset == ...) & (index == ...)].iloc[0]] *)
Definition find_row (labels : list (label_row F)) (dataset : string)
    (file_index : Z) : result (label_row F) :=
  match List.filter (fun r => (String.eqb (row_dataset r) dataset
                               && (row_index r =? file_index)%Z)%bool) labels with
  | [] => Raise IndexError
  | r :: _ => Ok r
  end.

(** the running state of the loop of lines 382-402: the files, the
    normalizer, and the two counters *)
Record loop_state : Type := {
  ls_arrays : gmap string (DataInstance F);
  ls_engine : norm_interim F;
  num_new_files : Z;
  skipped_files : Z
}.

(** one turn of the loop, on the file [file_path] *)
Definition process_eo_file (checkpoint : bool) (labels : list (label_row F))
    (ls : loop_state) (file_path : string) : result loop_state :=
  parsed <~ process_filename file_path ;;
  let '(file_index, dataset) := parsed in
  let file_name := (pretty file_index ++ "_" ++ dataset ++ ".pkl")%string in
  if (checkpoint && bool_decide (is_Some (ls_arrays ls !! file_name)))%bool
  then Ok ls
  else
    file_row <~ find_row labels dataset file_index ;;
    processed <~ process_single_file (ls_engine ls) file_path file_row ;;
    let '(st, instance) := processed in
    match instance with
    | Some instance =>
        Ok {| ls_arrays := <[file_name := instance]> (ls_arrays ls);
              ls_engine := st;
              num_new_files := num_new_files ls + 1;
              skipped_files := skipped_files ls |}
    | None =>
        Ok {| ls_arrays := ls_arrays ls;
              ls_engine := st;
              num_new_files := num_new_files ls;
              skipped_files := skipped_files ls + 1 |}
    end.

Fixpoint process_eo_files (checkpoint : bool) (labels : list (label_row F))
    (ls : loop_state) (eo_files : list string) : result loop_state :=
  match eo_files with
  | [] => Ok ls
  | file_path :: rest =>
      ls <~ process_eo_file checkpoint labels ls file_path ;;
      process_eo_files checkpoint labels ls rest
  end.

(** [create_pickled_dataset], on the labels and on the listing of
    [eo_data/*.tif]; it returns the files and the normalizer it leaves, and
    the counts it prints. *)
Definition create_pickled_dataset (checkpoint : bool)
    (labels : list (label_row F)) (eo_files : list string) (w : world F)
  : result (world F * Z * Z) :=
  let old_normalizing_dict :=
    if checkpoint then
      match normalizing_dict_pkl w with
      | Some old_nd =>
          let num_existing_files := Z.of_nat (size (arrays_dir w)) in
          Some (num_existing_files, Some old_nd)
      | None => None
      end
    else None in
  ls <~ process_eo_files checkpoint labels
          {| ls_arrays := arrays_dir w; ls_engine := engine w;
             num_new_files := 0; skipped_files := 0 |} eo_files ;;
  let normalizing_dict := calculate_normalizing_dict (ls_engine ls) in
  normalizing_dict <~
    match (if checkpoint then old_normalizing_dict else None) with
    | Some old =>
        adjust_normalizing_dict [old; (num_new_files ls, normalizing_dict)]
    | None => Ok normalizing_dict
    end ;;
  let pkl :=
    match normalizing_dict with
    | Some nd => Some nd
    | None => normalizing_dict_pkl w
    end in
  Ok ({| arrays_dir := ls_arrays ls;
         normalizing_dict_pkl := pkl;
         engine := ls_engine ls |},
      num_new_files ls, skipped_files ls).

End Orchestrator.

(** folding a list of arrays, given as band count and rows, one call of
    [update_normalizing_values] each *)
Fixpoint update_all {F : Type} `{Scalar F} (st : norm_interim F)
    (arrays : list (nat * list (list F))) : result (norm_interim F) :=
  match arrays with
  | [] => Ok st
  | (B, d) :: rest =>
      st <~ update_normalizing_values st B d ;; update_all st rest
  end.

(** the output file of the raw file [file_path] is among [outputs] *)
Definition already_output {A : Type}
    (process_filename : string -> result (Z * string))
    (outputs : gmap string A) (file_path : string) : bool :=
  match process_filename file_path with
  | Ok (file_index, dataset) =>
      bool_decide
        (is_Some (outputs !! (pretty file_index ++ "_" ++ dataset ++ ".pkl")%string))
  | Raise _ => false
  end.

(** ** The order of binary64, through a key *)

(** a key of a number that is not NaN: its class by sign, then exponent and
    mantissa, negated for the negative numbers *)
Definition sf_key (x : spec_float) : Z * Z * Z :=
  match x with
  | S754_nan => (0, 0, 0)
  | S754_infinity true => (-2, 0, 0)
  | S754_infinity false => (2, 0, 0)
  | S754_zero _ => (0, 0, 0)
  | S754_finite false m e => (1, e, Zpos m)
  | S754_finite true m e => (-1, - e, Zneg m)
  end.

(** the lexicographic order on keys *)
Definition key_le (a b : Z * Z * Z) : Prop :=
  let '(a1, a2, a3) := a in
  let '(b1, b2, b3) := b in
  a1 < b1 \/ (a1 = b1 /\ (a2 < b2 \/ (a2 = b2 /\ a3 <= b3))).

(** ** A small catalog, for running the code *)

Definition demo_dynamic : list string := ["B1"; "B4"; "B8"; "B10"].
Definition demo_static : list string := ["slope"].

(** a two-pixel raster per file, two timesteps, five raw bands *)
Definition demo_load_tif (path : string) (start_date : Z)
  : result (DataArray float * float) :=
  Ok ({| da_x := [10; 20]%float;
         da_y := [50; 60]%float;
         da_sel := fun x y =>
           (2%nat, 5%nat, [[1; 3; 3; 4; y]; [6; 10; 8; 9; x]]%float) |},
      3%float).

(** two file names and what they stand for *)
Definition demo_process_filename (filename : string) : result (Z * string) :=
  if String.eqb filename "1-a_x.tif" then Ok (1, "a")
  else if String.eqb filename "2-a_y.tif" then Ok (2, "a")
  else Raise ValueError.

Definition demo_labels : list (label_row float) :=
  [ {| row_dataset := "a"; row_index := 1; row_lat := 52%float;
       row_lon := 11%float; row_export_end_date := 700; row_is_crop := 1;
       row_label := Some "maize" |};
    {| row_dataset := "a"; row_index := 2; row_lat := 58%float;
       row_lon := 19%float; row_export_end_date := 700; row_is_crop := 0;
       row_label := None |} ].

Definition demo_old : ndict float :=
  {| nd_mean := [1; 1; 1; 1]%float; nd_std := [0; 0; 0; 0]%float |}.

Definition demo_instance : DataInstance float :=
  {| dataset := "a"; label_lat := 52%float; label_lon := 11%float;
     instance_lat := 50%float; instance_lon := 10%float;
     array := Arr2 2 4 [[1; 1; 1; 1]; [1; 1; 1; 1]]%float;
     is_crop := 1; label := Some "maize" |}.

(** a finished earlier run: one output, and the dict computed from it *)
Definition demo_world : world float :=
  {| arrays_dir := {[ "1_a.pkl" := demo_instance ]};
     normalizing_dict_pkl := Some demo_old;
     engine := norm_init |}.

(** ** Shapes and entries *)

(** [a.shape] *)
Definition shape {F : Type} (a : ndarray F) : list nat :=
  match a with
  | Arr2 T B _ => [T; B]
  | Arr3 N T B _ => [N; T; B]
  | ArrN shape => shape
  end.

(** every entry of an array of rank 2 or 3 satisfies [P] *)
Definition all_entries {F : Type} (P : F -> Prop) (a : ndarray F) : Prop :=
  match a with
  | Arr2 _ _ d => Forall (Forall P) d
  | Arr3 _ _ _ d => Forall (Forall (Forall P)) d
  | ArrN _ => True
  end.

(** ** File names (lines 78-87 and 275-277) *)

(** [l[i]], for an index that is not negative *)
Definition getitem {A : Type} (l : list A) (i : nat) : result A :=
  match l !! i with
  | Some a => Ok a
  | None => Raise IndexError
  end.

(** [s.split(sep)] for a separator of one character: the pieces between
    the occurrences of [sep], the empty ones too, so never an empty list *)
Fixpoint str_split (sep : ascii) (s : string) : list string :=
  match s with
  | EmptyString => [""]
  | String c r =>
      if Ascii.eqb c sep then "" :: str_split sep r
      else match str_split sep r with
           | [] => [String c ""]
           | p :: ps => String c p :: ps
           end
  end.

(** [sep.join(parts)] *)
Fixpoint str_join (sep : string) (parts : list string) : string :=
  match parts with
  | [] => ""
  | [p] => p
  | p :: ps => (p ++ sep ++ str_join sep ps)%string
  end.

(** [c in s], for a character *)
Fixpoint str_contains (c : ascii) (s : string) : bool :=
  match s with
  | EmptyString => false
  | String c' r => (Ascii.eqb c' c || str_contains c r)%bool
  end.

(** [process_filename].  Python's [int], which reads the index, is the
    parameter [py_int]: it raises [ValueError] on what is no numeral. *)
Definition process_filename (py_int : string -> result Z) (filename : string)
  : result (Z * string) :=
  first <~ getitem (str_split "_" filename) 0 ;;
  let parts := str_split "-" first in
  idx <~ getitem parts 0 ;;
  let dataset := str_join "-" (skipn 1 parts) in
  file_index <~ py_int idx ;;
  Ok (file_index, dataset).

(** lines 275-277 of [process_test_file]: the identifier, the crop and the
    end year that the name of a test file holds *)
Definition test_identifier (name : string) : result (string * string * string) :=
  let id_components := str_split "_" name in
  crop <~ getitem id_components 1 ;;
  end_year <~ getitem id_components 2 ;;
  let identifier := str_join "_" (firstn 4 id_components) in
  Ok (identifier, crop, end_year).

(** ** Output names *)

(** the names of the output files of the raw files of a listing, for those
    whose name [process_filename] can read (line 384) *)
Fixpoint output_names (process_filename : string -> result (Z * string))
    (eo_files : list string) : list string :=
  match eo_files with
  | [] => []
  | file_path :: rest =>
      match process_filename file_path with
      | Ok (file_index, dataset) =>
          (pretty file_index ++ "_" ++ dataset ++ ".pkl")%string
            :: output_names process_filename rest
      | Raise _ => output_names process_filename rest
      end
  end.

(** ** Regrouping a raster by time step ([load_tif], lines 89-125) *)

(** [range(n)] *)
Definition py_range (n : Z) : list Z := List.map Z.of_nat (seq 0 (Z.to_nat n)).

(** [l[start:stop]]: a negative position counts from the end, and both
    positions are clipped to the list *)
Definition py_slice {A : Type} (start stop : Z) (l : list A) : list A :=
  let n := Z.of_nat (length l) in
  let clip := fun i => if (i <? 0)%Z then Z.max (i + n) 0 else Z.min i n in
  firstn (Z.to_nat (clip stop - clip start)) (skipn (Z.to_nat (clip start)) l).

(** What [xr.open_rasterio] reads from a file: the bands, each a grid of
    rows along y and columns along x, and the two coordinate axes. *)
Record Raster (F : Type) : Type := {
  ras_bands : list (list (list F));
  ras_x : list F;
  ras_y : list F
}.
Arguments ras_bands {F} _.
Arguments ras_x {F} _.
Arguments ras_y {F} _.

(** The array [load_tif] returns, of dimensions (time, band, y, x): the
    time coordinate in days, the values by time step and band, the two
    axes, and the attribute "band_descriptions". *)
Record TimeStack (F : Type) : Type := {
  stack_time : list Z;
  stack_values : list (list (list (list F)));
  stack_x : list F;
  stack_y : list F;
  band_descriptions : list string
}.
Arguments stack_time {F} _.
Arguments stack_values {F} _.
Arguments stack_x {F} _.
Arguments stack_y {F} _.
Arguments band_descriptions {F} _.

Section LoadTif.
Context {F : Type} `{Scalar F}.
Variables DYNAMIC_BANDS STATIC_BANDS : list string.
Variables NUM_TIMESTEPS DAYS_PER_TIMESTEP : Z.

(** [np.nanmean] of a whole grid.  numpy adds the entries of a contiguous
    grid in blocks, not one after the other, so the mean is taken as numpy
    gives it. *)
Variable nanmean_grid : list (list F) -> F.

(** [load_tif], on the raster [da] that [xr.open_rasterio] read from the
    file.  Dates are day numbers. *)
Definition load_tif (da : Raster F) (start_date : Z)
  : result (TimeStack F * F) :=
  let bands_per_timestep := Z.of_nat (length DYNAMIC_BANDS) in
  let num_bands := Z.of_nat (length (ras_bands da)) in
  let num_dynamic_bands := num_bands - Z.of_nat (length STATIC_BANDS) in
  _ <~ py_assert (num_dynamic_bands =? bands_per_timestep * NUM_TIMESTEPS)%Z ;;
  let static_data :=
    py_slice (num_bands - Z.of_nat (length STATIC_BANDS)) num_bands
      (ras_bands da) in
  slope <~ index "slope" STATIC_BANDS ;;
  slope_grid <~ getitem static_data slope ;;
  let average_slope := nanmean_grid slope_grid in
  da_split_by_time <~
    mapM (fun timestep =>
            let time_specific_da :=
              py_slice (timestep * bands_per_timestep)
                ((timestep + 1) * bands_per_timestep) (ras_bands da) in
            let time_specific_da := time_specific_da ++ static_data in
            (* the new band coordinate has to have one label per band *)
            if (length time_specific_da
                =? length DYNAMIC_BANDS + length STATIC_BANDS)%nat
            then Ok time_specific_da
            else Raise ValueError)
      (py_range NUM_TIMESTEPS) ;;
  let timesteps :=
    List.map (fun i => start_date + DAYS_PER_TIMESTEP * i)
      (py_range NUM_TIMESTEPS) in
  match da_split_by_time with
  | [] =>
      (* xr.concat of no array *)
      Raise ValueError
  | _ =>
      Ok ({| stack_time := timesteps;
             stack_values := da_split_by_time;
             stack_x := ras_x da;
             stack_y := ras_y da;
             band_descriptions := BANDS DYNAMIC_BANDS STATIC_BANDS |},
          average_slope)
  end.

End LoadTif.

(** ** Test instances (lines 282-293, 321-323 and 352-362) *)

Record TestInstance (F : Type) : Type := {
  test_x : ndarray F;
  test_y : list Z;
  lats : list F;
  lons : list F
}.
Arguments test_x {F} _.
Arguments test_y {F} _.
Arguments lats {F} _.
Arguments lons {F} _.

(** [process_test_file] can fail in one more way than the code above: by
    taking an attribute of [None]. *)
Inductive test_outcome (A : Type) : Type :=
| Produced (a : A)
| Raised (e : exn)
| RaisedAttributeError.
Arguments Produced {A} a.
Arguments Raised {A} e.
Arguments RaisedAttributeError {A}.

(** [a.shape[0]] *)
Definition shape0 {F : Type} (a : ndarray F) : result nat :=
  match a with
  | Arr2 T _ _ => Ok T
  | Arr3 N _ _ _ => Ok N
  | ArrN shape => getitem shape 0
  end.

Section TestFile.
Context {F : Type} `{Scalar F}.
Variables DYNAMIC_BANDS STATIC_BANDS : list string.

(** [np.meshgrid(x, y)]: two grids of [len(y)] rows and [len(x)] columns,
    the first holding x along every row, the second y down every column *)
Definition meshgrid (xs ys : list F) : list (list F) * list (list F) :=
  (List.map (fun _ => xs) ys,
   List.map (fun yv => List.map (fun _ => yv) xs) ys).

(** lines 288-290: the values of shape [[T, B, H, W]], reshaped to
    [[T, B, H * W]] and with the pixel axis moved to the front; [N] is
    [H * W] *)
Definition pixels_first (N : nat) (values : list (list (list (list F))))
  : list (list (list F)) :=
  List.map (fun k =>
    List.map (List.map (fun band => nth k (concat band) s_zero)) values)
    (seq 0 N).

(** lines 288-293: the features of the pixels, [None] when imputation is
    impossible *)
Definition test_features (T B height width : nat)
    (values : list (list (list (list F)))) (average_slope : F)
  : result (option (ndarray F)) :=
  let x_np :=
    Arr3 (height * width) T B (pixels_first (height * width) values) in
  x_np <~ calculate_ndvi DYNAMIC_BANDS STATIC_BANDS x_np ;;
  x_np <~ remove_bands DYNAMIC_BANDS STATIC_BANDS x_np ;;
  fillna DYNAMIC_BANDS STATIC_BANDS x_np average_slope.

(** Lines 282-293 and 311-323 of [process_test_file], on the array [da]
    and the slope that [load_tif] returned and on the two masks that
    [raster_geometry_mask] returned.  The array is as [load_tif] builds it:
    one group of bands per entry of the time coordinate, the raw bands in
    each. *)
Definition test_instance (da : TimeStack F) (average_slope : F)
    (positive negative : list (list bool)) : test_outcome (TestInstance F) :=
  let '(lon, lat) := meshgrid (stack_x da) (stack_y da) in
  let flat_lat := concat lat in
  let flat_lon := concat lon in
  let T := length (stack_time da) in
  let B := (length DYNAMIC_BANDS + length STATIC_BANDS)%nat in
  match test_features T B (length (stack_y da)) (length (stack_x da))
          (stack_values da) average_slope with
  | Raise e => Raised e
  | Ok x_np =>
      match test_labels positive negative with
      | Raise e => Raised e
      | Ok y =>
          match x_np with
          | None =>
              (* x_np.shape, of None *)
              RaisedAttributeError
          | Some x_np =>
              match shape0 x_np with
              | Raise e => Raised e
              | Ok n =>
                  if (length y =? n)%nat
                  then Produced {| test_x := x_np; test_y := y;
                                   lats := flat_lat; lons := flat_lon |}
                  else Raised AssertionError
              end
          end
      end
  end.

End TestFile.

(** What [pickle_test_instances] touches: [features/test_arrays], absent
    or with its files, and the files of [test_features]. *)
Record test_dirs (F : Type) : Type := {
  features_test_arrays : option (gmap string (TestInstance F));
  test_savedir : gmap string (TestInstance F)
}.
Arguments features_test_arrays {F} _.
Arguments test_savedir {F} _.

(** [process_test_file] as a whole is the function from a path to what it
    returns or raises. *)
Fixpoint pickle_loop {F : Type}
    (process_test_file : string -> test_outcome (string * TestInstance F))
    (files : list string) (dir : gmap string (TestInstance F))
  : test_outcome (gmap string (TestInstance F)) :=
  match files with
  | [] => Produced dir
  | filepath :: rest =>
      match process_test_file filepath with
      | Produced (instance_name, test_instance) =>
          pickle_loop process_test_file rest
            (<[(instance_name ++ ".pkl")%string := test_instance]> dir)
      | Raised e => Raised e
      | RaisedAttributeError => RaisedAttributeError
      end
  end.

(** [pickle_test_instances], on the listing of [test_eo_data/*.tif] *)
Definition pickle_test_instances {F : Type}
    (process_test_file : string -> test_outcome (string * TestInstance F))
    (files : list string) (w : test_dirs F) : test_outcome (test_dirs F) :=
  (* test_savedir.mkdir(exist_ok=True), of features/test_arrays *)
  let made :=
    match features_test_arrays w with
    | Some d => Some d
    | None => Some ∅
    end in
  match pickle_loop process_test_file files (test_savedir w) with
  | Produced dir =>
      Produced {| features_test_arrays := made; test_savedir := dir |}
  | Raised e => Raised e
  | RaisedAttributeError => RaisedAttributeError
  end.

(** ** More data for running the code *)

(** a reading of plain decimal numerals, as [int] reads them.  Python's
    [int] also takes a sign, blanks around the numeral and underscores
    between digits; this reading, which only serves to run the code on
    examples, takes digits alone. *)
Fixpoint decimal (acc : Z) (s : string) : option Z :=
  match s with
  | EmptyString => Some acc
  | String c r =>
      let d := Z.of_N (N_of_ascii c) - 48 in
      if ((0 <=? d)%Z && (d <=? 9)%Z)%bool then decimal (10 * acc + d) r
      else None
  end.

Definition demo_int (s : string) : result Z :=
  match s with
  | EmptyString => Raise ValueError
  | _ => match decimal 0 s with
         | Some z => Ok z
         | None => Raise ValueError
         end
  end.

(** a raster of two time steps of the four dynamic bands and the static
    band, on a grid of one row and two columns *)
Definition demo_raster : Raster float :=
  {| ras_bands := [[[1; 2]]; [[3; 4]]; [[5; 6]]; [[7; 8]];
                   [[11; 12]]; [[13; 14]]; [[15; 16]]; [[17; 18]];
                   [[0.5; 1.5]]]%float;
     ras_x := [10; 20]%float;
     ras_y := [50]%float |}.

(** the mean of a small grid, its entries added one after the other *)
Definition demo_nanmean_grid (g : list (list float)) : float :=
  nanmean (concat g).

(** what [load_tif] makes of [demo_raster], and the same with a slope
    band that is NaN everywhere *)
Definition demo_stack : TimeStack float :=
  {| stack_time := [100; 130];
     stack_values :=
       [[[[1; 2]]; [[3; 4]]; [[5; 6]]; [[7; 8]]; [[0.5; 1.5]]];
        [[[11; 12]]; [[13; 14]]; [[15; 16]]; [[17; 18]]; [[0.5; 1.5]]]]%float;
     stack_x := [10; 20]%float;
     stack_y := [50]%float;
     band_descriptions := BANDS demo_dynamic demo_static |}.

Definition demo_stack_nan : TimeStack float :=
  {| stack_time := [100; 130];
     stack_values :=
       [[[[1; 2]]; [[3; 4]]; [[5; 6]]; [[7; 8]]; [[nan; nan]]];
        [[[11; 12]]; [[13; 14]]; [[15; 16]]; [[17; 18]]; [[nan; nan]]]]%float;
     stack_x := [10; 20]%float;
     stack_y := [50]%float;
     band_descriptions := BANDS demo_dynamic demo_static |}.

(** a stand-in for [process_test_file]: the identifier from the name, the
    instance from [demo_stack], with masks that depend on the file *)
Definition demo_process_test_file (filepath : string)
  : test_outcome (string * TestInstance float) :=
  match test_identifier filepath with
  | Raise e => Raised e
  | Ok (identifier, _, _) =>
      let positive :=
        if String.eqb filepath "togo_crop_2019_0_a.tif"
        then [[false; true]] else [[true; false]] in
      match test_instance demo_dynamic demo_static demo_stack 1%float
              positive [[true; true]] with
      | Produced instance => Produced (identifier, instance)
      | Raised e => Raised e
      | RaisedAttributeError => RaisedAttributeError
      end
  end.

(** * Properties *)

Example float_of_Z_150 : float_of_Z 150 = 150%float.
Proof. vm_compute. reflexivity. Qed.
Example float_of_Z_neg : float_of_Z (-3) = (-3)%float.
Proof. vm_compute. reflexivity. Qed.
Example float_zero_div_zero : s_isnan (s_div (s_zero : float) s_zero) = true.
Proof. vm_compute. reflexivity. Qed.

(** ** The carriers *)

Lemma SFcompare_zero_r_le (x : spec_float) :
  SFleb x (S754_zero false) = true -> SFltb (S754_zero false) x = false.
Proof.
  unfold SFleb, SFltb.
  destruct x as [s | s | | s m e]; try destruct s; simpl; congruence.
Qed.

Lemma SFcompare_zero_r_eq (x : spec_float) :
  SFeqb x (S754_zero false) = true -> SFltb (S754_zero false) x = false.
Proof.
  unfold SFeqb, SFltb.
  destruct x as [s | s | | s m e]; try destruct s; simpl; congruence.
Qed.

#[export] Instance float_laws : ScalarLaws float.
Proof.
  split; simpl.
  - intros x. rewrite leb_spec, ltb_spec. apply SFcompare_zero_r_le.
  - intros x. rewrite eqb_spec, ltb_spec. apply SFcompare_zero_r_eq.
  - reflexivity.
  - reflexivity.
  - reflexivity.
  - reflexivity.
  - reflexivity.
  - reflexivity.
  - reflexivity.
  - reflexivity.
  - reflexivity.
Qed.

#[export] Instance real_laws : ScalarLaws R.
Proof.
  split; simpl; try reflexivity.
  - intros x. unfold Rleb, Rltb.
    destruct (Rle_dec x 0), (Rlt_dec 0 x); try reflexivity; try discriminate.
    lra.
  - intros x. unfold Reqb, Rltb.
    destruct (Req_dec_T x 0), (Rlt_dec 0 x); try reflexivity; try discriminate.
    lra.
Qed.

(** ** NDVI derivation *)

Section NdviFacts.
Context {F : Type} `{ScalarLaws F}.
Variables DYNAMIC_BANDS STATIC_BANDS : list string.
Local Abbreviation BANDS := (BANDS DYNAMIC_BANDS STATIC_BANDS).

Lemma zip_with_map_same {A B C D : Type} (f : B -> C -> D)
    (g : A -> B) (h : A -> C) (l : list A) :
  zip_with f (List.map g l) (List.map h l) = List.map (fun x => f (g x) (h x)) l.
Proof. induction l as [| x l IH]; simpl; [reflexivity | now rewrite IH]. Qed.

Lemma zip_with_self_map {A B C : Type} (f : A -> B -> C) (g : A -> B)
    (l : list A) :
  zip_with f l (List.map g l) = List.map (fun x => f x (g x)) l.
Proof. induction l as [| x l IH]; simpl; [reflexivity | now rewrite IH]. Qed.

Lemma calculate_ndvi_rank2 (i1 i2 T B : nat) (d : list (list F)) :
  index "B8" BANDS = Ok i1 -> index "B4" BANDS = Ok i2 ->
  (i1 < B)%nat -> (i2 < B)%nat ->
  calculate_ndvi DYNAMIC_BANDS STATIC_BANDS (Arr2 T B d)
  = Ok (Arr2 T (S B) (List.map (ndvi_row i1 i2) d)).
Proof.
  intros H1 H2 L1 L2. unfold calculate_ndvi, take_band2.
  rewrite H1, H2. simpl.
  apply Nat.ltb_lt in L1, L2. rewrite L1, L2. simpl.
  unfold append_band. rewrite zip_with_map_same, zip_with_self_map.
  reflexivity.
Qed.

Lemma calculate_ndvi_rank3 (i1 i2 N T B : nat) (d : list (list (list F))) :
  index "B8" BANDS = Ok i1 -> index "B4" BANDS = Ok i2 ->
  (i1 < B)%nat -> (i2 < B)%nat ->
  calculate_ndvi DYNAMIC_BANDS STATIC_BANDS (Arr3 N T B d)
  = Ok (Arr3 N T (S B) (List.map (List.map (ndvi_row i1 i2)) d)).
Proof.
  intros H1 H2 L1 L2. unfold calculate_ndvi, take_band3.
  rewrite H1, H2. simpl.
  apply Nat.ltb_lt in L1, L2. rewrite L1, L2. simpl.
  rewrite zip_with_map_same, zip_with_self_map.
  f_equal. f_equal. apply map_ext. intros px.
  unfold append_band. rewrite zip_with_map_same, zip_with_self_map.
  reflexivity.
Qed.

Lemma ndvi_value_nonpos (nir red : F) :
  s_leb (s_add nir red) s_zero = true -> ndvi_value nir red = s_zero.
Proof.
  intros Hle. unfold ndvi_value. now rewrite (nonpos_not_pos _ Hle).
Qed.

Lemma ndvi_value_zero_den (nir red : F) :
  s_eqb (s_add nir red) s_zero = true -> ndvi_value nir red = s_zero.
Proof.
  intros Hz. unfold ndvi_value. now rewrite (eqzero_not_pos _ Hz).
Qed.

Lemma ndvi_value_pos (nir red : F) :
  s_ltb s_zero (s_add nir red) = true ->
  ndvi_value nir red = s_div (s_sub nir red) (s_add nir red).
Proof. intros Hlt. unfold ndvi_value. now rewrite Hlt. Qed.

Lemma ndvi_value_not_pos (nir red : F) :
  s_ltb s_zero (s_add nir red) = false -> ndvi_value nir red = s_zero.
Proof. intros Hlt. unfold ndvi_value. now rewrite Hlt. Qed.

Lemma ndvi_row_length (i1 i2 : nat) (r : list F) :
  length (ndvi_row i1 i2 r) = S (length r).
Proof. unfold ndvi_row. rewrite length_app. simpl. lia. Qed.

Lemma ndvi_row_firstn (i1 i2 : nat) (r : list F) :
  firstn (length r) (ndvi_row i1 i2 r) = r.
Proof.
  unfold ndvi_row. rewrite firstn_app, Nat.sub_diag, firstn_all. simpl.
  apply app_nil_r.
Qed.

Lemma ndvi_row_last (i1 i2 : nat) (r : list F) :
  nth (length r) (ndvi_row i1 i2 r) s_zero
  = ndvi_value (nth i1 r s_zero) (nth i2 r s_zero).
Proof.
  unfold ndvi_row. rewrite app_nth2 by lia. now rewrite Nat.sub_diag.
Qed.

End NdviFacts.

Lemma Forall2_map_self {A B : Type} (P : A -> B -> Prop) (f : A -> B)
    (l : list A) :
  (forall x, P x (f x)) -> Forall2 P l (List.map f l).
Proof. intros Hf. induction l; simpl; constructor; auto. Qed.

Lemma ndvi_row_appended {F : Type} `{ScalarLaws F} (i1 i2 : nat) (r : list F) :
  ndvi_appended i1 i2 r (ndvi_row i1 i2 r).
Proof.
  unfold ndvi_appended. rewrite ndvi_row_length, ndvi_row_firstn, ndvi_row_last.
  repeat split.
  - apply ndvi_value_pos.
  - apply ndvi_value_not_pos.
  - now apply ndvi_value_zero_den.
  - rewrite ndvi_value_zero_den by assumption. apply zero_not_nan.
  - rewrite ndvi_value_zero_den by assumption. apply zero_not_posinf.
  - rewrite ndvi_value_zero_den by assumption. apply zero_not_neginf.
Qed.

(** C6, as the code has it: for an array of rank 2 or 3 whose band axis
    reaches the positions of "B8" (NIR) and "B4" (RED) in the band order,
    NDVI derivation returns an array with one band more; every row keeps its
    old entries and gets one trailing entry, which is
    (NIR - RED) / (NIR + RED) where NIR + RED > 0 and 0 everywhere else; in
    particular where NIR + RED is zero the entry is 0, and neither NaN nor
    infinite. *)
Theorem calculate_ndvi_appends_guarded_band
    {F : Type} `{ScalarLaws F} (DYNAMIC_BANDS STATIC_BANDS : list string)
    (i1 i2 : nat) :
  index "B8" (BANDS DYNAMIC_BANDS STATIC_BANDS) = Ok i1 ->
  index "B4" (BANDS DYNAMIC_BANDS STATIC_BANDS) = Ok i2 ->
  (forall T B (d : list (list F)), (i1 < B)%nat -> (i2 < B)%nat ->
     exists out,
       calculate_ndvi DYNAMIC_BANDS STATIC_BANDS (Arr2 T B d)
       = Ok (Arr2 T (S B) out)
       /\ Forall2 (ndvi_appended i1 i2) d out)
  /\ (forall N T B (d : list (list (list F))), (i1 < B)%nat -> (i2 < B)%nat ->
     exists out,
       calculate_ndvi DYNAMIC_BANDS STATIC_BANDS (Arr3 N T B d)
       = Ok (Arr3 N T (S B) out)
       /\ Forall2 (Forall2 (ndvi_appended i1 i2)) d out).
Proof.
  intros H1 H2. split.
  - intros T B d L1 L2. eexists. split.
    + apply (calculate_ndvi_rank2 _ _ i1 i2); assumption.
    + apply Forall2_map_self. intros r. apply ndvi_row_appended.
  - intros N T B d L1 L2. eexists. split.
    + apply (calculate_ndvi_rank3 _ _ i1 i2); assumption.
    + apply Forall2_map_self. intros px.
      apply Forall2_map_self. intros r. apply ndvi_row_appended.
Qed.

(** The theorem at binary64, on one row of the small catalog. *)
Lemma calculate_ndvi_appends_guarded_band_witness :
  exists out,
    calculate_ndvi demo_dynamic demo_static
      (Arr2 1 5 [[3; 5; 0; 0; 0]%float]) = Ok (Arr2 1 6 out)
    /\ Forall2 (ndvi_appended 1 0) [[3; 5; 0; 0; 0]%float] out.
Proof.
  destruct (calculate_ndvi_appends_guarded_band (F := float)
              demo_dynamic demo_static 1 0 eq_refl eq_refl) as [H2 _].
  apply (H2 1%nat 5%nat); lia.
Defined.

(** C6 as stated fails: with NIR = -3 and RED = 1 the denominator is -2, not
    zero, and the quotient is 2, yet the appended entry is 0. *)
Lemma calculate_ndvi_negative_denominator :
  let nir := (-3)%float in
  let red := 1%float in
  calculate_ndvi demo_dynamic demo_static (Arr2 1 5 [[red; nir; 0; 0; 0]%float])
  = Ok (Arr2 1 6 [[red; nir; 0; 0; 0; 0]%float])
  /\ index "B8" (BANDS demo_dynamic demo_static) = Ok 1%nat
  /\ index "B4" (BANDS demo_dynamic demo_static) = Ok 0%nat
  /\ s_eqb (s_add nir red) s_zero = false
  /\ s_div (s_sub nir red) (s_add nir red) = 2%float
  /\ s_eqb (0%float) (s_div (s_sub nir red) (s_add nir red)) = false.
Proof. vm_compute. repeat split; reflexivity. Qed.

(** C10: the appended entry is 0 for every entry with NIR + RED <= 0, and
    then it is neither NaN nor infinite; it is the quotient
    (NIR - RED) / (NIR + RED) only where NIR + RED > 0; this for arrays of
    rank 2 and of rank 3. *)
Theorem calculate_ndvi_division_guarded
    {F : Type} `{ScalarLaws F} (DYNAMIC_BANDS STATIC_BANDS : list string)
    (i1 i2 : nat) :
  index "B8" (BANDS DYNAMIC_BANDS STATIC_BANDS) = Ok i1 ->
  index "B4" (BANDS DYNAMIC_BANDS STATIC_BANDS) = Ok i2 ->
  (forall T B (d : list (list F)), (i1 < B)%nat -> (i2 < B)%nat ->
     calculate_ndvi DYNAMIC_BANDS STATIC_BANDS (Arr2 T B d)
     = Ok (Arr2 T (S B) (List.map (ndvi_row i1 i2) d)))
  /\ (forall N T B (d : list (list (list F))), (i1 < B)%nat -> (i2 < B)%nat ->
     calculate_ndvi DYNAMIC_BANDS STATIC_BANDS (Arr3 N T B d)
     = Ok (Arr3 N T (S B) (List.map (List.map (ndvi_row i1 i2)) d)))
  /\ (forall r : list F,
       let nir := nth i1 r s_zero in
       let red := nth i2 r s_zero in
       let v := nth (length r) (ndvi_row i1 i2 r) s_zero in
       (s_leb (s_add nir red) s_zero = true ->
          v = s_zero /\ s_isnan v = false
          /\ s_isposinf v = false /\ s_isneginf v = false)
       /\ (s_ltb s_zero (s_add nir red) = false -> v = s_zero)
       /\ (s_ltb s_zero (s_add nir red) = true ->
           v = s_div (s_sub nir red) (s_add nir red))).
Proof.
  intros H1 H2. split; [| split].
  - intros. now apply calculate_ndvi_rank2.
  - intros. now apply calculate_ndvi_rank3.
  - intros r. cbv zeta. rewrite ndvi_row_last. split; [| split].
    + intros Hle. rewrite ndvi_value_nonpos by assumption.
      repeat split;
        [apply zero_not_nan | apply zero_not_posinf | apply zero_not_neginf].
    + apply ndvi_value_not_pos.
    + apply ndvi_value_pos.
Qed.

(** The theorem at binary64: a row with NIR + RED = -2 gets the entry 0. *)
Lemma calculate_ndvi_division_guarded_witness :
  calculate_ndvi demo_dynamic demo_static
    (Arr2 1 5 [[1; -3; 0; 0; 0]%float])
  = Ok (Arr2 1 6 (List.map (ndvi_row 1 0) [[1; -3; 0; 0; 0]%float]))
  /\ nth 5 (ndvi_row 1 0 [1; -3; 0; 0; 0]%float) s_zero = 0%float.
Proof.
  destruct (calculate_ndvi_division_guarded (F := float)
              demo_dynamic demo_static 1 0 eq_refl eq_refl) as (H2 & _ & Hv).
  split.
  - apply H2; lia.
  - apply (Hv [1; -3; 0; 0; 0]%float). reflexivity.
Defined.

(** ** The band catalog and band removal *)

Lemma index_lt (x : string) (l : list string) (i : nat) :
  index x l = Ok i -> (i < length l)%nat.
Proof.
  revert i. induction l as [| y l IH]; simpl; intros i Hi; [discriminate |].
  destruct (String.eqb x y).
  - injection Hi as <-. lia.
  - destruct (index x l) as [j |]; simpl in Hi; [| discriminate].
    injection Hi as <-. specialize (IH j eq_refl). lia.
Qed.

Lemma index_nth (x : string) (l : list string) (i : nat) :
  index x l = Ok i -> nth i l "" = x.
Proof.
  revert i. induction l as [| y l IH]; simpl; intros i Hi; [discriminate |].
  destruct (String.eqb x y) eqn:E.
  - injection Hi as <-. symmetry. now apply String.eqb_eq.
  - destruct (index x l) as [j |]; simpl in Hi; [| discriminate].
    injection Hi as <-. now apply IH.
Qed.

Lemma index_In (x : string) (l : list string) :
  In x l -> exists i, index x l = Ok i.
Proof.
  induction l as [| y l IH]; simpl; [tauto |]. intros Hin.
  destruct (String.eqb x y) eqn:E; [now exists 0%nat |].
  destruct Hin as [-> | Hin]; [rewrite String.eqb_refl in E; discriminate |].
  destruct (IH Hin) as [j ->]. now exists (S j).
Qed.

Lemma nat_in_In (i : nat) (l : list nat) : nat_in i l = true <-> In i l.
Proof.
  unfold nat_in. rewrite existsb_exists. split.
  - intros (j & Hj & E). apply Nat.eqb_eq in E. now subst.
  - intros Hi. exists i. split; [assumption | apply Nat.eqb_refl].
Qed.

Lemma py_in_In (x : string) (l : list string) : py_in x l = true <-> In x l.
Proof.
  unfold py_in. rewrite existsb_exists. split.
  - intros (y & Hy & E). apply String.eqb_eq in E. now subst.
  - intros Hx. exists x. split; [assumption | apply String.eqb_refl].
Qed.

(** dropping two distinct positions of the band axis *)
Lemma indices_to_keep_length (B r1 r2 : nat) :
  r1 <> r2 -> (r1 < B)%nat -> (r2 < B)%nat ->
  (length (indices_to_keep B [r1; r2]) + 2 = B)%nat.
Proof.
  intros Hne L1 L2. unfold indices_to_keep.
  pose proof (List.filter_length (fun i => nat_in i [r1; r2]) (seq 0 B)) as Hlen.
  rewrite length_seq in Hlen.
  assert (Hp : Permutation (List.filter (fun i => nat_in i [r1; r2]) (seq 0 B))
                 [r1; r2]).
  { apply NoDup_Permutation.
    - apply List.NoDup_filter, seq_NoDup.
    - repeat constructor; simpl; intuition.
    - intros i. rewrite filter_In, in_seq, nat_in_In. simpl. lia. }
  apply Permutation_length in Hp. cbn [length] in Hp. lia.
Qed.

(** the catalog's final band order is two names shorter than the dynamic
    bands, then the static bands, then NDVI *)
Lemma BANDS_length (DYNAMIC_BANDS STATIC_BANDS : list string) :
  List.NoDup DYNAMIC_BANDS -> In "B1" DYNAMIC_BANDS -> In "B10" DYNAMIC_BANDS ->
  (length (BANDS DYNAMIC_BANDS STATIC_BANDS) + length REMOVED_BANDS
   = length DYNAMIC_BANDS + length STATIC_BANDS + 1)%nat.
Proof.
  intros Hnd H1 H10. unfold BANDS. rewrite !length_app.
  change (length REMOVED_BANDS) with 2%nat. cbn [length].
  pose proof (List.filter_length (fun x => py_in x REMOVED_BANDS) DYNAMIC_BANDS)
    as Hlen.
  cbv beta in Hlen.
  assert (Hp : Permutation
                 (List.filter (fun x => py_in x REMOVED_BANDS) DYNAMIC_BANDS)
                 REMOVED_BANDS).
  { apply NoDup_Permutation.
    - now apply List.NoDup_filter.
    - unfold REMOVED_BANDS. repeat constructor; simpl; intuition discriminate.
    - intros x. rewrite filter_In, py_in_In. unfold REMOVED_BANDS. simpl.
      intuition (subst; assumption). }
  apply Permutation_length in Hp. unfold REMOVED_BANDS in Hp at 2.
  cbn [length] in Hp. lia.
Qed.

Lemma pick_length {F : Type} `{Scalar F} (keep : list nat) (r : list F) :
  length (pick keep r) = length keep.
Proof. unfold pick. apply length_map. Qed.

Lemma remove_bands_indices (DYNAMIC_BANDS STATIC_BANDS : list string) :
  In "B1" DYNAMIC_BANDS -> In "B10" DYNAMIC_BANDS ->
  exists r1 r2,
    mapM (fun band => index band (RAW_BANDS DYNAMIC_BANDS STATIC_BANDS))
      REMOVED_BANDS = Ok [r1; r2]
    /\ r1 <> r2
    /\ (r1 < length (RAW_BANDS DYNAMIC_BANDS STATIC_BANDS))%nat
    /\ (r2 < length (RAW_BANDS DYNAMIC_BANDS STATIC_BANDS))%nat.
Proof.
  intros H1 H10.
  destruct (index_In "B1" (RAW_BANDS DYNAMIC_BANDS STATIC_BANDS)) as [r1 E1].
  { unfold RAW_BANDS. apply in_or_app. now left. }
  destruct (index_In "B10" (RAW_BANDS DYNAMIC_BANDS STATIC_BANDS)) as [r2 E2].
  { unfold RAW_BANDS. apply in_or_app. now left. }
  exists r1, r2. unfold REMOVED_BANDS. simpl. rewrite E1, E2. simpl.
  repeat split.
  - intros ->. apply index_nth in E1, E2. rewrite E1 in E2. discriminate.
  - now apply index_lt in E1.
  - now apply index_lt in E2.
Qed.

(** C8: on the arrays the loader gives (band axis as long as the raw band
    order) NDVI derivation followed by band removal succeeds, and the band
    axis of the result is as long as the catalog's final band order, that
    is len(dynamic) - len(removed) + len(static) + 1; every row of the
    result has that many entries. *)
Theorem ndvi_then_remove_bands_last_axis
    {F : Type} `{Scalar F} (DYNAMIC_BANDS STATIC_BANDS : list string)
    (a : ndarray F) :
  List.NoDup DYNAMIC_BANDS ->
  In "B1" DYNAMIC_BANDS -> In "B10" DYNAMIC_BANDS ->
  In "B8" (BANDS DYNAMIC_BANDS STATIC_BANDS) ->
  In "B4" (BANDS DYNAMIC_BANDS STATIC_BANDS) ->
  rank_2_or_3 a -> wf_array a ->
  last_axis a = Some (length (RAW_BANDS DYNAMIC_BANDS STATIC_BANDS)) ->
  exists x out,
    calculate_ndvi DYNAMIC_BANDS STATIC_BANDS a = Ok x
    /\ remove_bands DYNAMIC_BANDS STATIC_BANDS x = Ok out
    /\ wf_array out
    /\ last_axis out = Some (length (BANDS DYNAMIC_BANDS STATIC_BANDS))
    /\ (length (BANDS DYNAMIC_BANDS STATIC_BANDS) + length REMOVED_BANDS
        = length DYNAMIC_BANDS + length STATIC_BANDS + 1)%nat.
Proof.
  intros Hnd H1 H10 H8 H4 Hrank Hwf Hlast.
  pose proof (BANDS_length DYNAMIC_BANDS STATIC_BANDS Hnd H1 H10) as HB.
  destruct (index_In _ _ H8) as [i1 E1], (index_In _ _ H4) as [i2 E2].
  pose proof (index_lt _ _ _ E1) as L1. pose proof (index_lt _ _ _ E2) as L2.
  destruct (remove_bands_indices DYNAMIC_BANDS STATIC_BANDS H1 H10)
    as (r1 & r2 & Erm & Hne & Lr1 & Lr2).
  assert (HR : length (RAW_BANDS DYNAMIC_BANDS STATIC_BANDS)
               = (length DYNAMIC_BANDS + length STATIC_BANDS)%nat)
    by (unfold RAW_BANDS; apply length_app).
  simpl in HB.
  destruct a as [T B d | N T B d | shape]; simpl in Hrank; [| | tauto];
    simpl in Hlast; injection Hlast as ->.
  - eexists. eexists. split; [| split; [| split; [| split]]].
    + apply (calculate_ndvi_rank2 _ _ i1 i2); (assumption || lia).
    + unfold remove_bands. rewrite Erm. simpl. reflexivity.
    + destruct Hwf as [HT Hrows]. simpl. split.
      * now rewrite !length_map.
      * apply Forall_map, Forall_map, Forall_forall. intros r _.
        apply pick_length.
    + simpl. f_equal.
      pose proof (indices_to_keep_length
                    (S (length (RAW_BANDS DYNAMIC_BANDS STATIC_BANDS))) r1 r2)
        as Hk.
      lia.
    + simpl. lia.
  - eexists. eexists. split; [| split; [| split; [| split]]].
    + apply (calculate_ndvi_rank3 _ _ i1 i2); (assumption || lia).
    + unfold remove_bands. rewrite Erm. simpl. reflexivity.
    + destruct Hwf as [HN Hpx]. simpl. split.
      * now rewrite !length_map.
      * apply Forall_map, Forall_map.
        eapply Forall_impl; [exact Hpx |].
        intros px [HT Hrows]. split.
        -- now rewrite !length_map.
        -- apply Forall_map, Forall_map, Forall_forall. intros r _.
           apply pick_length.
    + simpl. f_equal.
      pose proof (indices_to_keep_length
                    (S (length (RAW_BANDS DYNAMIC_BANDS STATIC_BANDS))) r1 r2)
        as Hk.
      lia.
    + simpl. lia.
Qed.

Lemma demo_dynamic_NoDup : List.NoDup demo_dynamic.
Proof.
  unfold demo_dynamic.
  repeat constructor; simpl; intuition discriminate.
Qed.

(** The theorem on a [[2, 5]] array over the small catalog: four bands
    remain. *)
Lemma ndvi_then_remove_bands_last_axis_witness :
  exists x out,
    calculate_ndvi demo_dynamic demo_static
      (Arr2 2 5 [[1; 2; 3; 4; 5]; [6; 7; 8; 9; 10]]%float) = Ok x
    /\ remove_bands demo_dynamic demo_static x = Ok out
    /\ wf_array out
    /\ last_axis out = Some 4%nat
    /\ (4 + 2 = 4 + 1 + 1)%nat.
Proof.
  apply (ndvi_then_remove_bands_last_axis (F := float)
           demo_dynamic demo_static
           (Arr2 2 5 [[1; 2; 3; 4; 5]; [6; 7; 8; 9; 10]]%float)).
  - apply demo_dynamic_NoDup.
  - simpl. auto.
  - simpl. auto.
  - simpl. auto.
  - simpl. auto.
  - exact I.
  - split; [reflexivity | repeat constructor].
  - reflexivity.
Defined.

Example demo_feature_array :
  (x <~ calculate_ndvi demo_dynamic demo_static
          (Arr2 2 5 [[1; 3; 3; 4; 5]; [6; 10; 8; 9; 10]]%float) ;;
   remove_bands demo_dynamic demo_static x)
  = Ok (Arr2 2 4 [[3; 3; 5; 0.5]; [10; 8; 10; 0.25]]%float).
Proof. vm_compute. reflexivity. Qed.

(** ** NaN imputation *)

Lemma nth_map_seq {A : Type} (f : nat -> A) (B i : nat) (d : A) :
  (i < B)%nat -> nth i (List.map f (seq 0 B)) d = f i.
Proof.
  intros Hi. rewrite (nth_indep _ d (f 0%nat)) by now rewrite length_map, length_seq.
  rewrite map_nth, seq_nth by assumption. reflexivity.
Qed.

Lemma filter_nil_nth {A : Type} (f : A -> bool) (l : list A) (d : A) :
  (forall i, (i < length l)%nat -> f (nth i l d) = false) ->
  List.filter f l = [].
Proof.
  induction l as [| x l IH]; simpl; intros Hf; [reflexivity |].
  rewrite (Hf 0%nat) by lia. apply IH. intros i Hi. apply (Hf (S i)). lia.
Qed.

Lemma filter_one_le {A : Type} (f : A -> bool) (l : list A) (d : A) (i : nat) :
  (i < length l)%nat -> f (nth i l d) = true ->
  (1 <= length (List.filter f l))%nat.
Proof.
  revert i. induction l as [| x l IH]; simpl; intros i Hi Hf; [lia |].
  destruct i as [| i].
  - rewrite Hf. simpl. lia.
  - destruct (f x); simpl; [lia |]. apply (IH i); [lia | assumption].
Qed.

Lemma filter_two_le {A : Type} (f : A -> bool) (l : list A) (d : A) (i j : nat) :
  i <> j -> (i < length l)%nat -> (j < length l)%nat ->
  f (nth i l d) = true -> f (nth j l d) = true ->
  (2 <= length (List.filter f l))%nat.
Proof.
  revert i j. induction l as [| x l IH]; simpl; intros i j Hne Hi Hj Hfi Hfj;
    [lia |].
  destruct i as [| i], j as [| j]; try congruence.
  - rewrite Hfi. simpl.
    pose proof (filter_one_le f l d j ltac:(lia) Hfj). lia.
  - rewrite Hfj. simpl.
    pose proof (filter_one_le f l d i ltac:(lia) Hfi). lia.
  - pose proof (IH i j ltac:(congruence) ltac:(lia) ltac:(lia) Hfi Hfj).
    destruct (f x); simpl; lia.
Qed.

Lemma filter_exactly_one {A : Type} (f : A -> bool) (l : list A) (d : A)
    (k : nat) :
  (k < length l)%nat -> f (nth k l d) = true ->
  (forall i, (i < length l)%nat -> i <> k -> f (nth i l d) = false) ->
  length (List.filter f l) = 1%nat.
Proof.
  revert k. induction l as [| x l IH]; simpl; intros k Hk Hfk Hf; [lia |].
  destruct k as [| k].
  - rewrite Hfk. simpl. f_equal.
    rewrite (filter_nil_nth f l d); [reflexivity |].
    intros i Hi. apply (Hf (S i)); lia.
  - rewrite (Hf 0%nat) by lia. apply (IH k); [lia | assumption |].
    intros i Hi Hne. apply (Hf (S i)); lia.
Qed.

Lemma existsb_nth_false {A : Type} (f : A -> bool) (l : list A) (d : A) :
  existsb f l = false <-> forall i, (i < length l)%nat -> f (nth i l d) = false.
Proof.
  induction l as [| x l IH]; simpl.
  - split; [intros _ i Hi; lia | reflexivity].
  - rewrite orb_false_iff, IH. split.
    + intros [Hx Hl] [| i] Hi; [assumption | apply Hl; lia].
    + intros Hf. split; [apply (Hf 0%nat); lia |].
      intros i Hi. apply (Hf (S i)). lia.
Qed.

Section FillnaFacts.
Context {F : Type} `{ScalarLaws F}.
Variables DYNAMIC_BANDS STATIC_BANDS : list string.
Local Abbreviation BANDS := (BANDS DYNAMIC_BANDS STATIC_BANDS).

Lemma nan_to_num_nan (fill x : F) :
  s_isnan x = true -> nan_to_num fill x = fill.
Proof. intros Hx. unfold nan_to_num. now rewrite Hx. Qed.

Lemma nan_to_num_finite (fill x : F) :
  is_finite x = true -> nan_to_num fill x = x.
Proof.
  unfold is_finite, nan_to_num. rewrite negb_true_iff, !orb_false_iff.
  intros [[-> ->] ->]. reflexivity.
Qed.

Lemma nan_to_num_not_nan (fill x : F) :
  s_isnan fill = false -> s_isnan (nan_to_num fill x) = false.
Proof.
  intros Hf. unfold nan_to_num.
  destruct (s_isnan x) eqn:En; [assumption |].
  destruct (s_isposinf x); [apply finfo_max_not_nan |].
  destruct (s_isneginf x); [apply finfo_min_not_nan | assumption].
Qed.

Lemma nan_to_num_is_finite (fill x : F) :
  is_finite fill = true -> is_finite (nan_to_num fill x) = true.
Proof.
  intros Hf. unfold nan_to_num.
  destruct (s_isnan x) eqn:En; [assumption |].
  destruct (s_isposinf x) eqn:Ep.
  { unfold is_finite.
    now rewrite finfo_max_not_nan, finfo_max_not_posinf, finfo_max_not_neginf. }
  destruct (s_isneginf x) eqn:Eg.
  { unfold is_finite.
    now rewrite finfo_min_not_nan, finfo_min_not_posinf, finfo_min_not_neginf. }
  unfold is_finite. now rewrite En, Ep, Eg.
Qed.

Lemma fill_row_imputed (B : nat) (fills r : list F) :
  imputed B fills r (fill_row B fills r).
Proof.
  unfold imputed, fill_row. split; [now rewrite length_map, length_seq |].
  intros i Hi. cbv zeta. rewrite nth_map_seq by assumption.
  repeat split.
  - apply nan_to_num_nan.
  - apply nan_to_num_finite.
  - intros En Ep. unfold nan_to_num. now rewrite En, Ep.
  - intros En Ep Eg. unfold nan_to_num. now rewrite En, Ep, Eg.
Qed.

Lemma fill_row_not_nan (B : nat) (fills r : list F) :
  (forall i, (i < B)%nat -> s_isnan (nth i fills s_zero) = false) ->
  Forall (fun y => s_isnan y = false) (fill_row B fills r).
Proof.
  intros Hf. unfold fill_row. apply Forall_map, List.Forall_forall.
  intros i Hi. apply in_seq in Hi. apply nan_to_num_not_nan, Hf. lia.
Qed.

Lemma fill_row_is_finite (B : nat) (fills r : list F) :
  (forall i, (i < B)%nat -> is_finite (nth i fills s_zero) = true) ->
  Forall (fun y => is_finite y = true) (fill_row B fills r).
Proof.
  intros Hf. unfold fill_row. apply Forall_map, List.Forall_forall.
  intros i Hi. apply in_seq in Hi. apply nan_to_num_is_finite, Hf. lia.
Qed.

Lemma nanmean_axis0_length (B : nat) (d : list (list F)) :
  length (nanmean_axis0 B d) = B.
Proof. unfold nanmean_axis0. now rewrite length_map, length_seq. Qed.

Lemma nanmean_axis0_nth (B i : nat) (d : list (list F)) :
  (i < B)%nat -> nth i (nanmean_axis0 B d) s_zero = nanmean (column i d).
Proof. intros Hi. unfold nanmean_axis0. now rewrite nth_map_seq. Qed.

(** no band lacks a mean: the means are the fill values *)
Lemma fill_values_all_means (k B : nat) (m : list F) (s : F) :
  B = length BANDS -> existsb s_isnan m = false ->
  fill_values DYNAMIC_BANDS STATIC_BANDS k B m s = Ok (Some m).
Proof.
  intros -> Hm. unfold fill_values. rewrite Nat.eqb_refl. simpl.
  now rewrite Hm.
Qed.

(** rank 2, the slope band alone lacks a mean *)
Lemma fill_values_slope (B sl : nat) (m : list F) (s : F) :
  B = length BANDS -> length m = B -> index "slope" BANDS = Ok sl ->
  s_isnan (nth sl m s_zero) = true ->
  (forall i, (i < B)%nat -> i <> sl -> s_isnan (nth i m s_zero) = false) ->
  s_isnan s = false ->
  fill_values DYNAMIC_BANDS STATIC_BANDS 1 B m s = Ok (Some (<[sl := s]> m))
  /\ forall i, (i < B)%nat -> s_isnan (nth i (<[sl := s]> m) s_zero) = false.
Proof.
  intros HB Hlen Hsl Hnan Hothers Hs.
  pose proof (index_lt _ _ _ Hsl) as Lsl. rewrite <- HB, <- Hlen in Lsl.
  assert (Hfill : forall i, (i < B)%nat ->
                    s_isnan (nth i (<[sl := s]> m) s_zero) = false).
  { intros i Hi. destruct (Nat.eq_dec i sl) as [-> | Hne].
    - rewrite nth_lookup, list_lookup_insert_eq by assumption. exact Hs.
    - rewrite nth_lookup, list_lookup_insert_ne by congruence.
      rewrite <- nth_lookup. now apply Hothers. }
  split; [| exact Hfill].
  unfold fill_values. rewrite HB, Nat.eqb_refl. simpl.
  assert (Hex : existsb s_isnan m = true).
  { destruct (existsb s_isnan m) eqn:E; [reflexivity |].
    rewrite (existsb_nth_false _ _ s_zero) in E.
    rewrite (E sl Lsl) in Hnan. discriminate. }
  rewrite Hex, Hsl. simpl.
  rewrite (filter_exactly_one s_isnan m s_zero sl Lsl Hnan).
  2:{ intros i Hi Hne. apply Hothers; [lia | assumption]. }
  simpl. rewrite Hnan.
  assert (Hex' : existsb s_isnan (<[sl := s]> m) = false).
  { apply (existsb_nth_false _ _ s_zero). intros i Hi.
    rewrite length_insert in Hi. apply Hfill. lia. }
  rewrite Hex'. reflexivity.
Qed.

(** rank 2, a band other than slope lacks a mean *)
Lemma fill_values_other (B sl j : nat) (m : list F) (s : F) :
  B = length BANDS -> length m = B -> index "slope" BANDS = Ok sl ->
  (j < B)%nat -> j <> sl -> s_isnan (nth j m s_zero) = true ->
  fill_values DYNAMIC_BANDS STATIC_BANDS 1 B m s = Ok None.
Proof.
  intros HB Hlen Hsl Hj Hne Hnan.
  pose proof (index_lt _ _ _ Hsl) as Lsl. rewrite <- HB, <- Hlen in Lsl.
  unfold fill_values. rewrite HB, Nat.eqb_refl. simpl.
  assert (Hex : existsb s_isnan m = true).
  { destruct (existsb s_isnan m) eqn:E; [reflexivity |].
    rewrite (existsb_nth_false _ _ s_zero) in E.
    rewrite (E j) in Hnan by lia. discriminate. }
  rewrite Hex, Hsl. simpl.
  destruct (s_isnan (nth sl m s_zero)) eqn:Esl.
  - pose proof (filter_two_le s_isnan m s_zero j sl Hne ltac:(lia) Lsl Hnan Esl)
      as H2.
    destruct (Nat.eqb_spec (length (List.filter s_isnan m)) 1); [lia |].
    reflexivity.
  - now rewrite andb_false_r.
Qed.

End FillnaFacts.

(** At binary64 a band that is entirely NaN (or empty) has no mean:
    [nanmean] gives 0 / 0. *)
Lemma float_sum_zeros (n : nat) (acc : float) :
  acc = 0%float -> fold_left s_add (repeat (s_zero : float) n) acc = 0%float.
Proof.
  revert acc. induction n as [| n IH]; simpl; intros acc ->; [reflexivity |].
  apply IH. reflexivity.
Qed.

Lemma nanmean_all_nan (l : list float) :
  Forall (fun x => s_isnan x = true) l -> s_isnan (nanmean l) = true.
Proof.
  intros Hl. unfold nanmean.
  assert (E2 : List.filter (fun x : float => negb (s_isnan x)) l = []).
  { induction Hl as [| x l Hx Hl IH]; cbn [List.filter]; [reflexivity |].
    rewrite Hx. cbn [negb]. exact IH. }
  assert (E1 : List.map (fun x : float => if s_isnan x then s_zero else x) l
               = repeat s_zero (length l)).
  { clear E2.
    induction Hl as [| x l Hx Hl IH]; cbn [List.map length repeat];
      [reflexivity |].
    now rewrite Hx, IH. }
  rewrite E1, E2.
  assert (E3 : np_sum (repeat (s_zero : float) (length l)) = 0%float).
  { destruct (length l) as [| n]; [reflexivity |].
    simpl. now apply float_sum_zeros. }
  rewrite E3. reflexivity.
Qed.

(** C2, as the code has it.  The fill value of a band is its NaN-ignoring
    mean: over the rows for rank 2, and for rank 3 the NaN-ignoring mean
    over time of the per-timestep NaN-ignoring means over the pixels; a band
    that is entirely NaN has a NaN mean.  When no mean is NaN the transform
    returns the array with every NaN entry replaced by its band's mean,
    finite entries unchanged, an infinity replaced by the largest or
    smallest finite number, and no NaN left.  For rank 2: when the slope
    band is the only band whose mean is NaN and s is not NaN, s is the
    slope band's fill value and the result has no NaN (and is fully finite
    when s and the other means are finite); when a band other than slope
    has a NaN mean, the transform returns None. *)
Theorem fillna_imputes_nan (DYNAMIC_BANDS STATIC_BANDS : list string)
    (average_slope : float) (sl : nat) :
  index "slope" (BANDS DYNAMIC_BANDS STATIC_BANDS) = Ok sl ->
  let B := length (BANDS DYNAMIC_BANDS STATIC_BANDS) in
  (forall T (d : list (list float)),
     let m := nanmean_axis0 B d in
     (forall i, (i < B)%nat ->
        Forall (fun x => s_isnan x = true) (column i d) ->
        s_isnan (nth i m s_zero) = true)
     /\ (existsb s_isnan m = false ->
        exists out,
          fillna DYNAMIC_BANDS STATIC_BANDS (Arr2 T B d) average_slope
          = Ok (Some (Arr2 T B out))
          /\ Forall2 (imputed B m) d out
          /\ Forall (Forall (fun y => s_isnan y = false)) out)
     /\ (s_isnan (nth sl m s_zero) = true ->
        (forall i, (i < B)%nat -> i <> sl -> s_isnan (nth i m s_zero) = false) ->
        s_isnan average_slope = false ->
        exists out,
          fillna DYNAMIC_BANDS STATIC_BANDS (Arr2 T B d) average_slope
          = Ok (Some (Arr2 T B out))
          /\ Forall2 (imputed B (<[sl := average_slope]> m)) d out
          /\ Forall (Forall (fun y => s_isnan y = false)) out
          /\ (is_finite average_slope = true ->
              (forall i, (i < B)%nat -> i <> sl ->
                 is_finite (nth i m s_zero) = true) ->
              Forall (Forall (fun y => is_finite y = true)) out))
     /\ (forall j, (j < B)%nat -> j <> sl ->
        s_isnan (nth j m s_zero) = true ->
        fillna DYNAMIC_BANDS STATIC_BANDS (Arr2 T B d) average_slope = Ok None))
  /\ (forall N T (d : list (list (list float))),
     let m := nanmean_axis0 B (nanmean3_axis0 T B d) in
     existsb s_isnan m = false ->
     exists out,
       fillna DYNAMIC_BANDS STATIC_BANDS (Arr3 N T B d) average_slope
       = Ok (Some (Arr3 N T B out))
       /\ Forall2 (Forall2 (imputed B m)) d out
       /\ Forall (Forall (Forall (fun y => s_isnan y = false))) out).
Proof.
  intros Hsl B. split.
  - intros T d m. split; [| split; [| split]].
    + intros i Hi Hcol. subst m. rewrite nanmean_axis0_nth by assumption.
      now apply nanmean_all_nan.
    + intros Hm. eexists. split; [| split].
      * unfold fillna. fold m.
        rewrite (fill_values_all_means _ _ 1%nat B m) by (reflexivity || assumption).
        reflexivity.
      * apply Forall2_map_self. intros r. apply fill_row_imputed.
      * apply Forall_map, List.Forall_forall. intros r _.
        apply fill_row_not_nan. intros i Hi.
        apply (existsb_nth_false _ _ s_zero) with (i := i) in Hm; [assumption |].
        subst m. now rewrite nanmean_axis0_length.
    + intros Hnan Hothers Hs.
      destruct (fill_values_slope DYNAMIC_BANDS STATIC_BANDS B sl m average_slope)
        as [Hfv Hfill]; try assumption; try reflexivity.
      { subst m. apply nanmean_axis0_length. }
      eexists. split; [| split; [| split]].
      * unfold fillna. fold m. rewrite Hfv. reflexivity.
      * apply Forall2_map_self. intros r. apply fill_row_imputed.
      * apply Forall_map, List.Forall_forall. intros r _.
        now apply fill_row_not_nan.
      * intros Hfs Hfm. apply Forall_map, List.Forall_forall. intros r _.
        apply fill_row_is_finite. intros i Hi.
        destruct (Nat.eq_dec i sl) as [-> | Hne].
        -- rewrite nth_lookup, list_lookup_insert_eq; [assumption |].
           subst m. rewrite nanmean_axis0_length.
           apply index_lt in Hsl. exact Hsl.
        -- rewrite nth_lookup, list_lookup_insert_ne by congruence.
           rewrite <- nth_lookup. now apply Hfm.
    + intros j Hj Hne Hnan. unfold fillna. fold m.
      rewrite (fill_values_other DYNAMIC_BANDS STATIC_BANDS B sl j m);
        try assumption; try reflexivity.
      subst m. apply nanmean_axis0_length.
  - intros N T d m Hm. eexists. split; [| split].
    + unfold fillna. fold m.
      rewrite (fill_values_all_means _ _ 2%nat B m) by (reflexivity || assumption).
      reflexivity.
    + apply Forall2_map_self. intros px.
      apply Forall2_map_self. intros r. apply fill_row_imputed.
    + apply Forall_map, List.Forall_forall. intros px _.
      apply Forall_map, List.Forall_forall. intros r _.
      apply fill_row_not_nan. intros i Hi.
      apply (existsb_nth_false _ _ s_zero) with (i := i) in Hm; [assumption |].
      subst m. now rewrite nanmean_axis0_length.
Qed.

(** The theorem on the small catalog (final band order B4, B8, slope, NDVI):
    the slope band is entirely NaN, the average slope is 3. *)
Lemma fillna_imputes_nan_witness :
  exists out,
    fillna demo_dynamic demo_static
      (Arr2 2 4 [[1; 2; nan; 0.5]; [3; 2; nan; 0.5]]%float) 3%float
    = Ok (Some (Arr2 2 4 out))
    /\ Forall2
         (imputed 4
            (<[2%nat := 3%float]>
               (nanmean_axis0 4 [[1; 2; nan; 0.5]; [3; 2; nan; 0.5]]%float)))
         [[1; 2; nan; 0.5]; [3; 2; nan; 0.5]]%float out
    /\ Forall (Forall (fun y => s_isnan y = false)) out
    /\ (is_finite 3%float = true ->
        (forall i, (i < 4)%nat -> i <> 2%nat ->
           is_finite
             (nth i (nanmean_axis0 4 [[1; 2; nan; 0.5]; [3; 2; nan; 0.5]]%float)
                s_zero) = true) ->
        Forall (Forall (fun y => is_finite y = true)) out).
Proof.
  destruct (fillna_imputes_nan demo_dynamic demo_static 3%float 2 eq_refl)
    as [Hrank2 _].
  pose proof (Hrank2 2%nat [[1; 2; nan; 0.5]; [3; 2; nan; 0.5]]%float) as Hd.
  cbv zeta in Hd. destruct Hd as (_ & _ & Hslope & _).
  apply Hslope.
  - reflexivity.
  - intros i Hi Hne. cbn in Hi.
    destruct i as [| [| [| [| i]]]]; try lia; reflexivity.
  - reflexivity.
Defined.

Example fillna_slope_scenario :
  fillna demo_dynamic demo_static
    (Arr2 2 4 [[1; 2; nan; 0.5]; [3; 2; nan; 0.5]]%float) 3%float
  = Ok (Some (Arr2 2 4 [[1; 2; 3; 0.5]; [3; 2; 3; 0.5]]%float)).
Proof. vm_compute. reflexivity. Qed.

(** C2 as stated fails, in three places.  An infinite entry is not replaced
    by the mean of its band's finite entries (here 2) but by the largest
    finite number.  For rank 3 the fill value is a mean of per-timestep
    means (here (1 + (3 + 5) / 2) / 2 = 2.5), not the mean of the band's
    non-NaN entries (here (1 + 3 + 5) / 3 = 3).  And with the slope band
    entirely NaN and a NaN average slope no array is returned: the
    assertion of line 239 fails. *)
Lemma fillna_not_as_stated :
  fillna demo_dynamic demo_static
    (Arr2 2 4 [[1; infinity; 5; 0.5]; [3; 2; 5; 0.5]]%float) 7%float
  = Ok (Some (Arr2 2 4 [[1; 0x1.fffffffffffffp+1023; 5; 0.5];
                        [3; 2; 5; 0.5]]%float))
  /\ fillna demo_dynamic demo_static
       (Arr3 2 2 4 [[[1; 1; 1; 1]; [3; 1; 1; 1]];
                    [[nan; 1; 1; 1]; [5; 1; 1; 1]]]%float) 7%float
     = Ok (Some (Arr3 2 2 4 [[[1; 1; 1; 1]; [3; 1; 1; 1]];
                             [[2.5; 1; 1; 1]; [5; 1; 1; 1]]]%float))
  /\ nanmean [1; 3; nan; 5]%float = 3%float
  /\ fillna demo_dynamic demo_static
       (Arr2 2 4 [[1; 2; nan; 0.5]; [3; 2; nan; 0.5]]%float) nan
     = Raise AssertionError.
Proof. vm_compute. repeat split; reflexivity. Qed.

(** For rank 3 the count of bands without a mean is compared with 2, the
    position of the band axis: an array whose slope band alone is entirely
    NaN gets no result, and one with the slope band and one more band
    entirely NaN fails the assertion of line 239. *)
Lemma fillna_rank3_slope_band :
  fillna demo_dynamic demo_static
    (Arr3 1 2 4 [[[1; 2; nan; 0.5]; [3; 2; nan; 0.5]]]%float) 3%float
  = Ok None
  /\ fillna demo_dynamic demo_static
       (Arr3 1 2 4 [[[1; nan; nan; 0.5]; [3; nan; nan; 0.5]]]%float) 3%float
     = Raise AssertionError.
Proof. vm_compute. split; reflexivity. Qed.

(** ** Nearest-coordinate snapping *)

#[export] Instance real_order : OrderLaws R.
Proof.
  split; simpl; unfold Rleb.
  - intros x _. destruct (Rle_dec x x); [reflexivity | lra].
  - intros x y _ _. destruct (Rle_dec x y), (Rle_dec y x);
      try reflexivity; try discriminate. lra.
  - intros x y z. destruct (Rle_dec x y), (Rle_dec y z), (Rle_dec x z);
      try reflexivity; try discriminate. lra.
  - reflexivity.
  - discriminate.
  - intros x y. unfold Rltb.
    destruct (Rle_dec x y), (Rlt_dec y x); try reflexivity; try discriminate.
    lra.
Qed.

Section ArgminFacts.
Context {F : Type} `{OrderLaws F}.

Lemma argmin_loop_spec (l : list F) (mp : F) (min_ind i : nat) :
  s_isnan mp = false -> Forall (fun x => s_isnan x = false) l ->
  let k := argmin_loop mp min_ind i l in
  (k = min_ind /\ Forall (fun x => s_leb mp x = true) l)
  \/ (exists j, k = (i + j)%nat /\ (j < length l)%nat
                /\ s_leb (nth j l s_zero) mp = true
                /\ Forall (fun x => s_leb (nth j l s_zero) x = true) l).
Proof.
  revert mp min_ind i.
  induction l as [| x r IH]; intros mp min_ind i Hmp Hl; cbv zeta; simpl.
  - left. split; [reflexivity | constructor].
  - inversion Hl as [| ? ? Hx Hr]; subst.
    destruct (s_leb mp x) eqn:Ele.
    + destruct (IH mp min_ind (S i) Hmp Hr) as [[Hk Hall] | (j & Hk & Hj & Hv & Hall)].
      * left. split; [assumption | now constructor].
      * right. exists (S j). repeat split.
        -- rewrite Hk. lia.
        -- lia.
        -- exact Hv.
        -- constructor; [| exact Hall].
           now apply (leb_trans _ mp).
    + rewrite Hx.
      pose proof (leb_total mp x Hmp Hx Ele) as Hxm.
      destruct (IH x i (S i) Hx Hr) as [[Hk Hall] | (j & Hk & Hj & Hv & Hall)].
      * right. exists 0%nat. repeat split.
        -- rewrite Hk. lia.
        -- lia.
        -- exact Hxm.
        -- constructor; [now apply leb_refl | exact Hall].
      * right. exists (S j). repeat split.
        -- rewrite Hk. lia.
        -- lia.
        -- now apply (leb_trans _ x).
        -- constructor; [exact Hv | exact Hall].
Qed.

(** on a non-empty vector without NaN, [argmin] is a position of a least
    entry *)
Lemma argmin_spec (l : list F) :
  l <> [] -> Forall (fun x => s_isnan x = false) l ->
  exists k, argmin l = Ok k /\ (k < length l)%nat
            /\ Forall (fun x => s_leb (nth k l s_zero) x = true) l.
Proof.
  intros Hne Hl. destruct l as [| x r]; [congruence |].
  inversion Hl as [| ? ? Hx Hr]; subst.
  unfold argmin. rewrite Hx. eexists. split; [reflexivity |].
  destruct (argmin_loop_spec r x 0%nat 1%nat Hx Hr)
    as [[-> Hall] | (j & -> & Hj & Hv & Hall)]; simpl.
  - split; [lia |]. constructor; [now apply leb_refl | exact Hall].
  - split; [lia |]. constructor; [exact Hv | exact Hall].
Qed.

Lemma find_nearest_spec (array : list F) (value : F) :
  array <> [] ->
  Forall (fun a => s_isnan (s_abs (s_sub a value)) = false) array ->
  exists r, find_nearest array value = Ok r /\ In r array
            /\ Forall (fun a => s_leb (s_abs (s_sub r value))
                                      (s_abs (s_sub a value)) = true) array.
Proof.
  intros Hne Hnan.
  destruct (argmin_spec (List.map (fun a => s_abs (s_sub a value)) array))
    as (k & Hk & Hlt & Hall).
  { destruct array; [congruence | discriminate]. }
  { now apply Forall_map. }
  rewrite length_map in Hlt.
  unfold find_nearest. rewrite Hk. simpl. eexists. split; [reflexivity |].
  split; [now apply nth_In |].
  apply Forall_map in Hall.
  rewrite (nth_indep _ s_zero (s_abs (s_sub s_zero value))) in Hall
    by now rewrite length_map.
  rewrite (map_nth (fun a => s_abs (s_sub a value))) in Hall. exact Hall.
Qed.

End ArgminFacts.

(** ** Test labels *)

Lemma broadcast2_same_length {A : Type} (op : A -> A -> A) (a b : list A) :
  length a = length b -> broadcast2 op a b = Ok (zip_with op a b).
Proof. intros E. unfold broadcast2. now rewrite E, Nat.eqb_refl. Qed.

Lemma concat_length_wf2 {A : Type} (h w : nat) (g : list (list A)) :
  wf2 h w g -> length (concat g) = (h * w)%nat.
Proof.
  intros [<- Hrows]. induction Hrows as [| r g Hr Hrows IH]; simpl;
    [reflexivity |]. rewrite length_app, IH, Hr. reflexivity.
Qed.

(** row-major flattening: pixel (r, c) of an h-by-w grid is entry r * w + c *)
Lemma concat_nth_wf2 {A : Type} (h w r c : nat) (g : list (list A)) (d : A) :
  wf2 h w g -> (r < h)%nat -> (c < w)%nat ->
  nth (r * w + c) (concat g) d = nth c (nth r g []) d.
Proof.
  intros [<- Hrows]. revert r.
  induction Hrows as [| x g Hx Hrows IH]; simpl; intros r Hr Hc; [lia |].
  destruct r as [| r]; simpl.
  - rewrite app_nth1 by lia. reflexivity.
  - rewrite app_nth2 by lia. rewrite Hx.
    replace (w + r * w + c - w)%nat with (r * w + c)%nat by lia.
    apply IH; lia.
Qed.

Lemma test_labels_eq (positive negative : list (list bool)) :
  length (concat positive) = length (concat negative) ->
  test_labels positive negative
  = Ok (zip_with (fun p n => label_of (negb p) (negb n))
          (concat positive) (concat negative)).
Proof.
  intros Hlen. unfold test_labels.
  rewrite broadcast2_same_length by now rewrite !length_map.
  simpl. f_equal. unfold assign_where. clear Hlen.
  generalize (concat positive) as P, (concat negative) as N.
  induction P as [| p P IH]; intros [| n N]; simpl; try reflexivity.
  f_equal; [destruct p, n; reflexivity | apply IH].
Qed.

(** C1, as the code has it: on the grid of the test raster, a pixel inside a
    positive geometry and inside no negative geometry is labeled 1, a pixel
    inside a negative geometry and inside no positive geometry is labeled 0,
    and a pixel inside neither or inside both is labeled the missing
    sentinel -1. *)
Theorem test_labels_by_pixel (h w : nat) (positive negative : list (list bool)) :
  wf2 h w positive -> wf2 h w negative ->
  exists y,
    test_labels positive negative = Ok y
    /\ length y = (h * w)%nat
    /\ forall r c, (r < h)%nat -> (c < w)%nat ->
         let in_positive := negb (nth c (nth r positive []) true) in
         let in_negative := negb (nth c (nth r negative []) true) in
         let label := nth (r * w + c) y MISSING_DATA in
         label = label_of in_positive in_negative
         /\ (in_positive = true -> in_negative = false -> label = 1)
         /\ (in_positive = false -> in_negative = true -> label = 0)
         /\ (in_positive = false -> in_negative = false -> label = -1)
         /\ (in_positive = true -> in_negative = true -> label = -1).
Proof.
  intros Hp Hn.
  pose proof (concat_length_wf2 h w positive Hp) as Lp.
  pose proof (concat_length_wf2 h w negative Hn) as Ln.
  eexists. split; [apply test_labels_eq; congruence |].
  split.
  - rewrite length_zip_with. lia.
  - intros r c Hr Hc. cbv zeta.
    assert (Hlab : nth (r * w + c)
                     (zip_with (fun p n => label_of (negb p) (negb n))
                        (concat positive) (concat negative)) MISSING_DATA
                   = label_of (negb (nth c (nth r positive []) true))
                              (negb (nth c (nth r negative []) true))).
    { rewrite <- (concat_nth_wf2 h w r c positive true Hp Hr Hc).
      rewrite <- (concat_nth_wf2 h w r c negative true Hn Hr Hc).
      assert (Hlt : (r * w + c < h * w)%nat) by nia.
      revert Lp Ln Hlt.
      generalize (r * w + c)%nat as k, (h * w)%nat as m.
      generalize (concat positive) as P, (concat negative) as N.
      induction P as [| p P IH]; intros [| n N] k m Lp Ln Hlt; simpl in *;
        try lia.
      destruct k as [| k]; [reflexivity |].
      apply (IH N k (pred m)); lia. }
    rewrite Hlab. split; [reflexivity |].
    repeat split; intros -> ->; reflexivity.
Qed.

(** The theorem on a 1-by-2 raster: the first pixel is in a positive
    geometry only, the second in a negative geometry only. *)
Lemma test_labels_by_pixel_witness :
  exists y,
    test_labels [[false; true]] [[true; false]] = Ok y
    /\ length y = (1 * 2)%nat
    /\ forall r c, (r < 1)%nat -> (c < 2)%nat ->
         let in_positive := negb (nth c (nth r [[false; true]] []) true) in
         let in_negative := negb (nth c (nth r [[true; false]] []) true) in
         let label := nth (r * 2 + c) y MISSING_DATA in
         label = label_of in_positive in_negative
         /\ (in_positive = true -> in_negative = false -> label = 1)
         /\ (in_positive = false -> in_negative = true -> label = 0)
         /\ (in_positive = false -> in_negative = false -> label = -1)
         /\ (in_positive = true -> in_negative = true -> label = -1).
Proof.
  apply (test_labels_by_pixel 1 2 [[false; true]] [[true; false]]).
  - split; [reflexivity | repeat constructor].
  - split; [reflexivity | repeat constructor].
Defined.

(** C1 as stated fails: a pixel inside a positive and inside a negative
    geometry (both masks false there) is labeled -1, not 1. *)
Lemma test_labels_overlap_is_missing :
  test_labels [[false]] [[false]] = Ok [MISSING_DATA]
  /\ MISSING_DATA = -1.
Proof. split; reflexivity. Qed.

Example test_labels_grid :
  test_labels [[false; false]; [true; true]] [[true; false]; [false; true]]
  = Ok [1; -1; 0; -1].
Proof. reflexivity. Qed.

(** ** The order of binary64 *)

Lemma SFleb_key (x y : spec_float) :
  x <> S754_nan -> y <> S754_nan ->
  (SFleb x y = true <-> key_le (sf_key x) (sf_key y)).
Proof.
  intros Hx Hy. unfold SFleb, SFcompare.
  destruct x as [sx | sx | | sx mx ex], y as [sy | sy | | sy my ey];
    try congruence; try destruct sx; try destruct sy; simpl;
    try (split; [intros _; lia | reflexivity]);
    try (split; [discriminate | lia]).
  - destruct (Z.compare_spec ex ey) as [E | E | E].
    + subst.
      change (PosDef.Pos.compare_cont Eq mx my) with (Pos.compare mx my).
      destruct (Pos.compare_spec mx my); simpl; split;
        try discriminate; try reflexivity; intros; lia.
    + split; [discriminate | lia].
    + split; [intros _; lia | reflexivity].
  - destruct (Z.compare_spec ex ey) as [E | E | E].
    + subst.
      change (PosDef.Pos.compare_cont Eq mx my) with (Pos.compare mx my).
      destruct (Pos.compare_spec mx my); simpl; split;
        try discriminate; try reflexivity; intros; lia.
    + split; [intros _; lia | reflexivity].
    + split; [discriminate | lia].
Qed.

Lemma is_nan_false (x : float) : is_nan x = false -> Prim2SF x <> S754_nan.
Proof.
  unfold is_nan. rewrite eqb_spec. intros Hn E. rewrite E in Hn. discriminate.
Qed.

Lemma SFleb_not_nan (x y : spec_float) :
  SFleb x y = true -> x <> S754_nan /\ y <> S754_nan.
Proof. unfold SFleb, SFcompare. destruct x, y; split; congruence. Qed.

Lemma SFltb_key (x y : spec_float) :
  SFltb x y = true -> ~ key_le (sf_key y) (sf_key x).
Proof.
  unfold SFltb, SFcompare.
  destruct x as [sx | sx | | sx mx ex], y as [sy | sy | | sy my ey];
    try discriminate; try destruct sx; try destruct sy; simpl;
    try discriminate; try (intros _; lia).
  - destruct (Z.compare_spec ex ey) as [E | E | E]; try discriminate.
    + subst.
      change (PosDef.Pos.compare_cont Eq mx my) with (Pos.compare mx my).
      destruct (Pos.compare_spec mx my); simpl; try discriminate.
      intros _. lia.
    + intros _. lia.
  - destruct (Z.compare_spec ex ey) as [E | E | E]; try discriminate.
    + subst.
      change (PosDef.Pos.compare_cont Eq mx my) with (Pos.compare mx my).
      destruct (Pos.compare_spec mx my); simpl; try discriminate.
      intros _. lia.
    + intros _. lia.
Qed.

Lemma SFcompare_refl (x : spec_float) :
  x <> S754_nan -> SFcompare x x = Some Eq.
Proof.
  destruct x as [s | s | | s m e]; try congruence; intros _;
    destruct s; simpl; try reflexivity;
    rewrite Z.compare_refl;
    change (PosDef.Pos.compare_cont Eq m m) with (Pos.compare m m);
    now rewrite Pos.compare_refl.
Qed.

Lemma is_nan_true (x : float) : is_nan x = true -> Prim2SF x = S754_nan.
Proof.
  unfold is_nan. rewrite eqb_spec. unfold SFeqb. intros Hn.
  destruct (Prim2SF x) as [s | s | | s m e] eqn:E; [| | reflexivity |];
    rewrite SFcompare_refl in Hn by discriminate; discriminate.
Qed.

Lemma is_nan_not (x : float) : Prim2SF x <> S754_nan -> is_nan x = false.
Proof.
  intros Hx. destruct (is_nan x) eqn:E; [| reflexivity].
  apply is_nan_true in E. congruence.
Qed.

#[export] Instance float_order : OrderLaws float.
Proof.
  split; simpl.
  - intros x Hx. apply is_nan_false in Hx. rewrite leb_spec.
    apply SFleb_key; try assumption.
    unfold key_le. destruct (sf_key (Prim2SF x)) as [[a b] c]. lia.
  - intros x y Hx Hy. apply is_nan_false in Hx, Hy. rewrite !leb_spec.
    intros Hle. apply SFleb_key; try assumption.
    assert (Hn : ~ key_le (sf_key (Prim2SF x)) (sf_key (Prim2SF y))).
    { intros Hk. apply SFleb_key in Hk; try assumption. congruence. }
    revert Hn. unfold key_le.
    destruct (sf_key (Prim2SF x)) as [[a b] c],
             (sf_key (Prim2SF y)) as [[a' b'] c'].
    lia.
  - intros x y z. rewrite !leb_spec. intros H1 H2.
    destruct (SFleb_not_nan _ _ H1) as [Hx Hy],
             (SFleb_not_nan _ _ H2) as [_ Hz].
    apply SFleb_key in H1, H2; try assumption.
    apply SFleb_key; try assumption.
    revert H1 H2. unfold key_le.
    destruct (sf_key (Prim2SF x)) as [[a b] c],
             (sf_key (Prim2SF y)) as [[a' b'] c'],
             (sf_key (Prim2SF z)) as [[a'' b''] c''].
    lia.
  - intros x y. rewrite leb_spec. intros Hle.
    apply is_nan_not. now apply SFleb_not_nan in Hle.
  - intros x y Hy. apply is_nan_true in Hy. rewrite ltb_spec, Hy.
    unfold SFltb, SFcompare. now destruct (Prim2SF x).
  - intros x y. rewrite leb_spec, ltb_spec. intros Hle.
    destruct (SFltb (Prim2SF y) (Prim2SF x)) eqn:Hlt; [| reflexivity].
    apply SFltb_key in Hlt. exfalso. apply Hlt.
    destruct (SFleb_not_nan _ _ Hle). now apply SFleb_key.
Qed.

(** one step of a computation that returned: the first action returned *)
Ltac step_bind H :=
  match type of H with
  | bind ?m _ = Ok _ =>
      let E := fresh "E" in
      let a := fresh "a" in
      destruct m as [a |] eqn:E; cbn [bind] in H; cbv beta iota in H;
      [| discriminate]
  end.

(** the coordinates a training instance records are the snapped ones, each
    from its own axis *)
Lemma process_single_file_snaps {F : Type} `{Scalar F}
    (DYNAMIC_BANDS STATIC_BANDS : list string)
    (NUM_TIMESTEPS DAYS_PER_TIMESTEP : Z)
    (load_tif : string -> Z -> result (DataArray F * F))
    (st st' : norm_interim F) (path_to_file : string) (row : label_row F)
    (instance : DataInstance F) :
  process_single_file DYNAMIC_BANDS STATIC_BANDS NUM_TIMESTEPS
    DAYS_PER_TIMESTEP load_tif st path_to_file row = Ok (st', Some instance) ->
  exists da average_slope,
    load_tif path_to_file
      (row_export_end_date row - NUM_TIMESTEPS * DAYS_PER_TIMESTEP)
    = Ok (da, average_slope)
    /\ find_nearest (da_x da) (row_lon row) = Ok (instance_lon instance)
    /\ find_nearest (da_y da) (row_lat row) = Ok (instance_lat instance)
    /\ label_lon instance = row_lon row
    /\ label_lat instance = row_lat row.
Proof.
  unfold process_single_file. intros Hrun.
  step_bind Hrun. destruct a as [da s]. exists da, s. split; [reflexivity |].
  step_bind Hrun. rename a into lon. step_bind Hrun. rename a into lat.
  destruct (da_sel da lon lat) as [[T B] d].
  do 3 step_bind Hrun.
  destruct a1 as [a3 |]; [| discriminate].
  destruct a3 as [T' B' d' | |]; try discriminate.
  step_bind Hrun.
  injection Hrun as _ <-. simpl. repeat split; reflexivity.
Qed.

Lemma argmin_loop_bound {F : Type} `{Scalar F} (l : list F) (mp : F)
    (min_ind i : nat) :
  (min_ind < i)%nat -> (argmin_loop mp min_ind i l < i + length l)%nat.
Proof.
  revert mp min_ind i. induction l as [| x r IH]; intros mp min_ind i Hlt;
    simpl; [lia |].
  destruct (s_leb mp x).
  - specialize (IH mp min_ind (S i)). lia.
  - destruct (s_isnan x); [lia |]. specialize (IH x i (S i)). lia.
Qed.

Lemma argmin_bound {F : Type} `{Scalar F} (l : list F) (k : nat) :
  argmin l = Ok k -> (k < length l)%nat.
Proof.
  destruct l as [| x r]; simpl; [discriminate |]. intros E.
  injection E as <-. destruct (s_isnan x); [lia |].
  pose proof (argmin_loop_bound r x 0%nat 1%nat). lia.
Qed.

(** whatever the entries, the value returned is an entry of the array *)
Lemma find_nearest_In {F : Type} `{Scalar F} (array : list F) (value r : F) :
  find_nearest array value = Ok r -> In r array.
Proof.
  unfold find_nearest. intros E. step_bind E. injection E as <-.
  apply argmin_bound in E0. rewrite length_map in E0. now apply nth_In.
Qed.

Lemma find_nearest_returns {F : Type} `{Scalar F} (array : list F) (value : F) :
  array <> [] -> exists r, find_nearest array value = Ok r.
Proof.
  intros Hne. destruct array as [| a array]; [congruence |].
  unfold find_nearest. simpl. eexists. reflexivity.
Qed.

(** with a NaN among the entries, the scan stops at a NaN *)
Lemma argmin_loop_nan {F : Type} `{OrderLaws F} (l : list F) (mp : F)
    (min_ind i : nat) :
  Forall (fun x => s_isnan x = false) l
  \/ (i <= argmin_loop mp min_ind i l)%nat
     /\ s_isnan (nth (argmin_loop mp min_ind i l - i) l s_zero) = true.
Proof.
  revert mp min_ind i. induction l as [| x r IH]; intros mp min_ind i.
  - left. constructor.
  - cbn [argmin_loop]. destruct (s_leb mp x) eqn:Ele.
    + pose proof (leb_not_nan _ _ Ele) as Hx.
      destruct (IH mp min_ind (S i)) as [Hr | [Hge Hnan]].
      * left. now constructor.
      * right. split; [lia |].
        replace (argmin_loop mp min_ind (S i) r - i)%nat
          with (S (argmin_loop mp min_ind (S i) r - S i)) by lia.
        exact Hnan.
    + destruct (s_isnan x) eqn:Hx.
      * right. split; [lia |]. rewrite Nat.sub_diag. exact Hx.
      * destruct (IH x i (S i)) as [Hr | [Hge Hnan]].
        -- left. now constructor.
        -- right. split; [lia |].
           replace (argmin_loop x i (S i) r - i)%nat
             with (S (argmin_loop x i (S i) r - S i)) by lia.
           exact Hnan.
Qed.

Lemma argmin_nan {F : Type} `{OrderLaws F} (l : list F) (k : nat) :
  argmin l = Ok k ->
  Forall (fun x => s_isnan x = false) l \/ s_isnan (nth k l s_zero) = true.
Proof.
  destruct l as [| x r]; [discriminate |]. cbn [argmin]. intros E.
  injection E as <-. destruct (s_isnan x) eqn:Hx; [right; exact Hx |].
  destruct (argmin_loop_nan r x 0%nat 1%nat) as [Hr | [Hge Hnan]].
  - left. now constructor.
  - right. cbv iota.
    replace (argmin_loop x 0 1 r) with (S (argmin_loop x 0 1 r - 1)) by lia.
    exact Hnan.
Qed.

(** C9: on a non-empty coordinate array snapping returns an entry of the
    array itself, and no entry of the array has a smaller absolute
    difference to the target; when no difference is NaN, the absolute
    difference of the returned entry is less than or equal to that of every
    entry.  The longitude and the latitude a training instance records are
    the snapped ones, each taken from its own axis. *)
Theorem find_nearest_snaps_to_grid {F : Type} `{OrderLaws F} :
  (forall (array : list F) (value : F),
     array <> [] ->
     exists r, find_nearest array value = Ok r /\ In r array
               /\ Forall (fun a => s_ltb (s_abs (s_sub a value))
                                         (s_abs (s_sub r value)) = false)
                    array
               /\ (Forall (fun a => s_isnan (s_abs (s_sub a value)) = false)
                     array ->
                   Forall (fun a => s_leb (s_abs (s_sub r value))
                                          (s_abs (s_sub a value)) = true)
                     array))
  /\ (forall DYNAMIC_BANDS STATIC_BANDS NUM_TIMESTEPS DAYS_PER_TIMESTEP
        load_tif st st' path_to_file (row : label_row F) instance,
     process_single_file DYNAMIC_BANDS STATIC_BANDS NUM_TIMESTEPS
       DAYS_PER_TIMESTEP load_tif st path_to_file row = Ok (st', Some instance) ->
     exists da average_slope,
       load_tif path_to_file
         (row_export_end_date row - NUM_TIMESTEPS * DAYS_PER_TIMESTEP)
       = Ok (da, average_slope)
       /\ find_nearest (da_x da) (row_lon row) = Ok (instance_lon instance)
       /\ find_nearest (da_y da) (row_lat row) = Ok (instance_lat instance)
       /\ In (instance_lon instance) (da_x da)
       /\ In (instance_lat instance) (da_y da)).
Proof.
  split.
  - intros array value Hne.
    destruct (find_nearest_returns array value Hne) as [r Hr].
    exists r. split; [assumption |]. split; [now apply find_nearest_In in Hr |].
    assert (Hmin : Forall (fun a => s_isnan (s_abs (s_sub a value)) = false)
                     array ->
                   Forall (fun a => s_leb (s_abs (s_sub r value))
                                          (s_abs (s_sub a value)) = true)
                     array).
    { intros Hnan.
      destruct (find_nearest_spec array value Hne Hnan) as (r' & Hr' & _ & Hmin).
      rewrite Hr in Hr'. injection Hr' as <-. exact Hmin. }
    split; [| exact Hmin].
    unfold find_nearest in Hr. step_bind Hr. injection Hr as <-.
    pose proof (argmin_bound _ _ E) as Hlt. rewrite length_map in Hlt.
    destruct (argmin_nan _ _ E) as [Hclean | Hnan].
    + apply Forall_map in Hclean. specialize (Hmin Hclean).
      eapply Forall_impl; [exact Hmin |]. intros x Hx. now apply leb_not_gt.
    + rewrite (nth_indep _ s_zero (s_abs (s_sub s_zero value))) in Hnan
        by now rewrite length_map.
      rewrite (map_nth (fun x => s_abs (s_sub x value))) in Hnan.
      apply List.Forall_forall. intros x _. now apply ltb_nan.
  - intros D S NT DPT load_tif st st' path row instance Hrun.
    destruct (process_single_file_snaps D S NT DPT load_tif st st' path row
                instance Hrun) as (da & s & Hload & Hlon & Hlat & _).
    exists da, s. repeat split; try assumption.
    + now apply find_nearest_In in Hlon.
    + now apply find_nearest_In in Hlat.
Qed.

(** The theorem at binary64: 2.75 snaps to the entry 2.5. *)
Lemma find_nearest_snaps_to_grid_witness :
  exists r, find_nearest [1; 2.5; 4]%float 2.75%float = Ok r
            /\ In r [1; 2.5; 4]%float
            /\ Forall (fun a => s_ltb (s_abs (s_sub a 2.75%float))
                                      (s_abs (s_sub r 2.75%float)) = false)
                 [1; 2.5; 4]%float
            /\ (Forall (fun a => s_isnan (s_abs (s_sub a 2.75%float)) = false)
                  [1; 2.5; 4]%float ->
                Forall (fun a => s_leb (s_abs (s_sub r 2.75%float))
                                       (s_abs (s_sub a 2.75%float)) = true)
                  [1; 2.5; 4]%float).
Proof.
  destruct (find_nearest_snaps_to_grid (F := float)) as [Hsnap _].
  apply Hsnap. discriminate.
Defined.

Example find_nearest_demo :
  find_nearest [1; 2.5; 4]%float 2.75%float = Ok 2.5%float
  /\ find_nearest [1; 3]%float 2%float = Ok 1%float
  /\ find_nearest ([] : list float) 2%float = Raise ValueError.
Proof. vm_compute. repeat split; reflexivity. Qed.

(** ** Vectors as tables *)

Lemma tab_length {A : Type} (B : nat) (f : nat -> A) : length (tab B f) = B.
Proof. unfold tab. now rewrite length_map, length_seq. Qed.

Lemma tab_nth {A : Type} (B j : nat) (f : nat -> A) (d : A) :
  (j < B)%nat -> nth j (tab B f) d = f j.
Proof. apply nth_map_seq. Qed.

Lemma tab_ext {A : Type} (B : nat) (f g : nat -> A) :
  (forall j, (j < B)%nat -> f j = g j) -> tab B f = tab B g.
Proof.
  intros Hfg. unfold tab. apply map_ext_in. intros j Hj.
  apply in_seq in Hj. apply Hfg. lia.
Qed.

Lemma tab_of_list {A : Type} (B : nat) (l : list A) (d : A) :
  length l = B -> l = tab B (fun j => nth j l d).
Proof.
  intros <-. apply (nth_ext _ _ d d).
  - now rewrite tab_length.
  - intros j Hj. now rewrite tab_nth.
Qed.

Lemma tab_map {A C : Type} (B : nat) (f : nat -> A) (h : A -> C) :
  List.map h (tab B f) = tab B (fun j => h (f j)).
Proof. unfold tab. apply map_map. Qed.

Lemma tab_zip_with {A C D : Type} (B : nat) (f : nat -> A) (g : nat -> C)
    (op : A -> C -> D) :
  zip_with op (tab B f) (tab B g) = tab B (fun j => op (f j) (g j)).
Proof. unfold tab. apply zip_with_map_same. Qed.

Lemma tab_repeat {A : Type} (B : nat) (z : A) : repeat z B = tab B (fun _ => z).
Proof.
  apply (nth_ext _ _ z z).
  - now rewrite repeat_length, tab_length.
  - intros j Hj. rewrite repeat_length in Hj. rewrite tab_nth by assumption.
    apply nth_repeat.
Qed.

Lemma broadcast2_tab {A : Type} (B : nat) (op : A -> A -> A) (f g : nat -> A) :
  broadcast2 op (tab B f) (tab B g) = Ok (tab B (fun j => op (f j) (g j))).
Proof.
  rewrite broadcast2_same_length by now rewrite !tab_length.
  now rewrite tab_zip_with.
Qed.

Lemma inplace_tab {A : Type} (B : nat) (op : A -> A -> A) (f g : nat -> A) :
  inplace op (tab B f) (tab B g) = Ok (tab B (fun j => op (f j) (g j))).
Proof.
  unfold inplace. rewrite broadcast2_tab. simpl.
  now rewrite !tab_length, Nat.eqb_refl.
Qed.

(** ** The online normalizer, band by band *)

Section WelfordFacts.
Context {F : Type} `{Scalar F}.

Lemma welford_step_tab (B : nat) (n : Z) (m q x : nat -> F) :
  welford_step (n, tab B m, tab B q) (tab B x)
  = Ok (n + 1,
        tab B (fun j => w_mean (welford1 (n, m j, q j) (x j))),
        tab B (fun j => w_M2 (welford1 (n, m j, q j) (x j)))).
Proof.
  unfold welford_step. rewrite broadcast2_tab. cbn [bind].
  rewrite tab_map, inplace_tab. cbn [bind].
  rewrite broadcast2_tab. cbn [bind].
  rewrite broadcast2_tab. cbn [bind].
  rewrite inplace_tab. cbn [bind].
  reflexivity.
Qed.

Lemma welford1_n (st : Z * F * F) (x : F) :
  w_n (welford1 st x) = w_n st + 1.
Proof. destruct st as [[n m] q]. reflexivity. Qed.

Lemma welford1_fold_n (xs : list F) (st : Z * F * F) :
  w_n (fold_left welford1 xs st) = w_n st + Z.of_nat (length xs).
Proof.
  revert st. induction xs as [| x xs IH]; intros st; simpl; [lia |].
  rewrite IH, welford1_n. lia.
Qed.

Lemma welford1_eta (st : Z * F * F) : st = (w_n st, w_mean st, w_M2 st).
Proof. destruct st as [[n m] q]. reflexivity. Qed.

(** folding well-shaped rows is folding every band on its own *)
Lemma welford_rows_tab (B : nat) (rows : list (list F)) (n : Z)
    (m q : nat -> F) :
  Forall (fun r => length r = B) rows ->
  welford_rows (n, tab B m, tab B q) rows
  = Ok (n + Z.of_nat (length rows),
        tab B (fun j => w_mean (fold_left welford1 (column j rows) (n, m j, q j))),
        tab B (fun j => w_M2 (fold_left welford1 (column j rows) (n, m j, q j)))).
Proof.
  intros Hrows. revert n m q.
  induction Hrows as [| r rows Hr Hrows IH]; intros n m q.
  - simpl. rewrite Z.add_0_r. reflexivity.
  - cbn [welford_rows]. rewrite (tab_of_list B r s_zero Hr) at 1.
    rewrite welford_step_tab. cbn [bind]. rewrite IH.
    f_equal. apply f_equal2; [apply f_equal2 |].
    + simpl length. lia.
    + apply tab_ext. intros j Hj. reflexivity.
    + apply tab_ext. intros j Hj. reflexivity.
Qed.

End WelfordFacts.

(** ** The online normalizer over the reals *)

Lemma Rsum_app (l k : list R) : Rsum (l ++ k) = (Rsum l + Rsum k)%R.
Proof.
  induction l as [| x l IH]; simpl; [lra |]. rewrite IH. lra.
Qed.

Lemma Rsum_perm (l k : list R) : Permutation l k -> Rsum l = Rsum k.
Proof.
  induction 1 as [| x l k Hp IH | x y l | l k m H1 IH1 H2 IH2]; simpl; lra.
Qed.

Lemma welford_inv_init : welford_inv (0, 0%R, 0%R) [].
Proof.
  unfold welford_inv, w_n, w_mean, w_M2. simpl.
  repeat split; try reflexivity; lra.
Qed.

Lemma welford_inv_step (st : Z * R * R) (xs : list R) (x : R) :
  welford_inv st xs -> welford_inv (welford1 st x) (xs ++ [x]).
Proof.
  destruct st as [[n m] q]. unfold welford_inv, w_n, w_mean, w_M2. simpl.
  intros (Hn & Hm & Hq & H0). subst n.
  rewrite length_app, map_app, !Rsum_app. simpl.
  assert (Hpos : IZR (Z.of_nat (length xs) + 1) <> 0%R).
  { apply not_0_IZR. lia. }
  assert (Hn1 : IZR (Z.of_nat (length xs) + 1)
                = (IZR (Z.of_nat (length xs)) + 1)%R) by apply plus_IZR.
  set (n := IZR (Z.of_nat (length xs))) in *.
  set (n1 := IZR (Z.of_nat (length xs) + 1)) in *.
  assert (Hm' : (n1 * (m + (x - m) / n1) = Rsum xs + x)%R).
  { transitivity (n1 * m + (x - m))%R; [field; assumption |].
    rewrite Hn1. lra. }
  repeat split.
  - lia.
  - rewrite Hm'. lra.
  - rewrite Hq.
    set (m' := (m + (x - m) / n1)%R) in *.
    assert (E2 : (x = n1 * m' - n * m)%R) by lra.
    rewrite Hn1 in *. clearbody m'. clear Hm' Hm Hq Hpos H0.
    subst x. ring.
  - intros E. destruct xs; discriminate.
Qed.

Lemma welford_inv_fold (xs done : list R) (st : Z * R * R) :
  welford_inv st done -> welford_inv (fold_left welford1 xs st) (done ++ xs).
Proof.
  revert done st. induction xs as [| x xs IH]; intros done st Hinv; simpl.
  - now rewrite app_nil_r.
  - replace (done ++ x :: xs) with ((done ++ [x]) ++ xs)
      by now rewrite <- app_assoc.
    apply IH. now apply welford_inv_step.
Qed.

Lemma welford_inv_unique (st st' : Z * R * R) (xs xs' : list R) :
  welford_inv st xs -> welford_inv st' xs' -> Permutation xs xs' -> st = st'.
Proof.
  destruct st as [[n m] q], st' as [[n' m'] q'].
  unfold welford_inv, w_n, w_mean, w_M2. simpl.
  intros (Hn & Hm & Hq & H0) (Hn' & Hm' & Hq' & H0') Hp.
  assert (En : n = n') by (rewrite Hn, Hn', (Permutation_length Hp); reflexivity).
  rewrite <- En in Hm', Hq'. clear Hn'. subst n'.
  assert (Em : m = m').
  { destruct xs as [| x xs].
    - apply Permutation_nil in Hp. subst xs'. rewrite H0, H0'; reflexivity.
    - assert (Hnz : IZR n <> 0%R) by (apply not_0_IZR; simpl in Hn; lia).
      rewrite (Rsum_perm _ _ Hp), <- Hm' in Hm.
      now apply Rmult_eq_reg_l in Hm. }
  subst m'.
  assert (Eq : q = q').
  { rewrite Hq, Hq'.
    now rewrite (Rsum_perm _ _ (Permutation_map (fun x => x * x)%R Hp)). }
  rewrite Eq. reflexivity.
Qed.

Lemma Rsum_sq_dev (m : R) (xs : list R) :
  Rsum (List.map (fun x => (x - m) * (x - m))%R xs)
  = (Rsum (List.map (fun x => x * x)%R xs) - 2 * m * Rsum xs
     + INR (length xs) * m * m)%R.
Proof.
  induction xs as [| x xs IH]; [simpl; lra |].
  cbn [List.map Rsum fold_right length]. fold (Rsum (List.map (fun x => (x - m) * (x - m))%R xs)).
  fold (Rsum (List.map (fun x => x * x)%R xs)). fold (Rsum xs).
  rewrite IH, S_INR. ring.
Qed.

(** one band, folded from the start: the sample mean and the sum of the
    squared deviations from it *)
Lemma welford1_closed (xs : list R) :
  let st := fold_left welford1 xs (0, 0%R, 0%R) in
  w_n st = Z.of_nat (length xs)
  /\ w_mean st = sample_mean xs
  /\ w_M2 st
     = Rsum (List.map (fun x => (x - sample_mean xs) * (x - sample_mean xs))%R xs).
Proof.
  cbv zeta.
  pose proof (welford_inv_fold xs [] _ welford_inv_init) as Hinv.
  simpl app in Hinv.
  destruct (fold_left welford1 xs (0, 0%R, 0%R)) as [[n m] q].
  unfold welford_inv, w_n, w_mean, w_M2 in *. simpl in *.
  destruct Hinv as (Hn & Hm & Hq & H0).
  assert (Em : m = sample_mean xs).
  { unfold sample_mean. destruct xs as [| x xs].
    - rewrite H0 by reflexivity. simpl. lra.
    - rewrite <- Hm, Hn, <- INR_IZR_INZ.
      assert (INR (length (x :: xs)) <> 0%R) by (apply not_0_INR; discriminate).
      field. assumption. }
  split; [assumption |]. split; [assumption |].
  rewrite Rsum_sq_dev, <- Em, Hq, <- Hm, Hn, <- INR_IZR_INZ. ring.
Qed.

Lemma column_length {F : Type} `{Scalar F} (j : nat) (rows : list (list F)) :
  length (column j rows) = length rows.
Proof. unfold column. apply length_map. Qed.

Lemma column_app {F : Type} `{Scalar F} (j : nat) (rows rows' : list (list F)) :
  column j (rows ++ rows') = column j rows ++ column j rows'.
Proof. unfold column. apply map_app. Qed.

(** the first update of a fresh normalizer, band by band *)
Lemma update_fresh {F : Type} `{Scalar F} (B : nat) (rows : list (list F)) :
  Forall (fun r => length r = B) rows ->
  update_normalizing_values norm_init B rows
  = Ok {| ni_n := Z.of_nat (length rows);
          ni_stats :=
            Some (tab B (fun j => w_mean (fold_left welford1 (column j rows)
                                            (0, s_zero, s_zero))),
                  tab B (fun j => w_M2 (fold_left welford1 (column j rows)
                                          (0, s_zero, s_zero)))) |}.
Proof.
  intros Hrows. unfold update_normalizing_values, norm_init. simpl.
  rewrite tab_repeat, welford_rows_tab by assumption. reflexivity.
Qed.

(** a later update, band by band *)
Lemma update_again {F : Type} `{Scalar F} (B : nat) (rows : list (list F))
    (n : Z) (mean M2 : list F) :
  length mean = B -> length M2 = B -> Forall (fun r => length r = B) rows ->
  update_normalizing_values {| ni_n := n; ni_stats := Some (mean, M2) |} B rows
  = Ok {| ni_n := n + Z.of_nat (length rows);
          ni_stats :=
            Some (tab B (fun j => w_mean (fold_left welford1 (column j rows)
                                  (n, nth j mean s_zero, nth j M2 s_zero))),
                  tab B (fun j => w_M2 (fold_left welford1 (column j rows)
                                  (n, nth j mean s_zero, nth j M2 s_zero)))) |}.
Proof.
  intros Hm Hq Hrows. unfold update_normalizing_values. simpl.
  rewrite (tab_of_list B mean s_zero Hm) at 1.
  rewrite (tab_of_list B M2 s_zero Hq) at 1.
  rewrite welford_rows_tab by assumption. reflexivity.
Qed.

(** folding in two calls is folding all the rows in one *)
Lemma update_app {F : Type} `{Scalar F} (B : nat) (rows rows' : list (list F)) :
  Forall (fun r => length r = B) rows -> Forall (fun r => length r = B) rows' ->
  (st <~ update_normalizing_values norm_init B rows ;;
   update_normalizing_values st B rows')
  = update_normalizing_values norm_init B (rows ++ rows').
Proof.
  intros Hr Hr'. rewrite update_fresh by assumption. cbn [bind].
  rewrite update_again by (assumption || apply tab_length).
  rewrite update_fresh by now apply Forall_app.
  rewrite length_app, Nat2Z.inj_add. f_equal. f_equal. f_equal. f_equal.
  - apply tab_ext. intros j Hj. rewrite !tab_nth by assumption.
    rewrite column_app, fold_left_app.
    set (st := fold_left welford1 (column j rows) (0, s_zero, s_zero)).
    assert (E : Z.of_nat (length rows) = w_n st).
    { unfold st. rewrite welford1_fold_n, column_length.
      unfold w_n. simpl. lia. }
    rewrite E, <- welford1_eta. reflexivity.
  - apply tab_ext. intros j Hj. rewrite !tab_nth by assumption.
    rewrite column_app, fold_left_app.
    set (st := fold_left welford1 (column j rows) (0, s_zero, s_zero)).
    assert (E : Z.of_nat (length rows) = w_n st).
    { unfold st. rewrite welford1_fold_n, column_length.
      unfold w_n. simpl. lia. }
    rewrite E, <- welford1_eta. reflexivity.
Qed.

(** C3, as the code has it: the read-out is None exactly when the keys
    "mean" and "M2" are absent, that is when no array has ever been folded
    in; after any update, whatever the number of rows folded so far, it is
    available and returns the running mean together with
    std = sqrt(M2 / (n - 1)); folding the rows of a well-shaped array into a
    fresh normalizer sets n to their number and makes the read-out
    available, so it is available upon the 2nd folded sample, and before. *)
Theorem calculate_normalizing_dict_availability {F : Type} `{Scalar F} :
  calculate_normalizing_dict (norm_init : norm_interim F) = None
  /\ (forall st : norm_interim F,
        calculate_normalizing_dict st = None <-> ni_stats st = None)
  /\ (forall (st st' : norm_interim F) B d,
        update_normalizing_values st B d = Ok st' ->
        exists mean M2,
          ni_stats st' = Some (mean, M2)
          /\ calculate_normalizing_dict st'
             = Some {| nd_mean := mean;
                       nd_std := List.map
                         (fun v => s_sqrt (s_div v (s_of_int (ni_n st' - 1))))
                         M2 |})
  /\ (forall B (rows : list (list F)),
        Forall (fun r => length r = B) rows ->
        exists st',
          update_normalizing_values norm_init B rows = Ok st'
          /\ ni_n st' = Z.of_nat (length rows)
          /\ calculate_normalizing_dict st' <> None).
Proof.
  split; [reflexivity |]. split; [| split].
  - intros st. unfold calculate_normalizing_dict.
    destruct (ni_stats st) as [[mean M2] |]; split; congruence.
  - intros st st' B d Hup. unfold update_normalizing_values in Hup.
    destruct (match ni_stats st with
              | Some stats => stats
              | None => (repeat s_zero B, repeat s_zero B)
              end) as [mean0 M20].
    step_bind Hup. destruct a as [[n mean] M2]. injection Hup as <-.
    exists mean, M2. split; [reflexivity |].
    unfold calculate_normalizing_dict. simpl. rewrite map_map. reflexivity.
  - intros B rows Hrows. rewrite update_fresh by assumption.
    eexists. split; [reflexivity |]. split; [reflexivity | discriminate].
Qed.

(** C3 as stated fails: after a single row has been folded in the read-out
    is available, with a NaN std; and after an update with no row at all it
    is available too. *)
Lemma readout_with_fewer_than_two_rows :
  (exists st,
     update_normalizing_values norm_init 1 [[5%float]] = Ok st
     /\ ni_n st = 1
     /\ calculate_normalizing_dict st
        = Some {| nd_mean := [5%float]; nd_std := [nan] |})
  /\ (exists st,
        update_normalizing_values norm_init 1 ([] : list (list float)) = Ok st
        /\ ni_n st = 0
        /\ calculate_normalizing_dict st
           = Some {| nd_mean := [0%float]; nd_std := [(-0)%float] |}).
Proof.
  split; eexists; (split; [vm_compute; reflexivity |]);
    split; vm_compute; reflexivity.
Qed.

(** ** Merging normalizing dicts, band by band *)

Section AdjustFacts.
Context {F : Type} `{Scalar F}.

Lemma all_present_present (ds : list (Z * ndict F)) :
  all_present (present ds) = Some ds.
Proof.
  induction ds as [| [c d] ds IH]; simpl; [reflexivity |]. now rewrite IH.
Qed.

Lemma all_present_None (dicts : list (Z * option (ndict F))) :
  In None (List.map snd dicts) -> all_present dicts = None.
Proof.
  induction dicts as [| [c [d |]] dicts IH]; simpl; intros Hin.
  - tauto.
  - destruct Hin as [Hin | Hin]; [discriminate |]. now rewrite IH.
  - reflexivity.
Qed.

Lemma py_sum_fold_tab (B : nat) (r : list (list F)) (acc : nat -> F) :
  Forall (fun w => length w = B) r ->
  fold_left (fun acc w => a <~ acc ;; broadcast2 s_add a w) r (Ok (tab B acc))
  = Ok (tab B (fun j => fold_left s_add (column j r) (acc j))).
Proof.
  intros Hr. revert acc. induction Hr as [| w r Hw Hr IH]; intros acc.
  - reflexivity.
  - cbn [fold_left bind]. rewrite (tab_of_list B w s_zero Hw) at 1.
    rewrite broadcast2_tab, IH. reflexivity.
Qed.

Lemma py_sum_tab (B : nat) (v : nat -> F) (r : list (list F)) :
  Forall (fun w => length w = B) r ->
  py_sum (tab B v) r = Ok (tab B (fun j => py_sum1 (v j) (column j r))).
Proof.
  intros Hr. unfold py_sum. rewrite tab_map. now apply py_sum_fold_tab.
Qed.

Lemma mean_term_tab (B : nat) (p : Z * ndict F) :
  length (nd_mean (snd p)) = B ->
  mean_term p
  = tab B (fun j => s_mul (nth j (nd_mean (snd p)) s_zero) (s_of_int (fst p))).
Proof.
  intros Hm. destruct p as [c d]. unfold mean_term. simpl in *.
  rewrite (tab_of_list B (nd_mean d) s_zero Hm) at 1. now rewrite tab_map.
Qed.

Lemma variance_term_tab (B : nat) (m : nat -> F) (p : Z * ndict F) :
  length (nd_mean (snd p)) = B -> length (nd_std (snd p)) = B ->
  variance_term (tab B m) p
  = Ok (tab B (fun j =>
          s_mul (s_add (s_mul (nth j (nd_std (snd p)) s_zero)
                              (nth j (nd_std (snd p)) s_zero))
                       (s_mul (s_sub (nth j (nd_mean (snd p)) s_zero) (m j))
                              (s_sub (nth j (nd_mean (snd p)) s_zero) (m j))))
                (s_of_int (fst p)))).
Proof.
  intros Hm Hs. destruct p as [c d]. unfold variance_term. simpl in *.
  rewrite (tab_of_list B (nd_mean d) s_zero Hm) at 1.
  rewrite broadcast2_tab. cbn [bind].
  rewrite (tab_of_list B (nd_std d) s_zero Hs) at 1.
  rewrite !tab_map, broadcast2_tab. cbn [bind]. rewrite tab_map.
  reflexivity.
Qed.

Lemma mapM_ok {A C : Type} (f : A -> result C) (g : A -> C) (l : list A) :
  (forall x, In x l -> f x = Ok (g x)) -> mapM f l = Ok (List.map g l).
Proof.
  induction l as [| x l IH]; intros Hf; simpl; [reflexivity |].
  rewrite (Hf x) by now left. cbn [bind].
  rewrite IH by (intros y Hy; apply Hf; now right). reflexivity.
Qed.

Lemma column_tabs {A : Type} (B j : nat) (f : A -> nat -> F) (l : list A) :
  (j < B)%nat ->
  column j (List.map (fun q => tab B (f q)) l) = List.map (fun q => f q j) l.
Proof.
  intros Hj. unfold column. rewrite map_map. apply map_ext. intros q.
  now apply tab_nth.
Qed.

Lemma total_count_band_stats (j : nat) (ds : list (Z * ndict F)) :
  total_count (band_stats j ds) = total_count ds.
Proof.
  unfold total_count, band_stats. rewrite map_map. reflexivity.
Qed.

(** the merge of well-shaped dicts, band by band *)
Lemma adjust_normalizing_dict_tab (B : nat) (p : Z * ndict F)
    (ps : list (Z * ndict F)) :
  wf_dicts B (p :: ps) ->
  adjust_normalizing_dict (present (p :: ps))
  = Ok (Some
      {| nd_mean :=
           tab B (fun j => merged_mean1 (band_stat j p) (band_stats j ps));
         nd_std :=
           tab B (fun j =>
             s_sqrt (merged_variance1
                       (merged_mean1 (band_stat j p) (band_stats j ps))
                       (band_stat j p) (band_stats j ps))) |}).
Proof.
  intros Hwf. unfold wf_dicts in Hwf.
  destruct (Forall_inv Hwf) as [Hm Hs].
  pose proof (Forall_inv_tail Hwf) as Hps. clear Hwf.
  assert (Hterms : List.map mean_term ps
                   = List.map (fun q => tab B (fun j =>
                       s_mul (nth j (nd_mean (snd q)) s_zero)
                             (s_of_int (fst q)))) ps).
  { apply map_ext_in. intros q Hq. rewrite List.Forall_forall in Hps.
    destruct (Hps q Hq) as [Hqm _]. now apply mean_term_tab. }
  unfold adjust_normalizing_dict. rewrite all_present_present.
  rewrite (mean_term_tab B p Hm), Hterms.
  rewrite py_sum_tab.
  2:{ apply Forall_map, List.Forall_forall. intros q _. apply tab_length. }
  cbn [bind]. rewrite tab_map.
  rewrite (variance_term_tab B _ p Hm Hs). cbn [bind].
  erewrite mapM_ok.
  2:{ intros q Hq. rewrite List.Forall_forall in Hps.
      destruct (Hps q Hq) as [Hqm Hqs].
      apply (variance_term_tab B _ q Hqm Hqs). }
  cbn [bind]. rewrite py_sum_tab.
  2:{ apply Forall_map, List.Forall_forall. intros q _. apply tab_length. }
  cbn [bind]. rewrite tab_map, tab_map.
  f_equal. f_equal. f_equal.
  - apply tab_ext. intros j Hj. rewrite column_tabs by assumption.
    unfold merged_mean1.
    change (band_stat j p :: band_stats j ps) with (band_stats j (p :: ps)).
    rewrite total_count_band_stats. unfold band_stats, total_count.
    rewrite !map_map. reflexivity.
  - apply tab_ext. intros j Hj. rewrite !column_tabs by assumption.
    unfold merged_variance1, merged_mean1.
    change (band_stat j p :: band_stats j ps) with (band_stats j (p :: ps)).
    rewrite total_count_band_stats. unfold band_stats, total_count.
    rewrite !map_map. reflexivity.
Qed.

End AdjustFacts.

(** ** Merging over the reals *)

Lemma fold_left_Rplus (l : list R) (a : R) :
  fold_left Rplus l a = (a + Rsum l)%R.
Proof.
  revert a. induction l as [| x l IH]; intros a; simpl; [lra |].
  rewrite IH. lra.
Qed.

Lemma py_sum1_R (x : R) (r : list R) : py_sum1 x r = (x + Rsum r)%R.
Proof. unfold py_sum1. simpl. rewrite fold_left_Rplus. lra. Qed.

Lemma fold_left_Zadd (l : list Z) (a : Z) :
  fold_left Z.add l a = a + fold_right Z.add 0 l.
Proof.
  revert a. induction l as [| x l IH]; intros a; simpl; [lia |].
  rewrite IH. lia.
Qed.

Lemma total_count_fold_right {A : Type} (cs : list (Z * A)) :
  total_count cs = fold_right Z.add 0 (List.map fst cs).
Proof. unfold total_count. rewrite fold_left_Zadd. lia. Qed.

(** line 171 computes the count-weighted average of the means *)
Lemma merged_mean1_R (p : Z * (R * R)) (ps : list (Z * (R * R))) :
  merged_mean1 p ps
  = weighted_average (List.map (fun q => (fst q, fst (snd q))) (p :: ps)).
Proof.
  unfold merged_mean1, weighted_average.
  rewrite py_sum1_R, total_count_fold_right, !map_map. simpl.
  f_equal. f_equal; [lra |].
  f_equal. apply map_ext. intros q. lra.
Qed.

(** lines 173-181 compute the count-weighted average of
    std^2 + (mean - new_mean)^2 *)
Lemma merged_variance1_R (m : R) (p : Z * (R * R)) (ps : list (Z * (R * R))) :
  merged_variance1 m p ps = weighted_variance m (p :: ps).
Proof.
  unfold merged_variance1, weighted_variance, weighted_average.
  rewrite py_sum1_R, total_count_fold_right, !map_map. simpl.
  f_equal. f_equal; [lra |].
  f_equal. apply map_ext. intros q. simpl. lra.
Qed.

Lemma Rsum_nonneg (l : list R) : Forall (fun x => 0 <= x)%R l -> (0 <= Rsum l)%R.
Proof. induction 1; unfold Rsum in *; simpl in *; lra. Qed.

Lemma sum_of_squares_nonneg (a b : R) : (0 <= a * a + b * b)%R.
Proof.
  pose proof (Rle_0_sqr a). pose proof (Rle_0_sqr b). unfold Rsqr in *. lra.
Qed.

Lemma weighted_variance_nonneg (m : R) (cms : list (Z * (R * R))) :
  Forall (fun q => 0 <= fst q) cms -> 0 < total_count cms ->
  (0 <= weighted_variance m cms)%R.
Proof.
  intros Hc Ht. unfold weighted_variance, weighted_average.
  rewrite map_map. simpl. rewrite map_map. simpl.
  rewrite total_count_fold_right in Ht.
  apply Rmult_le_pos.
  - apply Rsum_nonneg. apply Forall_map. eapply Forall_impl; [exact Hc |].
    intros [c [mu sd]] Hq. simpl in *.
    apply Rmult_le_pos; [apply IZR_le; assumption |].
    apply sum_of_squares_nonneg.
  - left. apply Rinv_0_lt_compat. apply IZR_lt. assumption.
Qed.

(** C4, over the reals: the merge is None as soon as one stats entry is
    None; on a non-empty sequence of pairs whose vectors have one length it
    returns, band by band, the count-weighted average of the means, and as
    std the square root of the count-weighted average of
    std_i^2 + (mean_i - merged mean)^2, which is the square of the returned
    std when the counts are not negative and not all zero; merging count
    100, mean [1] with count 50, mean [2], both of std [0], gives the mean
    [4/3]. *)
Theorem adjust_normalizing_dict_weighted_average :
  (forall dicts : list (Z * option (ndict R)),
     In None (List.map snd dicts) -> adjust_normalizing_dict dicts = Ok None)
  /\ (forall B (p : Z * ndict R) (ps : list (Z * ndict R)),
        wf_dicts B (p :: ps) ->
        exists r,
          adjust_normalizing_dict (present (p :: ps)) = Ok (Some r)
          /\ length (nd_mean r) = B /\ length (nd_std r) = B
          /\ forall j, (j < B)%nat ->
               let merged_mean := nth j (nd_mean r) 0%R in
               let merged_std := nth j (nd_std r) 0%R in
               let stats := band_stats j (p :: ps) in
               merged_mean
               = weighted_average
                   (List.map (fun q => (fst q, fst (snd q))) stats)
               /\ merged_std = R_sqrt.sqrt (weighted_variance merged_mean stats)
               /\ (Forall (fun q => 0 <= fst q) (p :: ps) ->
                   0 < total_count (p :: ps) ->
                   (merged_std * merged_std
                    = weighted_variance merged_mean stats)%R))
  /\ (exists r,
        adjust_normalizing_dict
          [(100, Some {| nd_mean := [1%R]; nd_std := [0%R] |});
           (50, Some {| nd_mean := [2%R]; nd_std := [0%R] |})] = Ok (Some r)
        /\ nd_mean r = [(4 / 3)%R]).
Proof.
  split; [| split].
  - intros dicts Hnone. unfold adjust_normalizing_dict.
    now rewrite all_present_None.
  - intros B p ps Hwf. eexists.
    split; [apply adjust_normalizing_dict_tab; exact Hwf |].
    cbn [nd_mean nd_std]. rewrite !tab_length.
    split; [reflexivity |]. split; [reflexivity |].
    intros j Hj. cbv zeta.
    rewrite (tab_nth B j _ 0%R Hj), (tab_nth B j _ 0%R Hj).
    rewrite merged_mean1_R, merged_variance1_R.
    change (band_stat j p :: band_stats j ps) with (band_stats j (p :: ps)).
    change (@s_sqrt R real_scalar) with R_sqrt.sqrt.
    split; [reflexivity |]. split; [reflexivity |].
    intros Hc Ht. apply sqrt_sqrt. apply weighted_variance_nonneg.
    + unfold band_stats. apply Forall_map. exact Hc.
    + now rewrite total_count_band_stats.
  - eexists. split.
    + apply (adjust_normalizing_dict_tab 1
               (100, {| nd_mean := [1%R]; nd_std := [0%R] |})
               [(50, {| nd_mean := [2%R]; nd_std := [0%R] |})]).
      repeat constructor.
    + cbn [nd_mean]. unfold tab. cbn [seq List.map]. f_equal.
      rewrite merged_mean1_R. unfold weighted_average, band_stats, band_stat.
      simpl. change (100 + (50 + 0)) with 150. lra.
Qed.


(** the same merge at binary64: the mean is the double nearest to 4/3 *)
Example adjust_normalizing_dict_resumed_run :
  exists std,
    adjust_normalizing_dict
      [(100, Some {| nd_mean := [1%float]; nd_std := [0%float] |});
       (50, Some {| nd_mean := [2%float]; nd_std := [0%float] |})]
    = Ok (Some {| nd_mean := [0x1.5555555555555p+0%float]; nd_std := [std] |}).
Proof. eexists. vm_compute. reflexivity. Qed.

(** ** Order of folding, and merging against folding, over the reals *)

Lemma column_perm {F : Type} `{Scalar F} (j : nat) (rows rows' : list (list F)) :
  Permutation rows rows' -> Permutation (column j rows) (column j rows').
Proof. unfold column. apply Permutation_map. Qed.

(** the state after folding rows into a fresh normalizer does not depend on
    their order *)
Lemma update_perm (B : nat) (rows rows' : list (list R)) :
  Forall (fun r => length r = B) rows -> Permutation rows rows' ->
  update_normalizing_values norm_init B rows
  = update_normalizing_values norm_init B rows'.
Proof.
  intros Hrows Hp.
  assert (Hrows' : Forall (fun r => length r = B) rows')
    by (eapply Permutation_Forall; eassumption).
  rewrite !update_fresh by assumption.
  rewrite (Permutation_length Hp).
  assert (E : forall j,
             fold_left welford1 (column j rows) (0, s_zero, s_zero)
             = fold_left welford1 (column j rows') (0, s_zero, s_zero)).
  { intros j.
    apply (welford_inv_unique _ _ (column j rows) (column j rows')).
    - apply (welford_inv_fold _ [] _ welford_inv_init).
    - apply (welford_inv_fold _ [] _ welford_inv_init).
    - now apply column_perm. }
  f_equal. f_equal. f_equal. f_equal.
  - apply tab_ext. intros j _. now rewrite E.
  - apply tab_ext. intros j _. now rewrite E.
Qed.

(** what a fresh normalizer reads out after folding: per band, the sample
    mean and the square root of the sample variance (divisor n - 1) *)
Lemma readout_closed (B : nat) (rows : list (list R)) :
  Forall (fun r => length r = B) rows ->
  exists st,
    update_normalizing_values norm_init B rows = Ok st
    /\ ni_n st = Z.of_nat (length rows)
    /\ calculate_normalizing_dict st
       = Some {| nd_mean := tab B (fun j => sample_mean (column j rows));
                 nd_std := tab B (fun j =>
                             R_sqrt.sqrt (sample_variance (column j rows))) |}.
Proof.
  intros Hrows. rewrite update_fresh by assumption.
  eexists. split; [reflexivity |]. split; [reflexivity |].
  unfold calculate_normalizing_dict. cbn [ni_stats ni_n].
  rewrite map_map, tab_map. f_equal. f_equal.
  - apply tab_ext. intros j _.
    destruct (welford1_closed (column j rows)) as (_ & Hm & _). exact Hm.
  - apply tab_ext. intros j _.
    destruct (welford1_closed (column j rows)) as (_ & _ & Hq).
    change (@s_zero R real_scalar) with 0%R.
    rewrite Hq. unfold sample_variance. simpl s_sqrt. f_equal.
    simpl. f_equal. f_equal.
    rewrite column_length, minus_IZR, <- INR_IZR_INZ. reflexivity.
Qed.

(** the count-weighted average of two sample means is the sample mean of
    the two samples together *)
Lemma weighted_average_of_sample_means (xs ys : list R) :
  xs <> [] -> ys <> [] ->
  weighted_average [(Z.of_nat (length xs), sample_mean xs);
                    (Z.of_nat (length ys), sample_mean ys)]
  = sample_mean (xs ++ ys).
Proof.
  intros Hx Hy. unfold weighted_average, sample_mean. simpl.
  rewrite Rsum_app, length_app, plus_INR, !plus_IZR, <- !INR_IZR_INZ.
  assert (INR (length xs) <> 0%R) by (apply not_0_INR; destruct xs; simpl; congruence).
  assert (INR (length ys) <> 0%R) by (apply not_0_INR; destruct ys; simpl; congruence).
  assert (0 < INR (length xs))%R by (apply lt_0_INR; destruct xs; simpl; [congruence | lia]).
  assert (0 < INR (length ys))%R by (apply lt_0_INR; destruct ys; simpl; [congruence | lia]).
  simpl IZR. field. repeat split; lra.
Qed.

Lemma Zsum_perm (l k : list Z) :
  Permutation l k -> fold_right Z.add 0 l = fold_right Z.add 0 k.
Proof.
  induction 1 as [| x l k Hp IH | x y l | l k m H1 IH1 H2 IH2]; simpl; lia.
Qed.

Lemma weighted_average_perm (l k : list (Z * R)) :
  Permutation l k -> weighted_average l = weighted_average k.
Proof.
  intros Hp. unfold weighted_average.
  rewrite (Rsum_perm _ _ (Permutation_map _ Hp)).
  rewrite (Zsum_perm _ _ (Permutation_map fst Hp)). reflexivity.
Qed.

Lemma weighted_variance_perm (m : R) (l k : list (Z * (R * R))) :
  Permutation l k -> weighted_variance m l = weighted_variance m k.
Proof.
  intros Hp. unfold weighted_variance.
  apply weighted_average_perm. now apply Permutation_map.
Qed.

(** the merge over the reals, band by band, in the words of the
    specification *)
Lemma adjust_normalizing_dict_closed (B : nat) (ds : list (Z * ndict R)) :
  ds <> [] -> wf_dicts B ds ->
  adjust_normalizing_dict (present ds)
  = Ok (Some
      {| nd_mean :=
           tab B (fun j => weighted_average
                    (List.map (fun q => (fst q, fst (snd q))) (band_stats j ds)));
         nd_std :=
           tab B (fun j => R_sqrt.sqrt
                    (weighted_variance
                       (weighted_average
                          (List.map (fun q => (fst q, fst (snd q)))
                                    (band_stats j ds)))
                       (band_stats j ds))) |}).
Proof.
  intros Hne Hwf. destruct ds as [| p ps]; [congruence |].
  rewrite (adjust_normalizing_dict_tab B p ps Hwf).
  f_equal. f_equal. f_equal.
  - apply tab_ext. intros j _. apply merged_mean1_R.
  - apply tab_ext. intros j _.
    rewrite merged_mean1_R, merged_variance1_R. reflexivity.
Qed.

(** the merge does not depend on the order of the pairs *)
Lemma adjust_perm (B : nat) (ds ds' : list (Z * ndict R)) :
  ds <> [] -> wf_dicts B ds -> Permutation ds ds' ->
  adjust_normalizing_dict (present ds) = adjust_normalizing_dict (present ds').
Proof.
  intros Hne Hwf Hp.
  assert (Hne' : ds' <> []).
  { intros ->. apply Permutation_sym, Permutation_nil in Hp. congruence. }
  assert (Hwf' : wf_dicts B ds')
    by (unfold wf_dicts in *; eapply Permutation_Forall; eassumption).
  rewrite !(adjust_normalizing_dict_closed B) by assumption.
  assert (Hb : forall j, Permutation (band_stats j ds) (band_stats j ds'))
    by (intros j; unfold band_stats; now apply Permutation_map).
  assert (Em : forall j,
             weighted_average
               (List.map (fun q => (fst q, fst (snd q))) (band_stats j ds))
             = weighted_average
                 (List.map (fun q => (fst q, fst (snd q))) (band_stats j ds'))).
  { intros j. apply weighted_average_perm. apply Permutation_map, Hb. }
  f_equal. f_equal. f_equal.
  - apply tab_ext. intros j _. apply Em.
  - apply tab_ext. intros j _. rewrite Em.
    now rewrite (weighted_variance_perm _ _ _ (Hb j)).
Qed.

Lemma weighted_average_assoc (ca cb cc : Z) (ma mb mc : R) :
  0 < ca -> 0 < cb ->
  weighted_average [(ca + cb, weighted_average [(ca, ma); (cb, mb)]); (cc, mc)]
  = weighted_average [(ca, ma); (cb, mb); (cc, mc)].
Proof.
  intros Ha Hb. unfold weighted_average. simpl.
  apply IZR_lt in Ha, Hb.
  replace (ca + cb + (cc + 0)) with (ca + (cb + (cc + 0))) by lia.
  f_equal. rewrite !plus_IZR. field. lra.
Qed.

Lemma weighted_variance_assoc (ca cb cc : Z) (ma mb mc sa sb sc m : R) :
  0 < ca -> 0 < cb ->
  weighted_variance m
    [(ca + cb,
      (weighted_average [(ca, ma); (cb, mb)],
       R_sqrt.sqrt (weighted_variance (weighted_average [(ca, ma); (cb, mb)])
                      [(ca, (ma, sa)); (cb, (mb, sb))])));
     (cc, (mc, sc))]
  = weighted_variance m [(ca, (ma, sa)); (cb, (mb, sb)); (cc, (mc, sc))].
Proof.
  intros Ha Hb.
  assert (Hnn : (0 <= weighted_variance (weighted_average [(ca, ma); (cb, mb)])
                        [(ca, (ma, sa)); (cb, (mb, sb))])%R).
  { apply weighted_variance_nonneg.
    - repeat constructor; simpl; lia.
    - unfold total_count. simpl. lia. }
  unfold weighted_variance at 1. unfold weighted_average at 1.
  cbn [List.map fst snd Rsum fold_right].
  rewrite (sqrt_sqrt _ Hnn).
  unfold weighted_variance, weighted_average. simpl.
  apply IZR_lt in Ha, Hb.
  replace (ca + cb + (cc + 0)) with (ca + (cb + (cc + 0))) by lia.
  f_equal. rewrite !plus_IZR. field. lra.
Qed.

(** merging a merge: the merge of a and b, counted with both counts, then
    merged with c, is the merge of a, b and c *)
Lemma adjust_assoc_left (B : nat) (a b c : Z * ndict R) :
  wf_dicts B [a; b; c] -> 0 < fst a -> 0 < fst b -> 0 < fst c ->
  exists dab,
    adjust_normalizing_dict (present [a; b]) = Ok (Some dab)
    /\ wf_dicts B [(fst a + fst b, dab)]
    /\ adjust_normalizing_dict (present [(fst a + fst b, dab); c])
       = adjust_normalizing_dict (present [a; b; c]).
Proof.
  intros Hwf Ha Hb Hc.
  assert (Hwab : wf_dicts B [a; b]).
  { unfold wf_dicts in *.
    constructor; [exact (Forall_inv Hwf) |].
    constructor; [exact (Forall_inv (Forall_inv_tail Hwf)) | constructor]. }
  assert (Hwc : wf_dicts B [c]).
  { unfold wf_dicts in *. exact (Forall_inv_tail (Forall_inv_tail Hwf)). }
  eexists. split; [apply (adjust_normalizing_dict_closed B); [discriminate | exact Hwab] |].
  assert (Hwd : forall d, d = {| nd_mean := tab B (fun j => weighted_average
                    (List.map (fun q => (fst q, fst (snd q))) (band_stats j [a; b])));
         nd_std :=
           tab B (fun j => R_sqrt.sqrt
                    (weighted_variance
                       (weighted_average
                          (List.map (fun q => (fst q, fst (snd q)))
                                    (band_stats j [a; b])))
                       (band_stats j [a; b]))) |} ->
          wf_dicts B [(fst a + fst b, d)]).
  { intros d ->. constructor; [| constructor]. simpl.
    split; apply tab_length. }
  split; [now apply Hwd |].
  rewrite !(adjust_normalizing_dict_closed B); try discriminate; try assumption.
  2:{ constructor; [| exact Hwc]. exact (Forall_inv (Hwd _ eq_refl)). }
  assert (Hab : forall j, (j < B)%nat ->
            band_stats j [(fst a + fst b,
               {| nd_mean := tab B (fun j => weighted_average
                    (List.map (fun q => (fst q, fst (snd q))) (band_stats j [a; b])));
                  nd_std := tab B (fun j => R_sqrt.sqrt
                    (weighted_variance
                       (weighted_average
                          (List.map (fun q => (fst q, fst (snd q)))
                                    (band_stats j [a; b])))
                       (band_stats j [a; b]))) |}); c]
            = [(fst a + fst b,
                (weighted_average
                   (List.map (fun q => (fst q, fst (snd q))) (band_stats j [a; b])),
                 R_sqrt.sqrt
                    (weighted_variance
                       (weighted_average
                          (List.map (fun q => (fst q, fst (snd q)))
                                    (band_stats j [a; b])))
                       (band_stats j [a; b]))));
               band_stat j c]).
  { intros j Hj. unfold band_stats at 1. cbn [List.map].
    unfold band_stat at 1. cbn [fst snd nd_mean nd_std].
    change (@s_zero R real_scalar) with 0%R.
    now rewrite !(tab_nth B j _ 0%R Hj). }
  assert (Em : forall j, (j < B)%nat ->
            weighted_average
              (List.map (fun q => (fst q, fst (snd q)))
                 [(fst a + fst b,
                   (weighted_average
                      (List.map (fun q => (fst q, fst (snd q)))
                                (band_stats j [a; b])),
                    R_sqrt.sqrt
                      (weighted_variance
                         (weighted_average
                            (List.map (fun q => (fst q, fst (snd q)))
                                      (band_stats j [a; b])))
                         (band_stats j [a; b]))));
                  band_stat j c])
            = weighted_average
                (List.map (fun q => (fst q, fst (snd q)))
                          (band_stats j [a; b; c]))).
  { intros j Hj. unfold band_stats. cbn [List.map fst snd].
    now apply weighted_average_assoc. }
  f_equal. f_equal. f_equal.
  - apply tab_ext. intros j Hj. rewrite (Hab j Hj). now apply Em.
  - apply tab_ext. intros j Hj. rewrite (Hab j Hj), (Em j Hj). f_equal.
    unfold band_stats. cbn [List.map].
    destruct (band_stat j a) as [ca [ma sa]] eqn:Ea,
             (band_stat j b) as [cb [mb sb]] eqn:Eb,
             (band_stat j c) as [cc [mc sc]] eqn:Ec.
    assert (Hca : fst a = ca) by (unfold band_stat in Ea; congruence).
    assert (Hcb : fst b = cb) by (unfold band_stat in Eb; congruence).
    rewrite Hca in *. rewrite Hcb in *.
    cbn [fst snd]. apply weighted_variance_assoc; assumption.
Qed.

Lemma adjust_assoc (B : nat) (a b c : Z * ndict R) :
  wf_dicts B [a; b; c] -> 0 < fst a -> 0 < fst b -> 0 < fst c ->
  exists dab dbc,
    adjust_normalizing_dict (present [a; b]) = Ok (Some dab)
    /\ adjust_normalizing_dict (present [b; c]) = Ok (Some dbc)
    /\ adjust_normalizing_dict (present [(fst a + fst b, dab); c])
       = adjust_normalizing_dict (present [a; (fst b + fst c, dbc)])
    /\ adjust_normalizing_dict (present [(fst a + fst b, dab); c])
       = adjust_normalizing_dict (present [a; b; c]).
Proof.
  intros Hwf Ha Hb Hc.
  destruct (adjust_assoc_left B a b c Hwf Ha Hb Hc) as (dab & Hab & _ & Hl).
  assert (Hwf' : wf_dicts B [b; c; a]).
  { unfold wf_dicts in *.
    eapply Permutation_Forall; [| exact Hwf].
    apply (Permutation_cons_append [b; c] a). }
  destruct (adjust_assoc_left B b c a Hwf' Hb Hc Ha) as (dbc & Hbc & Hwd & Hr).
  exists dab, dbc. split; [assumption |]. split; [assumption |].
  split; [| assumption].
  rewrite Hl.
  assert (Hwa : wf_dicts B [a]).
  { unfold wf_dicts in *. constructor; [exact (Forall_inv Hwf) | constructor]. }
  rewrite (adjust_perm B [a; (fst b + fst c, dbc)] [(fst b + fst c, dbc); a]).
  - rewrite Hr. apply (adjust_perm B); [discriminate | assumption |].
    apply (Permutation_cons_append [b; c] a).
  - discriminate.
  - unfold wf_dicts in *.
    constructor; [exact (Forall_inv Hwa) | exact Hwd].
  - apply perm_swap.
Qed.

(** C5, as the code has it, over the reals.  Folding the rows into a fresh
    normalizer in any order gives the same state, hence the same mean and
    std, and folding them in several calls is folding them in one.  Merging
    the read-outs of two accumulators built from two non-empty lists of
    rows, each tagged with its number of rows, gives the mean of folding all
    the rows into one accumulator; the merged std is the square root of the
    count-weighted average of std_i^2 + (mean_i - mean)^2.  The merge does
    not depend on the order of its pairs, and merging a merge (counted with
    the sum of its counts) with a third pair is merging the three, whichever
    two are merged first. *)
Theorem normalizer_order_and_merge :
  (forall B (rows rows' : list (list R)),
     Forall (fun r => length r = B) rows -> Permutation rows rows' ->
     exists st d,
       update_normalizing_values norm_init B rows = Ok st
       /\ update_normalizing_values norm_init B rows' = Ok st
       /\ calculate_normalizing_dict st = Some d)
  /\ (forall B (rows rows' : list (list R)),
        Forall (fun r => length r = B) rows ->
        Forall (fun r => length r = B) rows' ->
        (st <~ update_normalizing_values norm_init B rows ;;
         update_normalizing_values st B rows')
        = update_normalizing_values norm_init B (rows ++ rows'))
  /\ (forall B (rows1 rows2 : list (list R)),
        Forall (fun r => length r = B) rows1 ->
        Forall (fun r => length r = B) rows2 ->
        rows1 <> [] -> rows2 <> [] ->
        exists st1 st2 st d1 d2 d dm,
          update_normalizing_values norm_init B rows1 = Ok st1
          /\ calculate_normalizing_dict st1 = Some d1
          /\ update_normalizing_values norm_init B rows2 = Ok st2
          /\ calculate_normalizing_dict st2 = Some d2
          /\ update_normalizing_values norm_init B (rows1 ++ rows2) = Ok st
          /\ calculate_normalizing_dict st = Some d
          /\ adjust_normalizing_dict [(ni_n st1, Some d1); (ni_n st2, Some d2)]
             = Ok (Some dm)
          /\ ni_n st1 = Z.of_nat (length rows1)
          /\ ni_n st2 = Z.of_nat (length rows2)
          /\ nd_mean dm = nd_mean d
          /\ nd_std dm
             = tab B (fun j =>
                 R_sqrt.sqrt
                   (weighted_variance (nth j (nd_mean d) 0%R)
                      (band_stats j [(ni_n st1, d1); (ni_n st2, d2)]))))
  /\ (forall B (ds ds' : list (Z * ndict R)),
        ds <> [] -> wf_dicts B ds -> Permutation ds ds' ->
        exists r,
          adjust_normalizing_dict (present ds) = Ok (Some r)
          /\ adjust_normalizing_dict (present ds') = Ok (Some r))
  /\ (forall B (a b c : Z * ndict R),
        wf_dicts B [a; b; c] -> 0 < fst a -> 0 < fst b -> 0 < fst c ->
        exists dab dbc r,
          adjust_normalizing_dict (present [a; b]) = Ok (Some dab)
          /\ adjust_normalizing_dict (present [b; c]) = Ok (Some dbc)
          /\ adjust_normalizing_dict (present [(fst a + fst b, dab); c])
             = Ok (Some r)
          /\ adjust_normalizing_dict (present [a; (fst b + fst c, dbc)])
             = Ok (Some r)
          /\ adjust_normalizing_dict (present [a; b; c]) = Ok (Some r)).
Proof.
  split; [| split; [| split; [| split]]].
  - intros B rows rows' Hrows Hp.
    destruct (readout_closed B rows Hrows) as (st & Hst & _ & Hd).
    exists st. eexists. split; [exact Hst |]. split; [| exact Hd].
    now rewrite <- (update_perm B rows rows').
  - intros B rows rows' Hr Hr'. now apply update_app.
  - intros B rows1 rows2 H1 H2 Hne1 Hne2.
    destruct (readout_closed B rows1 H1) as (st1 & Hst1 & Hn1 & Hd1).
    destruct (readout_closed B rows2 H2) as (st2 & Hst2 & Hn2 & Hd2).
    destruct (readout_closed B (rows1 ++ rows2)) as (st & Hst & Hn & Hd);
      [now apply Forall_app |].
    exists st1, st2, st. do 4 eexists.
    split; [exact Hst1 |]. split; [exact Hd1 |].
    split; [exact Hst2 |]. split; [exact Hd2 |].
    split; [exact Hst |]. split; [exact Hd |].
    assert (Em : forall j, (j < B)%nat ->
              weighted_average
                (List.map (fun q => (fst q, fst (snd q)))
                   (band_stats j
                      [(ni_n st1,
                        {| nd_mean := tab B (fun j => sample_mean (column j rows1));
                           nd_std := tab B (fun j =>
                             R_sqrt.sqrt (sample_variance (column j rows1))) |});
                       (ni_n st2,
                        {| nd_mean := tab B (fun j => sample_mean (column j rows2));
                           nd_std := tab B (fun j =>
                             R_sqrt.sqrt (sample_variance (column j rows2))) |})]))
              = sample_mean (column j (rows1 ++ rows2))).
    { intros j Hj. unfold band_stats, band_stat. cbn [List.map fst snd nd_mean].
      change (@s_zero R real_scalar) with 0%R.
      rewrite !(tab_nth B j _ 0%R Hj), Hn1, Hn2, column_app.
      rewrite <- (column_length j rows1), <- (column_length j rows2).
      apply weighted_average_of_sample_means.
      - destruct rows1; [congruence | discriminate].
      - destruct rows2; [congruence | discriminate]. }
    split; [| split; [exact Hn1 | split; [exact Hn2 |]]].
    + apply (adjust_normalizing_dict_closed B
               [(ni_n st1, _); (ni_n st2, _)]); [discriminate |].
      repeat constructor; simpl; apply tab_length.
    + cbn [nd_mean nd_std]. split.
      * apply tab_ext. intros j Hj. now apply Em.
      * apply tab_ext. intros j Hj. rewrite (Em j Hj).
        now rewrite (tab_nth B j _ 0%R Hj).
  - intros B ds ds' Hne Hwf Hp. eexists.
    split; [now apply (adjust_normalizing_dict_closed B) |].
    rewrite <- (adjust_perm B ds ds') by assumption.
    now apply (adjust_normalizing_dict_closed B).
  - intros B a b c Hwf Ha Hb Hc.
    destruct (adjust_assoc B a b c Hwf Ha Hb Hc) as (dab & dbc & Hab & Hbc & E1 & E2).
    exists dab, dbc. eexists.
    split; [exact Hab |]. split; [exact Hbc |].
    rewrite <- E1, E2.
    split; [| split]; apply (adjust_normalizing_dict_closed B);
      (discriminate || assumption).
Qed.

(** C5 as stated fails: the merged std is not the std of folding all the
    rows.  Two accumulators hold the rows 1, 3, 5 each: mean 3 and std 2.
    Their merge has std 2, but the six rows folded into one accumulator have
    std sqrt(16/5). *)
Lemma merged_std_is_not_folded_std :
  exists st1 st d1 d dm,
    update_normalizing_values norm_init 1 [[1]; [3]; [5]]%R = Ok st1
    /\ calculate_normalizing_dict st1 = Some d1
    /\ ni_n st1 = 3
    /\ update_normalizing_values norm_init 1
         ([[1]; [3]; [5]] ++ [[1]; [3]; [5]])%R = Ok st
    /\ calculate_normalizing_dict st = Some d
    /\ adjust_normalizing_dict [(3, Some d1); (3, Some d1)] = Ok (Some dm)
    /\ nd_mean dm = [3%R] /\ nd_mean d = [3%R]
    /\ nd_std dm = [2%R]
    /\ nd_std d = [R_sqrt.sqrt (16 / 5)]
    /\ 2%R <> R_sqrt.sqrt (16 / 5).
Proof.
  destruct (readout_closed 1 [[1]; [3]; [5]]%R) as (st1 & Hst1 & Hn1 & Hd1);
    [repeat constructor |].
  destruct (readout_closed 1 ([[1]; [3]; [5]] ++ [[1]; [3]; [5]])%R)
    as (st & Hst & Hn & Hd); [repeat constructor |].
  assert (E3 : INR 3 = 3%R) by (simpl; lra).
  assert (E6 : INR 6 = 6%R) by (simpl; lra).
  assert (Em1 : sample_mean [1; 3; 5]%R = 3%R)
    by (unfold sample_mean; simpl length; rewrite E3; simpl; lra).
  assert (Ev1 : sample_variance [1; 3; 5]%R = 4%R)
    by (unfold sample_variance; rewrite Em1; simpl length; rewrite E3;
        simpl; field).
  assert (Em : sample_mean [1; 3; 5; 1; 3; 5]%R = 3%R)
    by (unfold sample_mean; simpl length; rewrite E6; simpl; lra).
  assert (Ev : sample_variance [1; 3; 5; 1; 3; 5]%R = (16 / 5)%R)
    by (unfold sample_variance; rewrite Em; simpl length; rewrite E6;
        simpl; field).
  assert (Es : R_sqrt.sqrt 4 = 2%R).
  { replace 4%R with (2 * 2)%R by lra. apply sqrt_square. lra. }
  unfold tab in Hd1, Hd. cbn [seq List.map column nth app] in Hd1, Hd.
  change (@s_zero R real_scalar) with 0%R in Hd1, Hd.
  rewrite Em1, Ev1, Es in Hd1. rewrite Em, Ev in Hd.
  exists st1, st. do 3 eexists.
  split; [exact Hst1 |]. split; [exact Hd1 |]. split; [exact Hn1 |].
  split; [exact Hst |]. split; [exact Hd |].
  split.
  { apply (adjust_normalizing_dict_closed 1
             [(3, {| nd_mean := [3%R]; nd_std := [2%R] |});
              (3, {| nd_mean := [3%R]; nd_std := [2%R] |})]);
      [discriminate | repeat constructor]. }
  cbn [nd_mean nd_std]. unfold tab, band_stats, band_stat.
  cbn [seq List.map fst snd nd_mean nd_std nth].
  assert (Ewm : weighted_average [(3, 3%R); (3, 3%R)] = 3%R)
    by (unfold weighted_average; simpl; change (3 + (3 + 0)) with 6; lra).
  rewrite Ewm.
  assert (Ewv : weighted_variance 3%R [(3, (3%R, 2%R)); (3, (3%R, 2%R))] = 4%R)
    by (unfold weighted_variance, weighted_average; simpl;
        change (3 + (3 + 0)) with 6; lra).
  rewrite Ewv, Es.
  repeat split.
  intros E. assert (E2 : (2 * 2 = 16 / 5)%R).
  { rewrite E at 1 2. apply sqrt_sqrt. lra. }
  lra.
Qed.

(** the same two runs at binary64 *)
Example merged_std_is_not_folded_std_float :
  exists st1 st d1 std,
    update_normalizing_values norm_init 1 [[1]; [3]; [5]]%float = Ok st1
    /\ calculate_normalizing_dict st1 = Some d1
    /\ update_normalizing_values norm_init 1
         [[1]; [3]; [5]; [1]; [3]; [5]]%float = Ok st
    /\ calculate_normalizing_dict st
       = Some {| nd_mean := [3%float]; nd_std := [std] |}
    /\ adjust_normalizing_dict [(3, Some d1); (3, Some d1)]
       = Ok (Some {| nd_mean := [3%float]; nd_std := [2%float] |})
    /\ PrimFloat.ltb std 2%float = true.
Proof.
  do 4 eexists. split; [vm_compute; reflexivity |].
  split; [vm_compute; reflexivity |].
  split; [vm_compute; reflexivity |].
  split; [vm_compute; reflexivity |].
  split; vm_compute; reflexivity.
Qed.

(** ** The orchestrator *)

Section OrchestratorFacts.
Context {F : Type} `{Scalar F}.
Variables DYNAMIC_BANDS STATIC_BANDS : list string.
Variables NUM_TIMESTEPS DAYS_PER_TIMESTEP : Z.
Variable load_tif : string -> Z -> result (DataArray F * F).
Variable process_filename : string -> result (Z * string).

Local Abbreviation single_file :=
  (process_single_file DYNAMIC_BANDS STATIC_BANDS NUM_TIMESTEPS
     DAYS_PER_TIMESTEP load_tif).
Local Abbreviation eo_file :=
  (process_eo_file DYNAMIC_BANDS STATIC_BANDS NUM_TIMESTEPS
     DAYS_PER_TIMESTEP load_tif process_filename).
Local Abbreviation eo_files_loop :=
  (process_eo_files DYNAMIC_BANDS STATIC_BANDS NUM_TIMESTEPS
     DAYS_PER_TIMESTEP load_tif process_filename).

(** a file that yields an instance is folded once; one that yields none is
    not folded *)
Lemma process_single_file_engine (st st' : norm_interim F) (path : string)
    (row : label_row F) (instance : option (DataInstance F)) :
  single_file st path row = Ok (st', instance) ->
  match instance with
  | Some i => exists T B d, array i = Arr2 T B d
                            /\ update_normalizing_values st B d = Ok st'
  | None => st' = st
  end.
Proof.
  unfold process_single_file. intros Hrun.
  step_bind Hrun. destruct a as [da s].
  do 2 step_bind Hrun.
  destruct (da_sel da a a0) as [[T B] d].
  do 3 step_bind Hrun.
  destruct a3 as [a3 |].
  - destruct a3 as [T' B' d' | |]; try discriminate.
    step_bind Hrun. injection Hrun as <- <-. simpl. eauto.
  - injection Hrun as <- <-. reflexivity.
Qed.

(** one turn of the loop under checkpointing: outputs that exist stay as
    they are, every new output is counted, and the normalizer is updated at
    most once *)
Lemma process_eo_file_checkpoint (labels : list (label_row F))
    (ls ls' : loop_state) (file_path : string) :
  eo_file true labels ls file_path = Ok ls' ->
  (forall k v, ls_arrays ls !! k = Some v -> ls_arrays ls' !! k = Some v)
  /\ exists arrays,
       update_all (ls_engine ls) arrays = Ok (ls_engine ls')
       /\ num_new_files ls' = num_new_files ls + Z.of_nat (length arrays)
       /\ size (ls_arrays ls') = (size (ls_arrays ls) + length arrays)%nat.
Proof.
  unfold process_eo_file. intros Hrun.
  step_bind Hrun. destruct a as [file_index dataset].
  cbn [andb] in Hrun.
  destruct (bool_decide _) eqn:Eex.
  { injection Hrun as <-. split; [auto |]. exists []. cbn [update_all length].
    split; [reflexivity |]. split; lia. }
  apply bool_decide_eq_false in Eex.
  assert (Hnone : ls_arrays ls
                    !! (pretty file_index ++ "_" ++ dataset ++ ".pkl")%string
                  = None).
  { destruct (ls_arrays ls !! _) eqn:Elk; [| reflexivity].
    exfalso. apply Eex. eauto. }
  do 2 step_bind Hrun. destruct a0 as [st instance].
  pose proof (process_single_file_engine _ _ _ _ _ E1) as Heng.
  destruct instance as [instance |]; injection Hrun as <-; cbn.
  - destruct Heng as (T & B & d & _ & Hup). split.
    + intros k v Hk. rewrite lookup_insert_ne; [assumption |].
      intros <-. congruence.
    + exists [(B, d)]. cbn [update_all]. rewrite Hup. cbn [bind length].
      split; [reflexivity |]. split; [lia |].
      rewrite map_size_insert_None by assumption. lia.
  - subst st. split; [auto |]. exists []. cbn [update_all length].
    split; [reflexivity |]. split; lia.
Qed.

Lemma update_all_app (st : norm_interim F)
    (arrays arrays' : list (nat * list (list F))) :
  update_all st (arrays ++ arrays')
  = (st' <~ update_all st arrays ;; update_all st' arrays').
Proof.
  revert st. induction arrays as [| [B d] arrays IH]; intros st; cbn;
    [reflexivity |].
  destruct (update_normalizing_values st B d) as [st1 |]; cbn;
    [apply IH | reflexivity].
Qed.

(** the whole loop under checkpointing *)
Lemma process_eo_files_checkpoint (labels : list (label_row F))
    (eo_files : list string) (ls ls' : loop_state) :
  eo_files_loop true labels ls eo_files = Ok ls' ->
  (forall k v, ls_arrays ls !! k = Some v -> ls_arrays ls' !! k = Some v)
  /\ exists arrays,
       update_all (ls_engine ls) arrays = Ok (ls_engine ls')
       /\ num_new_files ls' = num_new_files ls + Z.of_nat (length arrays)
       /\ size (ls_arrays ls') = (size (ls_arrays ls) + length arrays)%nat.
Proof.
  revert ls. induction eo_files as [| f rest IH]; intros ls Hrun;
    cbn [process_eo_files] in Hrun.
  - injection Hrun as <-. split; [auto |]. exists []. cbn [update_all length].
    split; [reflexivity |]. split; lia.
  - step_bind Hrun.
    destruct (process_eo_file_checkpoint _ _ _ _ E)
      as (Hframe & arrays & Hup & Hnew & Hsize).
    destruct (IH _ Hrun) as (Hframe' & arrays' & Hup' & Hnew' & Hsize').
    split; [auto |]. exists (arrays ++ arrays').
    rewrite update_all_app, Hup. cbn [bind]. rewrite length_app.
    split; [exact Hup' |]. split; lia.
Qed.

(** a file whose output exists is passed over: nothing changes *)
Lemma process_eo_file_skip {A : Type} (outputs : gmap string A)
    (labels : list (label_row F)) (ls : loop_state) (file_path : string) :
  (forall k, is_Some (outputs !! k) -> is_Some (ls_arrays ls !! k)) ->
  already_output process_filename outputs file_path = true ->
  eo_file true labels ls file_path = Ok ls.
Proof.
  intros Hsub Hout. unfold already_output in Hout.
  unfold process_eo_file.
  destruct (process_filename file_path) as [[file_index dataset] |];
    [| discriminate].
  cbn [bind andb]. apply bool_decide_eq_true in Hout.
  rewrite bool_decide_eq_true_2 by now apply Hsub. reflexivity.
Qed.

(** the loop does to the listing what it does to the listing without the
    files whose output existed when the run started *)
Lemma process_eo_files_filter {A : Type} (outputs : gmap string A)
    (labels : list (label_row F)) (eo_files : list string) (ls : loop_state) :
  (forall k, is_Some (outputs !! k) -> is_Some (ls_arrays ls !! k)) ->
  eo_files_loop true labels ls eo_files
  = eo_files_loop true labels ls
      (List.filter (fun f => negb (already_output process_filename outputs f))
         eo_files).
Proof.
  revert ls. induction eo_files as [| f rest IH]; intros ls Hsub;
    [reflexivity |].
  cbn [List.filter].
  destruct (already_output process_filename outputs f) eqn:Eout; cbn [negb].
  - cbn [process_eo_files].
    rewrite (process_eo_file_skip outputs labels ls f Hsub Eout). cbn [bind].
    now apply IH.
  - cbn [process_eo_files].
    destruct (eo_file true labels ls f) as [ls1 |] eqn:Estep;
      cbn [bind]; [| reflexivity].
    apply IH. intros k Hk.
    destruct (process_eo_file_checkpoint _ _ _ _ Estep) as [Hframe _].
    destruct (Hsub k Hk) as [v Hv]. exists v. now apply Hframe.
Qed.

End OrchestratorFacts.

Section OrchestratorWritten.
Context {F : Type} `{Scalar F}.
Variables DYNAMIC_BANDS STATIC_BANDS : list string.
Variables NUM_TIMESTEPS DAYS_PER_TIMESTEP : Z.
Variable load_tif : string -> Z -> result (DataArray F * F).
Variable process_filename : string -> result (Z * string).

(** The loop under checkpointing, by what it writes: the outputs it adds,
    in the order it writes them, are new names, one instance each; the
    normalizer is updated with the array of each of them, once and in that
    order, and with nothing else; and each of them is counted. *)
Lemma process_eo_files_written {A : Type} (outputs : gmap string A)
    (labels : list (label_row F)) (eo_files : list string)
    (ls ls' : loop_state) :
  (forall k, is_Some (outputs !! k) -> is_Some (ls_arrays ls !! k)) ->
  process_eo_files DYNAMIC_BANDS STATIC_BANDS NUM_TIMESTEPS DAYS_PER_TIMESTEP
    load_tif process_filename true labels ls eo_files = Ok ls' ->
  exists (written : list (string * DataInstance F))
         (arrays : list (nat * list (list F))),
    Forall2 (fun ki Bd => exists T, array ki.2 = Arr2 T Bd.1 Bd.2)
      written arrays
    /\ NoDup written.*1
    /\ Forall (fun k => ls_arrays ls !! k = None) written.*1
    /\ written.*1 `sublist_of`
         output_names process_filename
           (List.filter
              (fun f => negb (already_output process_filename outputs f))
              eo_files)
    /\ ls_arrays ls' = list_to_map written ∪ ls_arrays ls
    /\ update_all (ls_engine ls) arrays = Ok (ls_engine ls')
    /\ num_new_files ls' = num_new_files ls + Z.of_nat (length written).
Proof.
  revert ls. induction eo_files as [| f rest IH]; intros ls Hsub Hrun;
    cbn [process_eo_files] in Hrun.
  - injection Hrun as <-. exists [], [].
    split; [constructor |]. split; [constructor |]. split; [constructor |].
    split; [constructor |].
    split; [cbn; now rewrite (left_id_L ∅ (∪)) |].
    split; [reflexivity |]. cbn [length]. lia.
  - step_bind Hrun. rename a into ls1, E into Estep.
    pose proof (process_eo_file_checkpoint _ _ _ _ _ _ _ _ _ _ Estep)
      as [Hframe _].
    assert (Hsub1 : forall k, is_Some (outputs !! k) ->
                              is_Some (ls_arrays ls1 !! k)).
    { intros k Hk. destruct (Hsub k Hk) as [v Hv]. exists v.
      now apply Hframe. }
    destruct (IH ls1 Hsub1 Hrun)
      as (written & arrays & Harr & Hnd & Hnew & Hnames & Hdir & Hup & Hcnt).
    clear IH Hrun.
    unfold process_eo_file in Estep.
    destruct (process_filename f) as [[file_index dataset] |] eqn:Epf;
      cbn [bind] in Estep; [| discriminate].
    set (file_name := (pretty file_index ++ "_" ++ dataset ++ ".pkl")%string)
      in *.
    assert (Hnames' :
              written.*1 `sublist_of`
                output_names process_filename
                  (List.filter
                     (fun f => negb (already_output process_filename outputs f))
                     (f :: rest))).
    { cbn [List.filter].
      destruct (already_output process_filename outputs f); cbn [negb];
        [exact Hnames |].
      cbn [output_names]. rewrite Epf. now apply sublist_cons. }
    cbn [andb] in Estep.
    destruct (bool_decide (is_Some (ls_arrays ls !! file_name))) eqn:Eex.
    { injection Estep as <-. exists written, arrays. repeat split; assumption. }
    apply bool_decide_eq_false in Eex.
    assert (Hnone : ls_arrays ls !! file_name = None).
    { destruct (ls_arrays ls !! file_name) eqn:Elk; [| reflexivity].
      exfalso. apply Eex. eauto. }
    assert (Hout : already_output process_filename outputs f = false).
    { unfold already_output. rewrite Epf. fold file_name.
      apply bool_decide_eq_false. intros Hk. apply Eex. now apply Hsub. }
    do 2 step_bind Estep. destruct a0 as [st instance].
    pose proof (process_single_file_engine _ _ _ _ _ _ _ _ _ _ E0) as Heng.
    destruct instance as [instance |]; injection Estep as <-;
      cbn [ls_arrays ls_engine num_new_files] in *.
    + destruct Heng as (T & B & d & Harray & Hup1).
      assert (Hfresh : file_name ∉ written.*1).
      { intros Hin.
        apply list_elem_of_In in Hin.
        pose proof (proj1 (List.Forall_forall _ _) Hnew file_name Hin) as Hk.
        cbv beta in Hk. rewrite lookup_insert_eq in Hk. discriminate. }
      exists ((file_name, instance) :: written), ((B, d) :: arrays).
      split; [constructor; [exists T; exact Harray | exact Harr] |].
      split; [cbn [fmap list_fmap fst]; now apply NoDup_cons |].
      split.
      { cbn [fmap list_fmap fst]. constructor; [exact Hnone |].
        apply List.Forall_forall. intros k Hk.
        pose proof (proj1 (List.Forall_forall _ _) Hnew k Hk) as Hk1.
        apply lookup_insert_None in Hk1. tauto. }
      split.
      { cbn [List.filter]. rewrite Hout. cbn [negb output_names].
        rewrite Epf. fold file_name. cbn [fmap list_fmap fst].
        apply sublist_skip.
        cbn [List.filter] in Hnames'. rewrite Hout in Hnames'.
        cbn [negb output_names] in Hnames'. rewrite Epf in Hnames'.
        fold file_name in Hnames'.
        apply sublist_cons_r in Hnames' as [Hs | (l' & Hl' & Hs)];
          [exact Hs |].
        exfalso. apply Hfresh. rewrite Hl'. now left. }
      split.
      { rewrite Hdir, list_to_map_cons.
        rewrite <- insert_union_r
          by (apply not_elem_of_list_to_map_1; exact Hfresh).
        now rewrite insert_union_l. }
      split; [cbn [update_all]; rewrite Hup1; exact Hup |].
      cbn [length]. lia.
    + subst st. exists written, arrays. repeat split; assumption.
Qed.

End OrchestratorWritten.

(** C7, as the code has it.  In a run with checkpointing that finds a
    persisted normalizing dict: the run does exactly what it would do on the
    listing without the raw files whose output existed at the start (those
    are neither processed nor folded into the normalizer, and their outputs
    are not rewritten).  The outputs the run adds, in the order it writes
    them, are the instances [written]: their names are distinct, had no
    output at the start, and are, in the order of the listing, output names
    of listed files without an output at the start; the outputs at the end
    are those of the start and these.  Every one of them is counted once
    and folded once: the Engineer's normalizer at the end is the one of the
    start updated with the array of each written instance, one call of
    [update_normalizing_values] each, in that order, and with nothing else.
    The merge is taken of the old dict, weighted by the number of outputs
    that existed at the start, with the read-out of the Engineer's
    normalizer, weighted by the number of files written in this run; when
    that merge is available it is what is persisted, and when it is not (no
    read-out) the old dict stays. *)
Theorem create_pickled_dataset_resume {F : Type} `{Scalar F}
    (DYNAMIC_BANDS STATIC_BANDS : list string)
    (NUM_TIMESTEPS DAYS_PER_TIMESTEP : Z)
    (load_tif : string -> Z -> result (DataArray F * F))
    (process_filename : string -> result (Z * string))
    (labels : list (label_row F)) (eo_files : list string)
    (w w' : world F) (old : ndict F) (new skipped : Z) :
  normalizing_dict_pkl w = Some old ->
  create_pickled_dataset DYNAMIC_BANDS STATIC_BANDS NUM_TIMESTEPS
    DAYS_PER_TIMESTEP load_tif process_filename true labels eo_files w
  = Ok (w', new, skipped) ->
  create_pickled_dataset DYNAMIC_BANDS STATIC_BANDS NUM_TIMESTEPS
    DAYS_PER_TIMESTEP load_tif process_filename true labels
    (List.filter
       (fun f => negb (already_output process_filename (arrays_dir w) f))
       eo_files) w
  = Ok (w', new, skipped)
  /\ (forall k v, arrays_dir w !! k = Some v -> arrays_dir w' !! k = Some v)
  /\ (exists (written : list (string * DataInstance F))
             (arrays : list (nat * list (list F))),
        (* the arrays of the written instances, as band count and rows *)
        Forall2 (fun ki Bd => exists T, array ki.2 = Arr2 T Bd.1 Bd.2)
          written arrays
        /\ NoDup written.*1
        /\ Forall (fun k => arrays_dir w !! k = None) written.*1
        /\ written.*1 `sublist_of`
             output_names process_filename
               (List.filter
                  (fun f =>
                     negb (already_output process_filename (arrays_dir w) f))
                  eo_files)
        /\ arrays_dir w' = list_to_map written ∪ arrays_dir w
        /\ update_all (engine w) arrays = Ok (engine w')
        /\ new = Z.of_nat (length written)
        /\ new = Z.of_nat (length arrays)
        /\ size (arrays_dir w') = (size (arrays_dir w) + length arrays)%nat)
  /\ (exists merged,
        adjust_normalizing_dict
          [(Z.of_nat (size (arrays_dir w)), Some old);
           (new, calculate_normalizing_dict (engine w'))] = Ok merged
        /\ normalizing_dict_pkl w'
           = match merged with
             | Some nd => Some nd
             | None => Some old
             end).
Proof.
  intros Hold Hrun. split.
  - unfold create_pickled_dataset in *.
    rewrite <- (process_eo_files_filter _ _ _ _ _ _ (arrays_dir w));
      [exact Hrun | auto].
  - unfold create_pickled_dataset in Hrun. rewrite Hold in Hrun.
    step_bind Hrun. rename a into ls.
    destruct (process_eo_files_checkpoint _ _ _ _ _ _ _ _ _ _ E)
      as (Hframe & _).
    destruct (process_eo_files_written _ _ _ _ _ _ (arrays_dir w) _ _
                {| ls_arrays := arrays_dir w; ls_engine := engine w;
                   num_new_files := 0; skipped_files := 0 |} _
                (fun _ Hk => Hk) E)
      as (written & arrays & Harr & Hnd & Hfresh & Hnames & Hdir & Hup
          & Hnew).
    cbn in Hframe, Hfresh, Hdir, Hup, Hnew.
    step_bind Hrun. rename a into merged.
    injection Hrun as <- <- <-. cbn.
    split; [exact Hframe |]. split.
    + exists written, arrays.
      pose proof (Forall2_length _ _ _ Harr) as Hlen.
      split; [exact Harr |]. split; [exact Hnd |]. split; [exact Hfresh |].
      split; [exact Hnames |]. split; [exact Hdir |]. split; [exact Hup |].
      split; [lia |]. split; [lia |].
      rewrite Hdir, map_size_disj_union.
      * rewrite map_size_list_to_map by exact Hnd. lia.
      * apply map_disjoint_list_to_map_l.
        apply List.Forall_forall. intros [k i] Hin. cbn [fst].
        apply (proj1 (List.Forall_forall _ _) Hfresh).
        apply in_map_iff. exists (k, i). split; [reflexivity | exact Hin].
    + exists merged. split; [exact E0 |]. destruct merged; reflexivity.
Qed.

(** A resumed run on the small catalog: the first file has its output and
    is passed over, the second is processed. *)
Lemma create_pickled_dataset_resume_witness :
  exists w' new skipped,
    create_pickled_dataset demo_dynamic demo_static 12 30 demo_load_tif
      demo_process_filename true demo_labels ["1-a_x.tif"; "2-a_y.tif"]
      demo_world = Ok (w', new, skipped)
    /\ create_pickled_dataset demo_dynamic demo_static 12 30 demo_load_tif
         demo_process_filename true demo_labels
         (List.filter
            (fun f => negb (already_output demo_process_filename
                              (arrays_dir demo_world) f))
            ["1-a_x.tif"; "2-a_y.tif"]) demo_world
       = Ok (w', new, skipped)
    /\ (forall k v, arrays_dir demo_world !! k = Some v ->
                    arrays_dir w' !! k = Some v)
    /\ (exists (written : list (string * DataInstance float))
               (arrays : list (nat * list (list float))),
          Forall2 (fun ki Bd => exists T, array ki.2 = Arr2 T Bd.1 Bd.2)
            written arrays
          /\ NoDup written.*1
          /\ Forall (fun k => arrays_dir demo_world !! k = None) written.*1
          /\ written.*1 `sublist_of`
               output_names demo_process_filename
                 (List.filter
                    (fun f => negb (already_output demo_process_filename
                                      (arrays_dir demo_world) f))
                    ["1-a_x.tif"; "2-a_y.tif"])
          /\ arrays_dir w' = list_to_map written ∪ arrays_dir demo_world
          /\ update_all (engine demo_world) arrays = Ok (engine w')
          /\ new = Z.of_nat (length written)
          /\ new = Z.of_nat (length arrays)
          /\ size (arrays_dir w')
             = (size (arrays_dir demo_world) + length arrays)%nat)
    /\ (exists merged,
          adjust_normalizing_dict
            [(Z.of_nat (size (arrays_dir demo_world)), Some demo_old);
             (new, calculate_normalizing_dict (engine w'))] = Ok merged
          /\ normalizing_dict_pkl w'
             = match merged with
               | Some nd => Some nd
               | None => Some demo_old
               end).
Proof.
  destruct (create_pickled_dataset demo_dynamic demo_static 12 30
              demo_load_tif demo_process_filename true demo_labels
              ["1-a_x.tif"; "2-a_y.tif"] demo_world)
    as [[[w' new] skipped] | e] eqn:Erun.
  - exists w', new, skipped. split; [reflexivity |].
    exact (create_pickled_dataset_resume demo_dynamic demo_static 12 30
             demo_load_tif demo_process_filename demo_labels
             ["1-a_x.tif"; "2-a_y.tif"] demo_world w' demo_old new skipped
             eq_refl Erun).
  - vm_compute in Erun. discriminate.
Defined.

(** C7 as stated fails when the resumed run writes nothing new: the only
    raw file has its output already, the Engineer's normalizer has no
    read-out, the merge of the old dict with it is None, and the persisted
    dict is still the old one, not that merge. *)
Lemma resumed_run_without_new_files :
  exists w',
    create_pickled_dataset demo_dynamic demo_static 12 30 demo_load_tif
      demo_process_filename true demo_labels ["1-a_x.tif"] demo_world
    = Ok (w', 0, 0)
    /\ normalizing_dict_pkl w' = Some demo_old
    /\ calculate_normalizing_dict (engine w') = None
    /\ adjust_normalizing_dict
         [(Z.of_nat (size (arrays_dir demo_world)), Some demo_old);
          (0, calculate_normalizing_dict (engine w'))] = Ok None.
Proof.
  eexists. split; [vm_compute; reflexivity |].
  split; [reflexivity |]. split; [reflexivity |]. vm_compute. reflexivity.
Qed.

(** the resumed run of the witness: one file written, and the two dicts
    merged with one file each *)
Example resumed_run_demo :
  exists w',
    create_pickled_dataset demo_dynamic demo_static 12 30 demo_load_tif
      demo_process_filename true demo_labels ["1-a_x.tif"; "2-a_y.tif"]
      demo_world = Ok (w', 1, 0)
    /\ size (arrays_dir w') = 2%nat
    /\ ni_n (engine w') = 2
    /\ arrays_dir w' !! "1_a.pkl" = Some demo_instance
    /\ (array <$> arrays_dir w' !! "2_a.pkl")
       = Some (Arr2 2 4 [[3; 3; 60; 0.5]; [10; 8; 20; 0.25]]%float)
    /\ (nd_mean <$> normalizing_dict_pkl w')
       = Some [3.75; 3.25; 20.5; 0.6875]%float.
Proof.
  eexists. split; [vm_compute; reflexivity |].
  repeat split; vm_compute; reflexivity.
Qed.

(** * The rest of the module *)

(** ** File names *)

Lemma str_split_free (sep : ascii) (s : string) :
  str_contains sep s = false -> str_split sep s = [s].
Proof.
  induction s as [| c r IH]; simpl; [reflexivity |].
  intros Hc. apply orb_false_iff in Hc as [Hc Hr].
  rewrite Hc, (IH Hr). reflexivity.
Qed.

Lemma str_split_at (sep : ascii) (a b : string) :
  str_contains sep a = false ->
  str_split sep (a ++ String sep b) = a :: str_split sep b.
Proof.
  induction a as [| c r IH]; simpl.
  - intros _. now rewrite Ascii.eqb_refl.
  - intros Hc. apply orb_false_iff in Hc as [Hc Hr].
    rewrite Hc, (IH Hr). reflexivity.
Qed.

Lemma str_split_cons (sep : ascii) (s : string) :
  exists p ps, str_split sep s = p :: ps.
Proof.
  induction s as [| c r [p [ps IH]]]; simpl; [now eexists _, _ |].
  destruct (Ascii.eqb c sep); [now eexists _, _ |].
  rewrite IH. now eexists _, _.
Qed.

Lemma str_join_cons (sep p q : string) (qs : list string) :
  str_join sep (p :: q :: qs) = (p ++ sep ++ str_join sep (q :: qs))%string.
Proof. reflexivity. Qed.

Lemma str_join_split (sep : ascii) (s : string) :
  str_join (String sep "") (str_split sep s) = s.
Proof.
  induction s as [| c r IH]; simpl; [reflexivity |].
  destruct (str_split_cons sep r) as [p [ps E]]. rewrite E in *.
  destruct (Ascii.eqb_spec c sep) as [-> | Hne].
  - rewrite str_join_cons, IH. reflexivity.
  - destruct ps as [| q qs].
    + simpl in *. now rewrite IH.
    + rewrite str_join_cons in *. rewrite <- IH. reflexivity.
Qed.

Lemma str_app_assoc (a b c : string) : (a +:+ b) +:+ c = a +:+ (b +:+ c).
Proof.
  induction a as [| x a IH]; [reflexivity |].
  change (String x ((a +:+ b) +:+ c) = String x (a +:+ (b +:+ c))).
  now rewrite IH.
Qed.

(** X1: A file name made of an index, a hyphen, a dataset and, after the first
    underscore, anything else is read back as that index and that dataset:
    the dataset keeps its own hyphens, what follows the first underscore is
    ignored, and a name without a hyphen before the first underscore has the
    empty dataset. *)
Theorem process_filename_reads_back (py_int : string -> result Z)
    (idx dataset rest : string) (i : Z) :
  str_contains "_" idx = false -> str_contains "-" idx = false ->
  str_contains "_" dataset = false ->
  py_int idx = Ok i ->
  process_filename py_int (idx +:+ "-" +:+ dataset +:+ "_" +:+ rest)
  = Ok (i, dataset)
  /\ process_filename py_int (idx +:+ "-" +:+ dataset) = Ok (i, dataset)
  /\ process_filename py_int (idx +:+ "_" +:+ rest) = Ok (i, "").
Proof.
  intros Hu Hh Hd Hint.
  assert (Hfree : str_contains "_" (idx +:+ "-" +:+ dataset) = false).
  { clear Hint Hh. induction idx as [| c r IH]; simpl in *.
    - exact Hd.
    - apply orb_false_iff in Hu as [Hc Hr]. rewrite Hc. now apply IH. }
  assert (Hparts : str_split "-" (idx +:+ "-" +:+ dataset)
                   = idx :: str_split "-" dataset).
  { apply (str_split_at "-" idx dataset Hh). }
  unfold process_filename. repeat split.
  - replace (idx +:+ "-" +:+ dataset +:+ "_" +:+ rest)
      with ((idx +:+ "-" +:+ dataset) +:+ String "_" rest).
    2:{ rewrite !str_app_assoc. reflexivity. }
    rewrite (str_split_at "_" _ rest Hfree). cbn [getitem lookup list_lookup bind].
    rewrite Hparts. cbn [getitem lookup list_lookup bind skipn].
    rewrite Hint. cbn [bind]. rewrite skipn_O. now rewrite (str_join_split "-").
  - rewrite (str_split_free "_" _ Hfree). cbn [getitem lookup list_lookup bind].
    rewrite Hparts. cbn [getitem lookup list_lookup bind skipn].
    rewrite Hint. cbn [bind]. rewrite skipn_O. now rewrite (str_join_split "-").
  - change (idx +:+ "_" +:+ rest) with (idx +:+ String "_" rest).
    rewrite (str_split_at "_" _ rest Hu). cbn [getitem lookup list_lookup bind].
    rewrite (str_split_free "-" _ Hh). cbn [getitem lookup list_lookup bind skipn].
    rewrite Hint. reflexivity.
Qed.

Lemma process_filename_reads_back_witness :
  process_filename demo_int "12-togo-eval_2020-02-01_2021-02-01.tif"
  = Ok (12, "togo-eval")
  /\ process_filename demo_int "12-togo-eval" = Ok (12, "togo-eval")
  /\ process_filename demo_int "12_2020-02-01_2021-02-01.tif" = Ok (12, "").
Proof.
  apply (process_filename_reads_back demo_int "12" "togo-eval"
           "2020-02-01_2021-02-01.tif" 12); reflexivity.
Defined.
(** X23: Test-file names: the identifier is the first four pieces between
    underscores, the crop and the end year are the second and the third; a
    name of fewer than three pieces raises IndexError. *)
Theorem test_identifier_components (a crop end_year d rest : string) :
  str_contains "_" a = false -> str_contains "_" crop = false ->
  str_contains "_" end_year = false -> str_contains "_" d = false ->
  let three := a +:+ "_" +:+ crop +:+ "_" +:+ end_year in
  let four := three +:+ "_" +:+ d in
  test_identifier (four +:+ "_" +:+ rest) = Ok (four, crop, end_year)
  /\ test_identifier four = Ok (four, crop, end_year)
  /\ test_identifier three = Ok (three, crop, end_year)
  /\ test_identifier (a +:+ "_" +:+ crop) = Raise IndexError
  /\ test_identifier a = Raise IndexError.
Proof.
  intros Ha Hc He Hd three four. subst three four.
  assert (Hcut : forall p q, str_contains "_" p = false ->
            str_split "_" (p +:+ "_" +:+ q) = p :: str_split "_" q).
  { intros p q Hp. apply (str_split_at "_" p q Hp). }
  unfold test_identifier. rewrite !str_app_assoc.
  repeat split.
  - rewrite !Hcut by assumption. reflexivity.
  - rewrite !Hcut, (str_split_free "_" d) by assumption. reflexivity.
  - rewrite !Hcut, (str_split_free "_" end_year) by assumption. reflexivity.
  - rewrite !Hcut, (str_split_free "_" crop) by assumption. reflexivity.
  - rewrite (str_split_free "_" a) by assumption. reflexivity.
Qed.

Lemma test_identifier_components_witness :
  let three := "togo" +:+ "_" +:+ "crop" +:+ "_" +:+ "2019" in
  let four := three +:+ "_" +:+ "0" in
  test_identifier (four +:+ "_" +:+ "tile.tif") = Ok (four, "crop", "2019")
  /\ test_identifier four = Ok (four, "crop", "2019")
  /\ test_identifier three = Ok (three, "crop", "2019")
  /\ test_identifier ("togo" +:+ "_" +:+ "crop") = Raise IndexError
  /\ test_identifier "togo" = Raise IndexError.
Proof.
  apply (test_identifier_components "togo" "crop" "2019" "0" "tile.tif");
    reflexivity.
Defined.
(** ** File names and the orchestrator *)

Lemma process_filename_prefix (py_int : string -> result Z) (a r : string) :
  str_contains "_" a = false ->
  process_filename py_int (a +:+ "_" +:+ r) = process_filename py_int a.
Proof.
  intros Ha. unfold process_filename.
  change (a +:+ "_" +:+ r) with (a +:+ String "_" r).
  now rewrite (str_split_at "_" a r Ha), (str_split_free "_" a Ha).
Qed.

(** X2: Two raw files whose names agree up to the first underscore have the
    same index and dataset, so the same output file: in a checkpointed run,
    once the first of them has an output (written now or found there), the
    second is not processed. *)
Theorem same_prefix_one_output {F : Type} `{Scalar F}
    (DYNAMIC_BANDS STATIC_BANDS : list string)
    (NUM_TIMESTEPS DAYS_PER_TIMESTEP : Z)
    (load_tif : string -> Z -> result (DataArray F * F))
    (py_int : string -> result Z) (labels : list (label_row F))
    (a r1 r2 : string) (ls ls1 : loop_state) :
  str_contains "_" a = false ->
  process_eo_file DYNAMIC_BANDS STATIC_BANDS NUM_TIMESTEPS DAYS_PER_TIMESTEP
    load_tif (process_filename py_int) true labels ls (a +:+ "_" +:+ r1)
  = Ok ls1 ->
  skipped_files ls1 = skipped_files ls ->
  process_filename py_int (a +:+ "_" +:+ r1)
  = process_filename py_int (a +:+ "_" +:+ r2)
  /\ process_eo_files DYNAMIC_BANDS STATIC_BANDS NUM_TIMESTEPS
       DAYS_PER_TIMESTEP load_tif (process_filename py_int) true labels ls
       [a +:+ "_" +:+ r1; a +:+ "_" +:+ r2]
     = Ok ls1.
Proof.
  intros Ha Hrun Hskip.
  assert (Hsame : process_filename py_int (a +:+ "_" +:+ r1)
                  = process_filename py_int (a +:+ "_" +:+ r2)).
  { now rewrite !process_filename_prefix. }
  split; [exact Hsame |].
  cbn [process_eo_files]. rewrite Hrun. cbn [bind].
  assert (Hskip2 : process_eo_file DYNAMIC_BANDS STATIC_BANDS NUM_TIMESTEPS
            DAYS_PER_TIMESTEP load_tif (process_filename py_int) true labels
            ls1 (a +:+ "_" +:+ r2) = Ok ls1); [| now rewrite Hskip2].
  unfold process_eo_file in *. rewrite <- Hsame.
  destruct (process_filename py_int (a +:+ "_" +:+ r1)) as [[i ds] | e];
    cbn [bind] in *; [| discriminate].
  destruct (bool_decide (is_Some (ls_arrays ls !! (pretty i +:+ "_" +:+ ds +:+ ".pkl"))))
    eqn:Hthere; cbn [andb] in Hrun.
  - injection Hrun as <-. now rewrite Hthere.
  - step_bind Hrun. step_bind Hrun. destruct a1 as [st [inst |]].
    + injection Hrun as <-. cbn [ls_arrays].
      rewrite lookup_insert_eq. rewrite bool_decide_eq_true_2 by (now eexists).
      reflexivity.
    + injection Hrun as <-. cbn [skipped_files] in Hskip. lia.
Qed.

Lemma same_prefix_one_output_witness :
  process_filename demo_int ("2-a" +:+ "_" +:+ "y.tif")
  = process_filename demo_int ("2-a" +:+ "_" +:+ "z.tif")
  /\ exists ls1,
       process_eo_files demo_dynamic demo_static 12 30 demo_load_tif
         (process_filename demo_int) true demo_labels
         {| ls_arrays := arrays_dir demo_world; ls_engine := norm_init;
            num_new_files := 0; skipped_files := 0 |}
         ["2-a" +:+ "_" +:+ "y.tif"; "2-a" +:+ "_" +:+ "z.tif"]
       = Ok ls1
       /\ num_new_files ls1 = 1.
Proof.
  pose (ls := {| ls_arrays := arrays_dir demo_world;
                 ls_engine := (norm_init : norm_interim float);
                 num_new_files := 0; skipped_files := 0 |}).
  destruct (process_eo_file demo_dynamic demo_static 12 30 demo_load_tif
              (process_filename demo_int) true demo_labels ls
              ("2-a" +:+ "_" +:+ "y.tif")) as [ls1 | e] eqn:Hrun;
    [| vm_compute in Hrun; discriminate].
  assert (Hnew : num_new_files ls1 = 1 /\ skipped_files ls1 = skipped_files ls).
  { vm_compute in Hrun. injection Hrun as <-. split; reflexivity. }
  destruct Hnew as [Hnew Hskip].
  destruct (same_prefix_one_output demo_dynamic demo_static 12 30 demo_load_tif
              demo_int demo_labels "2-a" "y.tif" "z.tif" ls ls1
              eq_refl Hrun Hskip) as [Hsame Hboth].
  split; [exact Hsame |]. exists ls1. split; [exact Hboth | exact Hnew].
Defined.
(** ** Regrouping a raster by time step *)

Lemma py_slice_inside {A : Type} (a b : nat) (l : list A) :
  (a <= b)%nat -> (b <= length l)%nat ->
  py_slice (Z.of_nat a) (Z.of_nat b) l = firstn (b - a) (skipn a l).
Proof.
  intros Hab Hb. unfold py_slice.
  destruct (Z.ltb_spec (Z.of_nat a) 0) as [Hn | _]; [lia |].
  destruct (Z.ltb_spec (Z.of_nat b) 0) as [Hn | _]; [lia |].
  rewrite !Z.min_l by lia.
  replace (Z.to_nat (Z.of_nat b - Z.of_nat a)) with (b - a)%nat by lia.
  now rewrite Nat2Z.id.
Qed.

Lemma py_slice_length {A : Type} (a b : nat) (l : list A) :
  (a <= b)%nat -> (b <= length l)%nat ->
  length (py_slice (Z.of_nat a) (Z.of_nat b) l) = (b - a)%nat.
Proof.
  intros Hab Hb. rewrite py_slice_inside by assumption.
  rewrite length_firstn, length_skipn. lia.
Qed.

Lemma py_slice_nth {A : Type} (a b j : nat) (l : list A) (d : A) :
  (a <= b)%nat -> (b <= length l)%nat -> (j < b - a)%nat ->
  nth j (py_slice (Z.of_nat a) (Z.of_nat b) l) d = nth (a + j) l d.
Proof.
  intros Hab Hb Hj. rewrite py_slice_inside by assumption.
  rewrite !nth_lookup, lookup_take_lt, lookup_drop by assumption.
  reflexivity.
Qed.

Lemma py_range_length (n : Z) : length (py_range n) = Z.to_nat n.
Proof. unfold py_range. now rewrite length_map, length_seq. Qed.

Lemma py_range_nth (n : Z) (t : nat) (d : Z) :
  (t < Z.to_nat n)%nat -> nth t (py_range n) d = Z.of_nat t.
Proof.
  intros Ht. unfold py_range.
  rewrite (nth_indep _ d (Z.of_nat 0)) by now rewrite length_map, length_seq.
  rewrite map_nth, seq_nth by assumption. reflexivity.
Qed.

Lemma py_range_In (n t : Z) : In t (py_range n) -> exists k, t = Z.of_nat k /\ (k < Z.to_nat n)%nat.
Proof.
  unfold py_range. rewrite in_map_iff. intros (k & <- & Hk).
  apply in_seq in Hk. exists k. split; [reflexivity | lia].
Qed.

Lemma mapM_Forall {A C : Type} (f : A -> result C) (l : list A) (r : list C) :
  mapM f l = Ok r -> Forall2 (fun x y => f x = Ok y) l r.
Proof.
  revert r. induction l as [| x l IH]; intros r E; simpl in E.
  - injection E as <-. constructor.
  - step_bind E. step_bind E. injection E as <-.
    constructor; [assumption | now apply IH].
Qed.

(** X3: On a raster of as many bands as the catalog asks for, [load_tif]
    returns one group of bands per time step: the dynamic bands of that
    step, as they follow each other in the file, and after them the static
    bands, the same in every step; the time coordinate starts at the start
    date and advances by the days of a time step; the average slope is the
    mean of the slope band among the static bands.  On a raster of any other
    number of bands it raises AssertionError. *)
Theorem load_tif_regroups_bands {F : Type}
    (DYNAMIC_BANDS STATIC_BANDS : list string)
    (NUM_TIMESTEPS DAYS_PER_TIMESTEP : Z)
    (nanmean_grid : list (list F) -> F) (da : Raster F) (start_date : Z)
    (sl : nat) :
  0 < NUM_TIMESTEPS ->
  index "slope" STATIC_BANDS = Ok sl ->
  length (ras_bands da)
  = (length DYNAMIC_BANDS * Z.to_nat NUM_TIMESTEPS + length STATIC_BANDS)%nat ->
  (exists stack,
     load_tif DYNAMIC_BANDS STATIC_BANDS NUM_TIMESTEPS DAYS_PER_TIMESTEP
       nanmean_grid da start_date
     = Ok (stack,
           nanmean_grid
             (nth (length DYNAMIC_BANDS * Z.to_nat NUM_TIMESTEPS + sl)
                (ras_bands da) []))
     /\ length (stack_values stack) = Z.to_nat NUM_TIMESTEPS
     /\ stack_time stack
        = List.map (fun i => start_date + DAYS_PER_TIMESTEP * Z.of_nat i)
            (seq 0 (Z.to_nat NUM_TIMESTEPS))
     /\ stack_x stack = ras_x da /\ stack_y stack = ras_y da
     /\ forall t, (t < Z.to_nat NUM_TIMESTEPS)%nat ->
          let bands := nth t (stack_values stack) [] in
          length bands = length (RAW_BANDS DYNAMIC_BANDS STATIC_BANDS)
          /\ (forall j, (j < length DYNAMIC_BANDS)%nat ->
                nth j bands []
                = nth (t * length DYNAMIC_BANDS + j) (ras_bands da) [])
          /\ (forall k, (k < length STATIC_BANDS)%nat ->
                nth (length DYNAMIC_BANDS + k) bands []
                = nth (length DYNAMIC_BANDS * Z.to_nat NUM_TIMESTEPS + k)
                    (ras_bands da) []))
  /\ (forall da' : Raster F,
        Z.of_nat (length (ras_bands da')) - Z.of_nat (length STATIC_BANDS)
        <> Z.of_nat (length DYNAMIC_BANDS) * NUM_TIMESTEPS ->
        load_tif DYNAMIC_BANDS STATIC_BANDS NUM_TIMESTEPS DAYS_PER_TIMESTEP
          nanmean_grid da' start_date
        = Raise AssertionError).
Proof.
  intros Hnt Hsl Hlen. split.
  2:{ intros da' Hne. unfold load_tif.
      destruct (Z.eqb_spec
        (Z.of_nat (length (ras_bands da')) - Z.of_nat (length STATIC_BANDS))
        (Z.of_nat (length DYNAMIC_BANDS) * NUM_TIMESTEPS)) as [E | _];
        [contradiction | reflexivity]. }
  set (bpt := length DYNAMIC_BANDS) in *.
  set (ns := length STATIC_BANDS) in *.
  set (nt := Z.to_nat NUM_TIMESTEPS) in *.
  set (bands := ras_bands da) in *.
  assert (Hnt' : NUM_TIMESTEPS = Z.of_nat nt) by (subst nt; lia).
  assert (Hsl' : (sl < ns)%nat) by (apply index_lt in Hsl; exact Hsl).
  set (static_data := firstn ns (skipn (bpt * nt) bands)).
  set (g := fun t : nat =>
              firstn bpt (skipn (t * bpt) bands) ++ static_data).
  assert (Hstatic :
    py_slice (Z.of_nat (length bands) - Z.of_nat ns) (Z.of_nat (length bands))
      bands = static_data).
  { replace (Z.of_nat (length bands) - Z.of_nat ns)
      with (Z.of_nat (bpt * nt)) by lia.
    rewrite py_slice_inside by lia. subst static_data. f_equal. lia. }
  assert (Hstatic_len : length static_data = ns).
  { subst static_data. rewrite length_firstn, length_skipn. lia. }
  assert (Hstep : forall t, (t < nt)%nat ->
    py_slice (Z.of_nat t * Z.of_nat bpt) ((Z.of_nat t + 1) * Z.of_nat bpt) bands
    = firstn bpt (skipn (t * bpt) bands)).
  { intros t Ht.
    replace (Z.of_nat t * Z.of_nat bpt) with (Z.of_nat (t * bpt)) by lia.
    replace ((Z.of_nat t + 1) * Z.of_nat bpt)
      with (Z.of_nat (t * bpt + bpt)) by lia.
    assert (t * bpt + bpt <= bpt * nt)%nat by nia.
    rewrite py_slice_inside by lia. f_equal. lia. }
  assert (Hstep_len : forall t, (t < nt)%nat ->
    length (firstn bpt (skipn (t * bpt) bands)) = bpt).
  { intros t Ht. assert (t * bpt + bpt <= bpt * nt)%nat by nia.
    rewrite length_firstn, length_skipn. lia. }
  assert (HmapM :
    mapM (fun timestep =>
            let time_specific_da :=
              py_slice (timestep * Z.of_nat bpt)
                ((timestep + 1) * Z.of_nat bpt) bands in
            let time_specific_da := time_specific_da ++ static_data in
            if (length time_specific_da =? bpt + ns)%nat
            then Ok time_specific_da
            else Raise ValueError)
      (py_range NUM_TIMESTEPS)
    = Ok (List.map (fun timestep => g (Z.to_nat timestep))
            (py_range NUM_TIMESTEPS))).
  { apply mapM_ok. intros timestep Hin.
    apply py_range_In in Hin as (t & -> & Ht). cbv zeta.
    rewrite Hstep by assumption. rewrite Nat2Z.id. subst g. cbv beta.
    rewrite length_app, Hstep_len, Hstatic_len by assumption.
    now rewrite Nat.eqb_refl. }
  assert (Hvalues : List.map (fun timestep => g (Z.to_nat timestep))
                      (py_range NUM_TIMESTEPS)
                    = List.map g (seq 0 nt)).
  { unfold py_range. rewrite map_map. apply map_ext. intros t.
    now rewrite Nat2Z.id. }
  exists {| stack_time :=
              List.map (fun i => start_date + DAYS_PER_TIMESTEP * i)
                (py_range NUM_TIMESTEPS);
            stack_values := List.map g (seq 0 nt);
            stack_x := ras_x da; stack_y := ras_y da;
            band_descriptions := BANDS DYNAMIC_BANDS STATIC_BANDS |}.
  split.
  { unfold load_tif. fold bands bpt ns.
    destruct (Z.eqb_spec (Z.of_nat (length bands) - Z.of_nat ns)
                (Z.of_nat bpt * NUM_TIMESTEPS)) as [_ | Hne]; [| lia].
    cbn [py_assert bind]. rewrite Hsl. cbn [bind]. rewrite Hstatic.
    unfold getitem.
    assert (Hlook : static_data !! sl = Some (nth (bpt * nt + sl) bands [])).
    { subst static_data. rewrite lookup_take_lt, lookup_drop by assumption.
      rewrite nth_lookup.
      destruct (lookup_lt_is_Some_2 bands (bpt * nt + sl)) as [v Hv]; [lia |].
      now rewrite Hv. }
    rewrite Hlook. cbn [bind]. cbv zeta in HmapM. rewrite HmapM. cbn [bind].
    rewrite Hvalues.
    destruct nt as [| n] eqn:Ent; [lia |]. reflexivity. }
  cbn [stack_values stack_time stack_x stack_y].
  split; [now rewrite length_map, length_seq |].
  split; [unfold py_range; now rewrite map_map |].
  split; [reflexivity |]. split; [reflexivity |].
  intros t Ht. cbv zeta.
  rewrite (nth_indep _ [] (g 0%nat)) by now rewrite length_map, length_seq.
  rewrite map_nth, seq_nth by assumption. cbn [Nat.add]. subst g. cbv beta.
  split; [| split].
  - unfold RAW_BANDS. rewrite !length_app, Hstep_len, Hstatic_len by assumption.
    reflexivity.
  - intros j Hj. rewrite app_nth1 by (rewrite Hstep_len; assumption).
    assert (t * bpt + bpt <= bpt * nt)%nat by nia.
    rewrite !nth_lookup, lookup_take_lt, lookup_drop by assumption.
    reflexivity.
  - intros k Hk. rewrite app_nth2 by (rewrite Hstep_len by assumption; lia).
    rewrite Hstep_len by assumption.
    replace (bpt + k - bpt)%nat with k by lia. subst static_data.
    rewrite !nth_lookup, lookup_take_lt, lookup_drop by assumption.
    reflexivity.
Qed.

Lemma load_tif_regroups_bands_witness :
  exists stack,
    load_tif demo_dynamic demo_static 2 30 demo_nanmean_grid demo_raster 100
    = Ok (stack, 1%float)
    /\ length (stack_values stack) = 2%nat
    /\ stack_time stack = [100; 130]
    /\ nth 1 (stack_values stack) []
       = [[[11; 12]]; [[13; 14]]; [[15; 16]]; [[17; 18]]; [[0.5; 1.5]]]%float.
Proof.
  destruct (load_tif_regroups_bands demo_dynamic demo_static 2 30
              demo_nanmean_grid demo_raster 100 0 ltac:(lia) eq_refl eq_refl)
    as [(stack & Hrun & Hlen & Htime & _) _].
  exists stack. split; [exact Hrun |]. split; [exact Hlen |].
  split; [exact Htime |].
  vm_compute in Hrun. injection Hrun as <-. reflexivity.
Defined.

(** X4: The attribute "band_descriptions" that [load_tif] sets is the final
    band order, while the array still has the raw bands: with both removed
    bands in the catalog, every time step holds one band more than there are
    descriptions. *)
Theorem load_tif_band_descriptions {F : Type}
    (DYNAMIC_BANDS STATIC_BANDS : list string)
    (NUM_TIMESTEPS DAYS_PER_TIMESTEP : Z)
    (nanmean_grid : list (list F) -> F) (da : Raster F) (start_date : Z)
    (stack : TimeStack F) (average_slope : F) :
  List.NoDup DYNAMIC_BANDS ->
  In "B1" DYNAMIC_BANDS -> In "B10" DYNAMIC_BANDS ->
  load_tif DYNAMIC_BANDS STATIC_BANDS NUM_TIMESTEPS DAYS_PER_TIMESTEP
    nanmean_grid da start_date = Ok (stack, average_slope) ->
  band_descriptions stack = BANDS DYNAMIC_BANDS STATIC_BANDS
  /\ stack_values stack <> []
  /\ Forall (fun bands =>
               length bands = length (RAW_BANDS DYNAMIC_BANDS STATIC_BANDS)
               /\ length bands = S (length (band_descriptions stack)))
       (stack_values stack).
Proof.
  intros Hnd Hb1 Hb10 Hrun. unfold load_tif in Hrun.
  step_bind Hrun. step_bind Hrun. step_bind Hrun. step_bind Hrun.
  apply mapM_Forall in E2.
  destruct a2 as [| g gs] eqn:Ea; [discriminate |].
  injection Hrun as <- _. cbn [band_descriptions stack_values].
  split; [reflexivity |]. split; [discriminate |].
  pose proof (BANDS_length DYNAMIC_BANDS STATIC_BANDS Hnd Hb1 Hb10) as Hlen.
  change (length REMOVED_BANDS) with 2%nat in Hlen.
  eapply Forall2_Forall_r; [exact E2 |].
  apply List.Forall_forall. intros timestep _ bands Hb. cbv zeta in Hb.
  match type of Hb with
  | (if (?n =? ?m)%nat then _ else _) = _ =>
      destruct (Nat.eqb_spec n m) as [En | _]; [| discriminate]
  end.
  injection Hb as <-. unfold RAW_BANDS. rewrite En, length_app.
  split; [reflexivity | lia].
Qed.

Lemma load_tif_band_descriptions_witness :
  exists stack,
    load_tif demo_dynamic demo_static 2 30 demo_nanmean_grid demo_raster 100
    = Ok (stack, 1%float)
    /\ band_descriptions stack = ["B4"; "B8"; "slope"; "NDVI"]
    /\ stack_values stack <> []
    /\ Forall (fun bands =>
                 length bands = 5%nat
                 /\ length bands = S (length (band_descriptions stack)))
         (stack_values stack).
Proof.
  destruct (load_tif demo_dynamic demo_static 2 30 demo_nanmean_grid
              demo_raster 100) as [[stack s] | e] eqn:Hrun;
    [| vm_compute in Hrun; discriminate].
  assert (Hs : s = 1%float) by (vm_compute in Hrun; now injection Hrun).
  subst s. exists stack. split; [reflexivity |].
  apply (load_tif_band_descriptions demo_dynamic demo_static 2 30
           demo_nanmean_grid demo_raster 100 stack 1%float
           demo_dynamic_NoDup);
    [cbn; tauto | cbn; tauto | exact Hrun].
Defined.
(** ** NDVI over the reals *)

Lemma ndvi_value_bounds (nir red : R) :
  (0 <= nir)%R -> (0 <= red)%R ->
  (-1 <= ndvi_value nir red <= 1)%R.
Proof.
  intros Hn Hr. unfold ndvi_value. cbn [s_ltb s_zero s_add s_sub s_div real_scalar].
  unfold Rltb. destruct (Rlt_dec 0 (nir + red)) as [Hpos | _]; [| lra].
  set (q := ((nir - red) / (nir + red))%R).
  assert (Hq : (q * (nir + red) = nir - red)%R) by (subst q; field; lra).
  split; nra.
Qed.

(** X5: Over the reals, on rows whose near-infrared and red entries are not
    negative, the band that [calculate_ndvi] appends lies between -1 and
    1. *)
Theorem calculate_ndvi_within_unit_interval
    (DYNAMIC_BANDS STATIC_BANDS : list string) (i1 i2 T B : nat)
    (d : list (list R)) :
  index "B8" (BANDS DYNAMIC_BANDS STATIC_BANDS) = Ok i1 ->
  index "B4" (BANDS DYNAMIC_BANDS STATIC_BANDS) = Ok i2 ->
  (i1 < B)%nat -> (i2 < B)%nat ->
  Forall (fun r => length r = B
                   /\ (0 <= nth i1 r 0)%R /\ (0 <= nth i2 r 0)%R) d ->
  exists out,
    calculate_ndvi DYNAMIC_BANDS STATIC_BANDS (Arr2 T B d)
    = Ok (Arr2 T (S B) out)
    /\ length out = length d
    /\ Forall (fun r' => length r' = S B /\ (-1 <= nth B r' 0 <= 1)%R) out.
Proof.
  intros H1 H2 Hi1 Hi2 Hd.
  exists (List.map (ndvi_row i1 i2) d).
  split; [now apply calculate_ndvi_rank2 |].
  split; [now rewrite length_map |].
  apply Forall_map. eapply Forall_impl; [exact Hd |].
  intros r (Hlen & Hn & Hr). cbv beta.
  split; [rewrite ndvi_row_length; lia |].
  pose proof (ndvi_row_last i1 i2 r) as Hl. rewrite Hlen in Hl.
  change (nth B (ndvi_row i1 i2 r) 0%R
          = ndvi_value (nth i1 r 0%R) (nth i2 r 0%R)) in Hl.
  rewrite Hl. now apply ndvi_value_bounds.
Qed.

Lemma calculate_ndvi_within_unit_interval_witness :
  exists out,
    calculate_ndvi demo_dynamic demo_static
      (Arr2 1 5 [[1; 3; 0; 0; 0]%R]) = Ok (Arr2 1 6 out)
    /\ length out = 1%nat
    /\ Forall (fun r' => length r' = 6%nat /\ (-1 <= nth 5 r' 0 <= 1)%R) out.
Proof.
  apply (calculate_ndvi_within_unit_interval demo_dynamic demo_static 1 0 1 5
           [[1; 3; 0; 0; 0]%R] eq_refl eq_refl); [lia | lia |].
  constructor; [| constructor]. cbn. split; [reflexivity | split; lra].
Defined.
(** ** The columns NDVI is computed from *)

Lemma index_app_l (x : string) (l r : list string) (j : nat) :
  index x l = Ok j -> index x (l ++ r) = Ok j.
Proof.
  revert j. induction l as [| y l IH]; intros j E; simpl in *; [discriminate |].
  destruct (String.eqb x y); [assumption |].
  step_bind E. injection E as <-. now rewrite (IH a).
Qed.

Lemma index_filter (p : string -> bool) (x : string) (l : list string)
    (j : nat) :
  index x l = Ok j -> p x = true ->
  index x (List.filter p l) = Ok (length (List.filter p (firstn j l))).
Proof.
  revert j. induction l as [| y l IH]; intros j E Hp; simpl in *;
    [discriminate |].
  destruct (String.eqb_spec x y) as [<- | Hne].
  - injection E as <-. rewrite Hp. simpl. now rewrite String.eqb_refl.
  - step_bind E. injection E as <-. cbn [firstn List.filter].
    destruct (p y); simpl.
    + destruct (String.eqb_spec x y) as [-> | _]; [contradiction |].
      now rewrite (IH a).
    + now apply IH.
Qed.

Lemma index_first (x : string) (l : list string) (j k : nat) :
  index x l = Ok j -> (k < j)%nat -> nth k l "" <> x.
Proof.
  revert j k. induction l as [| y l IH]; intros j k E Hk; simpl in E;
    [discriminate |].
  destruct (String.eqb_spec x y) as [<- | Hne].
  - injection E as <-. lia.
  - step_bind E. injection E as <-. destruct k as [| k]; simpl.
    + congruence.
    + apply (IH a); [reflexivity | lia].
Qed.

Lemma filter_split_length {A : Type} (p : A -> bool) (l : list A) :
  (length (List.filter p l) + length (List.filter (fun x => negb (p x)) l)
   = length l)%nat.
Proof.
  induction l as [| x l IH]; simpl; [reflexivity |].
  destruct (p x); simpl; lia.
Qed.

(** X6: [calculate_ndvi] looks B8 and B4 up in the final band order, and
    [process_single_file] gives it the array with the raw bands: the column
    it reads for a band is the band's raw column moved down by the number of
    removed bands that come before it, so another band's column whenever a
    removed band comes before. *)
Theorem calculate_ndvi_reads_shifted_columns {F : Type} `{ScalarLaws F}
    (DYNAMIC_BANDS STATIC_BANDS : list string) (j8 j4 T : nat)
    (d : list (list F)) :
  index "B8" DYNAMIC_BANDS = Ok j8 -> index "B4" DYNAMIC_BANDS = Ok j4 ->
  let shift := fun j =>
    length (List.filter (fun x => py_in x REMOVED_BANDS)
              (firstn j DYNAMIC_BANDS)) in
  let RAW := RAW_BANDS DYNAMIC_BANDS STATIC_BANDS in
  calculate_ndvi DYNAMIC_BANDS STATIC_BANDS (Arr2 T (length RAW) d)
  = Ok (Arr2 T (S (length RAW))
          (List.map (ndvi_row (j8 - shift j8) (j4 - shift j4)) d))
  /\ index "B8" RAW = Ok j8 /\ index "B4" RAW = Ok j4
  /\ ((0 < shift j8)%nat -> nth (j8 - shift j8) RAW "" <> "B8")
  /\ ((0 < shift j4)%nat -> nth (j4 - shift j4) RAW "" <> "B4").
Proof.
  intros H8 H4 shift RAW.
  assert (Hpos : forall band j, index band DYNAMIC_BANDS = Ok j ->
            py_in band REMOVED_BANDS = false ->
            index band (BANDS DYNAMIC_BANDS STATIC_BANDS) = Ok (j - shift j)%nat
            /\ (j - shift j < length RAW)%nat
            /\ index band RAW = Ok j
            /\ ((0 < shift j)%nat -> nth (j - shift j) RAW "" <> band)).
  { intros band j Hj Hkeep.
    pose proof (index_lt _ _ _ Hj) as Hlt.
    pose proof (filter_split_length (fun x => py_in x REMOVED_BANDS)
                  (firstn j DYNAMIC_BANDS)) as Hsplit.
    rewrite length_firstn, Nat.min_l in Hsplit by lia. fold (shift j) in Hsplit.
    assert (Hraw : index band RAW = Ok j) by now apply index_app_l.
    split; [| split; [| split]].
    - unfold BANDS. erewrite index_app_l; [reflexivity |].
      rewrite (index_filter _ band DYNAMIC_BANDS j Hj)
        by (now rewrite Hkeep).
      f_equal. lia.
    - subst RAW. unfold RAW_BANDS. rewrite length_app. lia.
    - exact Hraw.
    - intros Hs. apply (index_first band RAW j); [exact Hraw | lia]. }
  destruct (Hpos "B8" j8 H8 eq_refl) as (Hi8 & Hb8 & Hr8 & Hn8).
  destruct (Hpos "B4" j4 H4 eq_refl) as (Hi4 & Hb4 & Hr4 & Hn4).
  split; [now apply calculate_ndvi_rank2 |].
  repeat split; assumption.
Qed.

Lemma calculate_ndvi_reads_shifted_columns_witness :
  calculate_ndvi demo_dynamic demo_static
    (Arr2 1 5 [[100; 1; 3; 100; 100]%float])
  = Ok (Arr2 1 6 (List.map (ndvi_row 1 0) [[100; 1; 3; 100; 100]%float]))
  /\ index "B8" (RAW_BANDS demo_dynamic demo_static) = Ok 2%nat
  /\ index "B4" (RAW_BANDS demo_dynamic demo_static) = Ok 1%nat
  /\ ((0 < 1)%nat -> nth 1 (RAW_BANDS demo_dynamic demo_static) "" <> "B8")
  /\ ((0 < 1)%nat -> nth 0 (RAW_BANDS demo_dynamic demo_static) "" <> "B4").
Proof.
  apply (calculate_ndvi_reads_shifted_columns demo_dynamic demo_static 2 1 1
           [[100; 1; 3; 100; 100]%float]); reflexivity.
Defined.
(** ** The band order after removal *)

Lemma map_nth_filter_seq {A : Type} (p : A -> bool) (pre l : list A) (d : A) :
  List.map (fun i => nth i (pre ++ l) d)
    (List.filter (fun i => p (nth i (pre ++ l) d)) (seq (length pre) (length l)))
  = List.filter p l.
Proof.
  revert pre. induction l as [| x l IH]; intros pre; [reflexivity |].
  cbn [length seq List.filter].
  assert (Hx : nth (length pre) (pre ++ x :: l) d = x).
  { rewrite app_nth2 by lia. now rewrite Nat.sub_diag. }
  rewrite Hx.
  specialize (IH (pre ++ [x])).
  rewrite <- app_assoc, length_app in IH. cbn [length app] in IH.
  replace (length pre + 1)%nat with (S (length pre)) in IH by lia.
  destruct (p x); cbn [List.map]; [rewrite Hx; f_equal |]; exact IH.
Qed.

Lemma NoDup_nth_eq (l : list string) (i j : nat) :
  List.NoDup l -> (i < length l)%nat -> (j < length l)%nat ->
  nth i l "" = nth j l "" -> i = j.
Proof. intros Hnd Hi Hj E. now apply (proj1 (List.NoDup_nth l "") Hnd). Qed.

(** X7: On an array with the raw bands and NDVI, [remove_bands] keeps, in their
    order, the columns of the bands that are not removed: column k of what
    it returns is the column of the band that the final band order names at
    position k. *)
Theorem remove_bands_columns_are_BANDS {F : Type} `{Scalar F}
    (DYNAMIC_BANDS STATIC_BANDS : list string) (T : nat) (d : list (list F)) :
  let names := RAW_BANDS DYNAMIC_BANDS STATIC_BANDS ++ ["NDVI"] in
  List.NoDup names -> In "B1" DYNAMIC_BANDS -> In "B10" DYNAMIC_BANDS ->
  exists keep,
    remove_bands DYNAMIC_BANDS STATIC_BANDS (Arr2 T (length names) d)
    = Ok (Arr2 T (length keep) (List.map (pick keep) d))
    /\ List.map (fun i => nth i names "") keep
       = BANDS DYNAMIC_BANDS STATIC_BANDS
    /\ length keep = length (BANDS DYNAMIC_BANDS STATIC_BANDS).
Proof.
  intros names Hnd Hb1 Hb10.
  set (RAW := RAW_BANDS DYNAMIC_BANDS STATIC_BANDS) in *.
  destruct (index_In "B1" RAW) as [r1 Hr1];
    [subst RAW; unfold RAW_BANDS; apply in_or_app; now left |].
  destruct (index_In "B10" RAW) as [r2 Hr2];
    [subst RAW; unfold RAW_BANDS; apply in_or_app; now left |].
  pose proof (index_lt _ _ _ Hr1) as Hlt1.
  pose proof (index_lt _ _ _ Hr2) as Hlt2.
  pose proof (index_nth _ _ _ Hr1) as Hn1.
  pose proof (index_nth _ _ _ Hr2) as Hn2.
  assert (Hlen : length names = S (length RAW)).
  { subst names. rewrite length_app. simpl. lia. }
  assert (Hnames1 : nth r1 names "" = "B1")
    by (subst names; now rewrite app_nth1).
  assert (Hnames2 : nth r2 names "" = "B10")
    by (subst names; now rewrite app_nth1).
  exists (indices_to_keep (length names) [r1; r2]).
  assert (Hkeep : List.map (fun i => nth i names "")
                    (indices_to_keep (length names) [r1; r2])
                  = BANDS DYNAMIC_BANDS STATIC_BANDS).
  { unfold indices_to_keep.
    rewrite (List.filter_ext_in
               (fun i => negb (nat_in i [r1; r2]))
               (fun i => negb (py_in (nth i names "") REMOVED_BANDS))).
    2:{ intros i Hi. apply in_seq in Hi. f_equal.
        unfold nat_in, py_in, REMOVED_BANDS. cbn [existsb].
        rewrite !orb_false_r.
        destruct (Nat.eqb_spec i r1) as [-> | Hne1].
        - now rewrite Hnames1.
        - destruct (Nat.eqb_spec i r2) as [-> | Hne2].
          + rewrite Hnames2. now rewrite orb_true_r.
          + destruct (String.eqb_spec (nth i names "") "B1") as [E1 | _].
            * exfalso. apply Hne1. rewrite <- Hnames1 in E1.
              apply (NoDup_nth_eq names); [assumption | lia | lia | exact E1].
            * destruct (String.eqb_spec (nth i names "") "B10") as [E2 | _];
                [| reflexivity].
              exfalso. apply Hne2. rewrite <- Hnames2 in E2.
              apply (NoDup_nth_eq names); [assumption | lia | lia | exact E2]. }
    pose proof (map_nth_filter_seq
                  (fun x => negb (py_in x REMOVED_BANDS)) [] names "") as Hm.
    cbn [app length] in Hm. rewrite Hm. clear Hm.
    subst names RAW. unfold RAW_BANDS, BANDS.
    rewrite <- app_assoc, !List.filter_app. f_equal.
    assert (Hs : List.filter (fun x => negb (py_in x REMOVED_BANDS)) STATIC_BANDS
                 = STATIC_BANDS).
    { apply List.forallb_filter_id. apply forallb_forall. intros x Hx.
      apply negb_true_iff. apply not_true_is_false. intros Hin.
      apply py_in_In in Hin. unfold RAW_BANDS in Hnd.
      apply List.NoDup_app_remove_r in Hnd.
      assert (Hd : In x DYNAMIC_BANDS).
      { destruct Hin as [<- | [<- | []]]; assumption. }
      clear - Hnd Hd Hx. induction DYNAMIC_BANDS as [| y l IH]; [contradiction |].
      simpl in Hnd. inversion Hnd as [| ? ? Hny Hnd']; subst.
      destruct Hd as [-> | Hd].
      - apply Hny. apply in_or_app. now right.
      - now apply IH. }
    rewrite Hs. reflexivity. }
  split; [| split].
  - unfold remove_bands. fold RAW. cbn [mapM REMOVED_BANDS].
    rewrite Hr1, Hr2. reflexivity.
  - exact Hkeep.
  - rewrite <- Hkeep. now rewrite length_map.
Qed.

Lemma remove_bands_columns_are_BANDS_witness :
  exists keep,
    remove_bands demo_dynamic demo_static
      (Arr2 1 6 [[1; 2; 3; 4; 5; 6]%float])
    = Ok (Arr2 1 (length keep) (List.map (pick keep) [[1; 2; 3; 4; 5; 6]%float]))
    /\ List.map (fun i => nth i ["B1"; "B4"; "B8"; "B10"; "slope"; "NDVI"] "") keep
       = ["B4"; "B8"; "slope"; "NDVI"]
    /\ length keep = 4%nat.
Proof.
  apply (remove_bands_columns_are_BANDS demo_dynamic demo_static 1
           [[1; 2; 3; 4; 5; 6]%float]).
  - repeat constructor; cbn; intuition discriminate.
  - cbn. tauto.
  - cbn. tauto.
Defined.
(** ** Band removal and imputation, whatever the array *)

Lemma index_not_In (x : string) (l : list string) :
  ~ In x l -> index x l = Raise ValueError.
Proof.
  induction l as [| y l IH]; intros Hn; simpl; [reflexivity |].
  destruct (String.eqb_spec x y) as [-> | _].
  - exfalso. apply Hn. now left.
  - rewrite IH; [reflexivity |]. intros Hin. apply Hn. now right.
Qed.

Lemma index_raises_ValueError (x : string) (l : list string) (e : exn) :
  index x l = Raise e -> e = ValueError.
Proof.
  induction l as [| y l IH]; simpl; [congruence |].
  destruct (String.eqb x y); [discriminate |].
  destruct (index x l); simpl; [discriminate |]. intros E. apply IH.
  congruence.
Qed.

(** X8: [remove_bands] looks both removed bands up among the raw bands before
    anything else: unless B1 and B10 are both raw bands it raises
    ValueError, on every array. *)
Theorem remove_bands_needs_the_removed_bands {F : Type} `{Scalar F}
    (DYNAMIC_BANDS STATIC_BANDS : list string) (a : ndarray F) :
  ~ In "B1" (RAW_BANDS DYNAMIC_BANDS STATIC_BANDS)
  \/ ~ In "B10" (RAW_BANDS DYNAMIC_BANDS STATIC_BANDS) ->
  remove_bands DYNAMIC_BANDS STATIC_BANDS a = Raise ValueError.
Proof.
  intros Hmiss.
  assert (Hm : mapM (fun band => index band (RAW_BANDS DYNAMIC_BANDS STATIC_BANDS))
                 REMOVED_BANDS = Raise ValueError).
  { cbn [mapM REMOVED_BANDS]. destruct Hmiss as [H1 | H10].
    - now rewrite (index_not_In _ _ H1).
    - rewrite (index_not_In _ _ H10).
      destruct (index "B1" (RAW_BANDS DYNAMIC_BANDS STATIC_BANDS)) eqn:E1;
        [reflexivity |].
      now rewrite (index_raises_ValueError _ _ _ E1). }
  destruct a as [T B d | N T B d | sh]; cbn [remove_bands];
    [now rewrite Hm | now rewrite Hm | reflexivity].
Qed.

Lemma remove_bands_needs_the_removed_bands_witness :
  remove_bands ["B4"; "B8"; "B10"] ["slope"]
    (Arr2 1 4 [[1; 2; 3; 4]%float]) = Raise ValueError.
Proof.
  apply remove_bands_needs_the_removed_bands. left. cbn.
  intuition discriminate.
Defined.

Lemma fill_row_length {F : Type} `{Scalar F} (B : nat) (fills r : list F) :
  length (fill_row B fills r) = B.
Proof. unfold fill_row. now rewrite length_map, length_seq. Qed.

Lemma fill_values_Some {F : Type} `{Scalar F}
    (DYNAMIC_BANDS STATIC_BANDS : list string) (k B : nat) (m fills : list F)
    (s : F) :
  fill_values DYNAMIC_BANDS STATIC_BANDS k B m s = Ok (Some fills) ->
  B = length (BANDS DYNAMIC_BANDS STATIC_BANDS)
  /\ length fills = length m
  /\ existsb s_isnan fills = false.
Proof.
  unfold fill_values. intros E.
  destruct (Nat.eqb_spec B (length (BANDS DYNAMIC_BANDS STATIC_BANDS)))
    as [HB | _]; cbn [py_assert bind] in E; [| discriminate].
  split; [exact HB |].
  destruct (existsb s_isnan m) eqn:Hm.
  - step_bind E.
    destruct ((length (List.filter s_isnan m) =? k)%nat
              && s_isnan (nth a m s_zero))%bool; [| discriminate].
    destruct (existsb s_isnan (<[a:=s]> m)) eqn:Hi;
      cbn [negb py_assert bind] in E; [discriminate |].
    injection E as <-. split; [apply length_insert | exact Hi].
  - injection E as <-. split; [reflexivity | exact Hm].
Qed.

Lemma fillna_rank2_Some {F : Type} `{Scalar F}
    (DYNAMIC_BANDS STATIC_BANDS : list string) (T B : nat) (d : list (list F))
    (s : F) (out : ndarray F) :
  fillna DYNAMIC_BANDS STATIC_BANDS (Arr2 T B d) s = Ok (Some out) ->
  exists fills,
    out = Arr2 T B (List.map (fill_row B fills) d)
    /\ B = length (BANDS DYNAMIC_BANDS STATIC_BANDS)
    /\ forall i, (i < B)%nat -> s_isnan (nth i fills s_zero) = false.
Proof.
  intros E. cbn [fillna] in E. step_bind E.
  destruct a as [fills |]; [| discriminate]. injection E as <-.
  apply fill_values_Some in E0 as (HB & Hlen & Hnan).
  rewrite nanmean_axis0_length in Hlen.
  exists fills. split; [reflexivity |]. split; [exact HB |].
  intros i Hi. apply (proj1 (existsb_nth_false _ fills s_zero) Hnan). lia.
Qed.

Lemma fillna_rank3_Some {F : Type} `{Scalar F}
    (DYNAMIC_BANDS STATIC_BANDS : list string) (N T B : nat)
    (d : list (list (list F))) (s : F) (out : ndarray F) :
  fillna DYNAMIC_BANDS STATIC_BANDS (Arr3 N T B d) s = Ok (Some out) ->
  exists fills,
    out = Arr3 N T B (List.map (List.map (fill_row B fills)) d)
    /\ B = length (BANDS DYNAMIC_BANDS STATIC_BANDS)
    /\ forall i, (i < B)%nat -> s_isnan (nth i fills s_zero) = false.
Proof.
  intros E. cbn [fillna] in E. step_bind E.
  destruct a as [fills |]; [| discriminate]. injection E as <-.
  apply fill_values_Some in E0 as (HB & Hlen & Hnan).
  rewrite nanmean_axis0_length in Hlen.
  exists fills. split; [reflexivity |]. split; [exact HB |].
  intros i Hi. apply (proj1 (existsb_nth_false _ fills s_zero) Hnan). lia.
Qed.

(** X9: Whatever the array and the slope, an array that [fillna] returns has
    the shape of the array it was given, the final band order's number of
    bands on its last axis, and no NaN entry. *)
Theorem fillna_returns_no_nan {F : Type} `{ScalarLaws F}
    (DYNAMIC_BANDS STATIC_BANDS : list string) (a out : ndarray F)
    (average_slope : F) :
  fillna DYNAMIC_BANDS STATIC_BANDS a average_slope = Ok (Some out) ->
  shape out = shape a
  /\ last_axis out = Some (length (BANDS DYNAMIC_BANDS STATIC_BANDS))
  /\ (wf_array a -> wf_array out)
  /\ all_entries (fun v => s_isnan v = false) out.
Proof.
  intros E. destruct a as [T B d | N T B d | sh]; [| | discriminate].
  - apply fillna_rank2_Some in E as (fills & -> & HB & Hfill).
    cbn [shape last_axis wf_array all_entries].
    split; [reflexivity |]. split; [now rewrite HB |]. split.
    + intros [HT _]. split; [now rewrite length_map |].
      apply Forall_map, Forall_true. intros r. apply fill_row_length.
    + apply Forall_map, Forall_true. intros r. now apply fill_row_not_nan.
  - apply fillna_rank3_Some in E as (fills & -> & HB & Hfill).
    cbn [shape last_axis wf_array all_entries].
    split; [reflexivity |]. split; [now rewrite HB |]. split.
    + intros [HN Hpx]. split; [now rewrite length_map |].
      apply Forall_map. eapply Forall_impl; [exact Hpx |].
      intros px [HT _]. split; [now rewrite length_map |].
      apply Forall_map, Forall_true. intros r. apply fill_row_length.
    + apply Forall_map, Forall_true. intros px.
      apply Forall_map, Forall_true. intros r. now apply fill_row_not_nan.
Qed.

Lemma fillna_returns_no_nan_witness :
  let a := Arr2 2 4 [[1; 2; nan; 0.5]; [3; 2; nan; 0.5]]%float in
  let out := Arr2 2 4 [[1; 2; 3; 0.5]; [3; 2; 3; 0.5]]%float in
  shape out = shape a
  /\ last_axis out = Some (length (BANDS demo_dynamic demo_static))
  /\ (wf_array a -> wf_array out)
  /\ all_entries (fun v => s_isnan v = false) out.
Proof.
  apply (fillna_returns_no_nan demo_dynamic demo_static _ _ 3%float).
  vm_compute. reflexivity.
Defined.

Lemma filter_insert_length {A : Type} (p : A -> bool) (l : list A) (i : nat)
    (v : A) :
  (length (List.filter p l) <= S (length (List.filter p (<[i:=v]> l))))%nat.
Proof.
  revert i. induction l as [| x l IH]; intros i; [simpl; lia |].
  destruct i as [| i]; simpl.
  - destruct (p x), (p v); simpl; lia.
  - specialize (IH i). destruct (p x); simpl; lia.
Qed.

Lemma existsb_filter_pos {A : Type} (p : A -> bool) (l : list A) :
  (0 < length (List.filter p l))%nat -> existsb p l = true.
Proof.
  induction l as [| x l IH]; simpl; [lia |].
  destruct (p x); simpl; [reflexivity | exact IH].
Qed.

(** X10: For an array of rank 3 the slope is never filled in from the average
    slope: when a band mean is NaN, [fillna] asks for two NaN means where
    one, the slope's, would do, so it returns None, or, with the slope's and
    one more mean NaN, fails its own assertion. *)
Theorem fillna_rank3_never_fills_slope {F : Type} `{Scalar F}
    (DYNAMIC_BANDS STATIC_BANDS : list string) (N T sl : nat)
    (d : list (list (list F))) (average_slope : F) :
  index "slope" (BANDS DYNAMIC_BANDS STATIC_BANDS) = Ok sl ->
  let B := length (BANDS DYNAMIC_BANDS STATIC_BANDS) in
  let m := nanmean_axis0 B (nanmean3_axis0 T B d) in
  existsb s_isnan m = true ->
  fillna DYNAMIC_BANDS STATIC_BANDS (Arr3 N T B d) average_slope
  = if ((length (List.filter s_isnan m) =? 2)%nat
        && s_isnan (nth sl m s_zero))%bool
    then Raise AssertionError
    else Ok None.
Proof.
  intros Hsl B m Hnan. cbn [fillna]. fold B. fold m.
  unfold fill_values. fold B. rewrite Nat.eqb_refl. cbn [py_assert bind].
  rewrite Hnan, Hsl. cbn [bind].
  destruct ((length (List.filter s_isnan m) =? 2)%nat
            && s_isnan (nth sl m s_zero))%bool eqn:Hc; [| reflexivity].
  apply andb_true_iff in Hc as [Hcount _]. apply Nat.eqb_eq in Hcount.
  pose proof (filter_insert_length s_isnan m sl average_slope) as Hle.
  rewrite (existsb_filter_pos s_isnan (<[sl:=average_slope]> m)) by lia.
  reflexivity.
Qed.

Lemma fillna_rank3_never_fills_slope_witness :
  fillna demo_dynamic demo_static
    (Arr3 1 2 4 [[[1; 2; nan; 0.5]; [3; 2; nan; 0.5]]]%float) 3%float
  = Ok None.
Proof.
  pose proof (fillna_rank3_never_fills_slope demo_dynamic demo_static 1 2 2
                [[[1; 2; nan; 0.5]; [3; 2; nan; 0.5]]]%float 3%float
                eq_refl eq_refl) as Hw.
  cbv zeta in Hw. exact Hw.
Defined.
(** ** Nearest-coordinate snapping: ties and exact hits *)

Section ArgminFirst.
Context {F : Type} `{OrderLaws F}.

Lemma argmin_loop_first (l pre : list F) (mp : F) (min_ind : nat) :
  Forall (fun x => s_isnan x = false) pre ->
  Forall (fun x => s_isnan x = false) l ->
  (min_ind < length pre)%nat -> nth min_ind pre s_zero = mp ->
  (forall j, (j < length pre)%nat -> s_leb mp (nth j pre s_zero) = true) ->
  (forall j, (j < min_ind)%nat -> s_leb (nth j pre s_zero) mp = false) ->
  let k := argmin_loop mp min_ind (length pre) l in
  (k < length (pre ++ l))%nat
  /\ (forall j, (j < length (pre ++ l))%nat ->
        s_leb (nth k (pre ++ l) s_zero) (nth j (pre ++ l) s_zero) = true)
  /\ (forall j, (j < k)%nat ->
        s_leb (nth j (pre ++ l) s_zero) (nth k (pre ++ l) s_zero) = false).
Proof.
  revert pre mp min_ind.
  induction l as [| x r IH]; intros pre mp min_ind Hpre Hl Hmin Hmp Hle Hgt;
    cbv zeta; cbn [argmin_loop].
  - rewrite app_nil_r, Hmp. split; [exact Hmin |]. split; [exact Hle | exact Hgt].
  - inversion Hl as [| ? ? Hx Hr]; subst.
    assert (Hmpn : s_isnan (nth min_ind pre s_zero) = false).
    { apply (proj1 (List.Forall_forall _ pre) Hpre). now apply nth_In. }
    assert (Hpre' : Forall (fun y => s_isnan y = false) (pre ++ [x])).
    { apply Forall_app. split; [assumption | now constructor]. }
    assert (Hlen' : length (pre ++ [x]) = S (length pre)).
    { rewrite length_app. simpl. lia. }
    assert (Happ : (pre ++ [x]) ++ r = pre ++ x :: r)
      by now rewrite <- app_assoc.
    destruct (s_leb (nth min_ind pre s_zero) x) eqn:Ele.
    + specialize (IH (pre ++ [x]) (nth min_ind pre s_zero) min_ind Hpre' Hr).
      rewrite Hlen', Happ in IH. apply IH.
      * lia.
      * now rewrite app_nth1.
      * intros j Hj. destruct (Nat.eq_dec j (length pre)) as [-> | Hne].
        -- rewrite app_nth2, Nat.sub_diag by lia. exact Ele.
        -- rewrite app_nth1 by lia. apply Hle. lia.
      * intros j Hj. rewrite app_nth1 by lia. now apply Hgt.
    + rewrite Hx.
      assert (Hxm : s_leb x (nth min_ind pre s_zero) = true)
        by now apply leb_total.
      specialize (IH (pre ++ [x]) x (length pre) Hpre' Hr).
      rewrite Hlen', Happ in IH. apply IH.
      * lia.
      * now rewrite app_nth2, Nat.sub_diag by lia.
      * intros j Hj. destruct (Nat.eq_dec j (length pre)) as [-> | Hne].
        -- rewrite app_nth2, Nat.sub_diag by lia. now apply leb_refl.
        -- rewrite app_nth1 by lia.
           apply (leb_trans _ (nth min_ind pre s_zero)); [exact Hxm |].
           apply Hle. lia.
      * intros j Hj. rewrite app_nth1 by lia.
        destruct (s_leb (nth j pre s_zero) x) eqn:Ej; [| reflexivity].
        rewrite <- Ele. symmetry.
        apply (leb_trans _ (nth j pre s_zero)); [now apply Hle | exact Ej].
Qed.

Lemma argmin_first (l : list F) :
  l <> [] -> Forall (fun x => s_isnan x = false) l ->
  exists k, argmin l = Ok k /\ (k < length l)%nat
    /\ (forall j, (j < length l)%nat ->
          s_leb (nth k l s_zero) (nth j l s_zero) = true)
    /\ (forall j, (j < k)%nat ->
          s_leb (nth j l s_zero) (nth k l s_zero) = false).
Proof.
  intros Hne Hl. destruct l as [| x r]; [congruence |].
  inversion Hl as [| ? ? Hx Hr]; subst.
  cbn [argmin]. rewrite Hx. eexists. split; [reflexivity |].
  apply (argmin_loop_first r [x] x 0%nat); cbn [length nth].
  - now constructor.
  - exact Hr.
  - lia.
  - reflexivity.
  - intros j Hj. replace j with 0%nat by lia. now apply leb_refl.
  - intros j Hj. lia.
Qed.

End ArgminFirst.

(** X11: When no difference to the target is NaN, [find_nearest] returns the
    first of the entries that are nearest: every entry before the one it
    returns is farther from the target, and no entry is nearer. *)
Theorem find_nearest_first_of_ties {F : Type} `{OrderLaws F}
    (array : list F) (value : F) :
  array <> [] ->
  Forall (fun a => s_isnan (s_abs (s_sub a value)) = false) array ->
  let diff := fun a => s_abs (s_sub a value) in
  exists k,
    (k < length array)%nat
    /\ find_nearest array value = Ok (nth k array s_zero)
    /\ (forall j, (j < length array)%nat ->
          s_leb (diff (nth k array s_zero)) (diff (nth j array s_zero)) = true)
    /\ (forall j, (j < k)%nat ->
          s_leb (diff (nth j array s_zero)) (diff (nth k array s_zero)) = false).
Proof.
  intros Hne Hnan diff.
  destruct (argmin_first (List.map diff array)) as (k & Hk & Hlt & Hmin & Hfirst).
  { destruct array; [congruence | discriminate]. }
  { now apply Forall_map. }
  rewrite length_map in Hlt, Hmin.
  assert (Hnth : forall j, (j < length array)%nat ->
            nth j (List.map diff array) s_zero = diff (nth j array s_zero)).
  { intros j Hj.
    rewrite (nth_indep _ s_zero (diff s_zero)) by now rewrite length_map.
    apply map_nth. }
  exists k. split; [exact Hlt |]. split.
  - unfold find_nearest. fold diff. now rewrite Hk.
  - split.
    + intros j Hj. rewrite <- !Hnth by assumption. now apply Hmin.
    + intros j Hj. rewrite <- !Hnth by lia. now apply Hfirst.
Qed.

Lemma find_nearest_first_of_ties_witness :
  let diff := fun a => s_abs (s_sub a 2%float) in
  exists k,
    (k < 3)%nat
    /\ find_nearest [4; 1; 3]%float 2%float = Ok (nth k [4; 1; 3]%float s_zero)
    /\ (forall j, (j < 3)%nat ->
          s_leb (diff (nth k [4; 1; 3]%float s_zero))
                (diff (nth j [4; 1; 3]%float s_zero)) = true)
    /\ (forall j, (j < k)%nat ->
          s_leb (diff (nth j [4; 1; 3]%float s_zero))
                (diff (nth k [4; 1; 3]%float s_zero)) = false).
Proof.
  apply (find_nearest_first_of_ties [4; 1; 3]%float 2%float).
  - discriminate.
  - repeat constructor.
Defined.

Example find_nearest_tie : find_nearest [4; 1; 3]%float 2%float = Ok 1%float.
Proof. vm_compute. reflexivity. Qed.

(** X12: Over the reals, a target that is itself a coordinate of the array is
    snapped to itself. *)
Theorem find_nearest_exact_hit (array : list R) (value : R) :
  In value array -> find_nearest array value = Ok value.
Proof.
  intros Hin.
  destruct (find_nearest_spec array value) as (r & Hr & _ & Hmin).
  { intros ->. contradiction. }
  { apply List.Forall_forall. reflexivity. }
  rewrite Hr. f_equal.
  pose proof (proj1 (List.Forall_forall _ array) Hmin value Hin) as Hle.
  cbn [s_leb s_abs s_sub real_scalar] in Hle. unfold Rleb in Hle.
  destruct (Rle_dec (Rabs (r - value)) (Rabs (value - value))) as [Hd | _];
    [| discriminate].
  replace (value - value)%R with 0%R in Hd by lra. rewrite Rabs_R0 in Hd.
  pose proof (Rabs_pos (r - value)) as Hp.
  assert (Hz : Rabs (r - value) = 0%R) by lra.
  destruct (Req_dec (r - value) 0) as [E | Hn]; [lra |].
  apply Rabs_no_R0 in Hn. contradiction.
Qed.

Lemma find_nearest_exact_hit_witness :
  find_nearest [1; 2.5; 4]%R 2.5%R = Ok 2.5%R.
Proof.
  apply find_nearest_exact_hit. right. left. reflexivity.
Defined.
(** ** The online normalizer: rows of another width, and chunks *)

Lemma broadcast2_mismatch {A : Type} (op : A -> A -> A) (a b : list A) :
  length a <> length b -> length a <> 1%nat -> length b <> 1%nat ->
  broadcast2 op a b = Raise ValueError.
Proof.
  intros Hab Ha Hb. unfold broadcast2.
  destruct (Nat.eqb_spec (length a) (length b)) as [E | _]; [contradiction |].
  destruct a as [| x [| x' a]]; destruct b as [| y [| y' b]];
    simpl in *; try reflexivity; congruence.
Qed.

Lemma zip_with_repeat_l {A C D : Type} (op : A -> C -> D) (v : A) (b : list C) :
  zip_with op (repeat v (length b)) b = List.map (op v) b.
Proof. induction b as [| y b IH]; simpl; [reflexivity | now rewrite IH]. Qed.

Lemma broadcast2_stretch {A : Type} (op : A -> A -> A) (v : A) (b : list A) :
  broadcast2 op [v] b = broadcast2 op (repeat v (length b)) b.
Proof.
  unfold broadcast2 at 2. rewrite repeat_length, Nat.eqb_refl.
  rewrite zip_with_repeat_l. unfold broadcast2.
  destruct (Nat.eqb_spec (length [v]) (length b)) as [E | _]; [| reflexivity].
  destruct b as [| y [| y' b]]; simpl in E; try discriminate. reflexivity.
Qed.

Lemma inplace_length {A : Type} (op : A -> A -> A) (a b r : list A) :
  inplace op a b = Ok r -> length r = length a.
Proof.
  unfold inplace. intros E. step_bind E.
  destruct (Nat.eqb_spec (length a0) (length a)) as [El | _]; [| discriminate].
  now injection E as <-.
Qed.

Lemma welford_step_stretch {F : Type} `{Scalar F} (n : Z) (mean M2 : list F)
    (v : F) :
  welford_step (n, mean, M2) [v]
  = welford_step (n, mean, M2) (repeat v (length mean)).
Proof.
  unfold welford_step. rewrite (broadcast2_stretch s_sub v mean).
  destruct (broadcast2 s_sub (repeat v (length mean)) mean) as [delta |];
    cbn [bind]; [| reflexivity].
  destruct (inplace s_add mean
              (List.map (fun v0 => s_div v0 (s_of_int (n + 1))) delta))
    as [mean' |] eqn:Em; cbn [bind]; [| reflexivity].
  apply inplace_length in Em.
  now rewrite (broadcast2_stretch s_sub v mean'), Em.
Qed.

(** X13: Once the normalizer holds the statistics of some number of bands, an
    array whose rows have another number of entries raises ValueError;
    except that a row of one entry is taken for every band at once, numpy
    stretching it over the bands. *)
Theorem update_normalizing_values_other_width {F : Type} `{Scalar F}
    (st : norm_interim F) (mean M2 : list F) :
  ni_stats st = Some (mean, M2) ->
  (forall (num_bands : nat) (x : list F) (rest : list (list F)),
     length x <> length mean -> length x <> 1%nat ->
     update_normalizing_values st num_bands (x :: rest) = Raise ValueError)
  /\ (forall v : F,
        update_normalizing_values st 1 [[v]]
        = update_normalizing_values st (length mean) [repeat v (length mean)]).
Proof.
  intros Hst. split.
  - intros num_bands x rest Hne H1.
    unfold update_normalizing_values. rewrite Hst.
    cbn [welford_rows]. unfold welford_step.
    destruct (Nat.eq_dec (length mean) 1) as [Hm | Hm].
    + destruct mean as [| m [| m' mean]]; simpl in Hm; try discriminate.
      destruct (broadcast2 s_sub x [m]) as [delta |] eqn:Ed; cbn [bind].
      * assert (Hdl : length delta = length x).
        { unfold broadcast2 in Ed.
          destruct (Nat.eqb_spec (length x) (length [m])) as [E | _];
            [simpl in E; lia |].
          destruct x as [| x0 [| x1 x]]; simpl in *; try lia;
            injection Ed as <-; simpl; rewrite ?length_map; reflexivity. }
        unfold inplace at 1. unfold broadcast2.
        rewrite length_map, Hdl.
        destruct (Nat.eqb_spec (length [m]) (length x)) as [E | _];
          [simpl in E; lia |].
        cbn [bind]. rewrite length_map, length_map, Hdl.
        destruct (Nat.eqb_spec (length x) (length [m])) as [E | _];
          [simpl in E; lia | reflexivity].
      * unfold broadcast2 in Ed.
        destruct (Nat.eqb_spec (length x) (length [m])) as [E | _];
          [discriminate |].
        destruct x as [| x0 [| x1 x]]; discriminate.
    + rewrite (broadcast2_mismatch s_sub x mean) by assumption. reflexivity.
  - intros v. unfold update_normalizing_values. rewrite Hst.
    cbn [welford_rows]. now rewrite welford_step_stretch.
Qed.

Lemma update_normalizing_values_other_width_witness :
  (forall (num_bands : nat) (x : list float) (rest : list (list float)),
     length x <> 2%nat -> length x <> 1%nat ->
     update_normalizing_values
       {| ni_n := 1; ni_stats := Some ([1; 2]%float, [0; 0]%float) |}
       num_bands (x :: rest) = Raise ValueError)
  /\ (forall v : float,
        update_normalizing_values
          {| ni_n := 1; ni_stats := Some ([1; 2]%float, [0; 0]%float) |}
          1 [[v]]
        = update_normalizing_values
            {| ni_n := 1; ni_stats := Some ([1; 2]%float, [0; 0]%float) |}
            2 [[v; v]]).
Proof.
  apply (update_normalizing_values_other_width
           {| ni_n := 1; ni_stats := Some ([1; 2]%float, [0; 0]%float) |}
           [1; 2]%float [0; 0]%float).
  reflexivity.
Defined.

Lemma welford_rows_app {F : Type} `{Scalar F} (st : Z * list F * list F)
    (rows rows' : list (list F)) :
  welford_rows st (rows ++ rows')
  = (st' <~ welford_rows st rows ;; welford_rows st' rows').
Proof.
  revert st. induction rows as [| x rows IH]; intros st; [reflexivity |].
  cbn [app welford_rows]. destruct (welford_step st x) as [st1 |];
    cbn [bind]; [apply IH | reflexivity].
Qed.

Lemma update_two_calls {F : Type} `{Scalar F} (st : norm_interim F)
    (B B' : nat) (rows rows' : list (list F)) :
  (st1 <~ update_normalizing_values st B rows ;;
   update_normalizing_values st1 B' rows')
  = update_normalizing_values st B (rows ++ rows').
Proof.
  unfold update_normalizing_values at 1 3. cbv zeta.
  destruct (match ni_stats st with
            | Some stats => stats
            | None => (repeat s_zero B, repeat s_zero B)
            end) as [mean M2].
  rewrite welford_rows_app.
  destruct (welford_rows (ni_n st, mean, M2) rows) as [[[n1 mean1] M21] |];
    cbn [bind]; reflexivity.
Qed.

Lemma update_all_stacked {F : Type} `{Scalar F} (rest : list (nat * list (list F)))
    (st : norm_interim F) (B : nat) (d : list (list F)) :
  update_all st ((B, d) :: rest)
  = update_normalizing_values st B (d ++ concat (List.map snd rest)).
Proof.
  revert st B d. induction rest as [| [B' d'] rest IH]; intros st B d.
  - cbn [update_all List.map concat]. rewrite app_nil_r.
    destruct (update_normalizing_values st B d); reflexivity.
  - cbn [List.map concat snd].
    rewrite <- (update_two_calls st B B' d (d' ++ concat (List.map snd rest))).
    change (update_all st ((B, d) :: (B', d') :: rest))
      with (st1 <~ update_normalizing_values st B d ;;
            update_all st1 ((B', d') :: rest)).
    destruct (update_normalizing_values st B d) as [st1 |]; cbn [bind];
      [apply IH | reflexivity].
Qed.

(** X14: Feeding the normalizer a list of arrays, one call each, leaves exactly
    the state that one call on the arrays stacked row-wise leaves: in
    binary64 as in any arithmetic, and exceptions included. *)
Theorem update_normalizing_values_by_chunks {F : Type} `{Scalar F}
    (st : norm_interim F) (B : nat) (d : list (list F))
    (rest : list (nat * list (list F))) :
  update_all st ((B, d) :: rest)
  = update_normalizing_values st B (d ++ concat (List.map snd rest))
  /\ forall B' rows rows',
       (st1 <~ update_normalizing_values st B rows ;;
        update_normalizing_values st1 B' rows')
       = update_normalizing_values st B (rows ++ rows').
Proof.
  split.
  - apply update_all_stacked.
  - intros B' rows rows'. apply update_two_calls.
Qed.

Example update_by_chunks_float :
  update_all norm_init [(1%nat, [[0.5]; [0.25]]%float); (1%nat, [[3]]%float)]
  = update_normalizing_values norm_init 1 [[0.5]; [0.25]; [3]]%float.
Proof. vm_compute. reflexivity. Qed.

Lemma sample_variance_nonneg (xs : list R) :
  (2 <= length xs)%nat -> (0 <= sample_variance xs)%R.
Proof.
  intros Hn. unfold sample_variance.
  assert (Hd : (0 < INR (length xs) - 1)%R).
  { apply le_INR in Hn. simpl in Hn. lra. }
  apply Rmult_le_pos; [| left; now apply Rinv_0_lt_compat].
  apply Rsum_nonneg. apply Forall_map, Forall_true. intros x.
  apply Rle_0_sqr.
Qed.

(** X15: Over the reals, after any number of calls that fed at least two rows
    in all, the read-out is, band by band, the mean of the rows and their
    standard deviation with divisor n - 1: the std is not negative and its
    square is the sample variance. *)
Theorem normalizer_readout_is_sample_statistics (B : nat)
    (d : list (list R)) (rest : list (nat * list (list R))) :
  let rows := d ++ concat (List.map snd rest) in
  Forall (fun r => length r = B) rows -> (2 <= length rows)%nat ->
  exists st nd,
    update_all norm_init ((B, d) :: rest) = Ok st
    /\ ni_n st = Z.of_nat (length rows)
    /\ calculate_normalizing_dict st = Some nd
    /\ length (nd_mean nd) = B /\ length (nd_std nd) = B
    /\ forall j, (j < B)%nat ->
         nth j (nd_mean nd) 0%R = sample_mean (column j rows)
         /\ (0 <= nth j (nd_std nd) 0)%R
         /\ (nth j (nd_std nd) 0 * nth j (nd_std nd) 0
             = sample_variance (column j rows))%R.
Proof.
  intros rows Hrows Hn.
  destruct (readout_closed B rows Hrows) as (st & Hst & Hcount & Hread).
  exists st. eexists. split; [now rewrite update_all_stacked |].
  split; [exact Hcount |]. split; [exact Hread |].
  cbn [nd_mean nd_std]. rewrite !tab_length.
  split; [reflexivity |]. split; [reflexivity |].
  intros j Hj. rewrite !tab_nth by assumption.
  split; [reflexivity |]. split; [apply sqrt_pos |].
  apply sqrt_sqrt. apply sample_variance_nonneg.
  now rewrite column_length.
Qed.

Lemma normalizer_readout_is_sample_statistics_witness :
  let rows := [[1]; [3]]%R ++ concat (List.map snd [(1%nat, [[5]]%R)]) in
  exists st nd,
    update_all norm_init [(1%nat, [[1]; [3]]%R); (1%nat, [[5]]%R)] = Ok st
    /\ ni_n st = Z.of_nat (length rows)
    /\ calculate_normalizing_dict st = Some nd
    /\ length (nd_mean nd) = 1%nat /\ length (nd_std nd) = 1%nat
    /\ forall j, (j < 1)%nat ->
         nth j (nd_mean nd) 0%R = sample_mean (column j rows)
         /\ (0 <= nth j (nd_std nd) 0)%R
         /\ (nth j (nd_std nd) 0 * nth j (nd_std nd) 0
             = sample_variance (column j rows))%R.
Proof.
  apply (normalizer_readout_is_sample_statistics 1 [[1]; [3]]%R
           [(1%nat, [[5]]%R)]).
  - repeat constructor.
  - cbn. lia.
Defined.
(** ** Merging normalizing dicts: one dict, empty counts, other widths *)

Lemma weighted_average_single (c : Z) (x : R) :
  c <> 0 -> weighted_average [(c, x)] = x.
Proof.
  intros Hc. unfold weighted_average, Rsum. cbn [List.map fold_right fst snd].
  rewrite Z.add_0_r. assert (IZR c <> 0%R) by now apply not_0_IZR.
  field. assumption.
Qed.

(** X16: Over the reals, merging one dict alone, with a count that is not zero,
    gives the dict back: its mean, and the absolute value of its std. *)
Theorem adjust_normalizing_dict_single (n : Z) (d : ndict R) :
  n <> 0 -> length (nd_std d) = length (nd_mean d) ->
  adjust_normalizing_dict [(n, Some d)]
  = Ok (Some {| nd_mean := nd_mean d; nd_std := List.map Rabs (nd_std d) |}).
Proof.
  intros Hn Hlen.
  pose proof (adjust_normalizing_dict_closed (length (nd_mean d)) [(n, d)])
    as Hc.
  cbn [present List.map fst snd] in Hc. rewrite Hc.
  2:{ discriminate. }
  2:{ constructor; [split; [reflexivity | exact Hlen] | constructor]. }
  f_equal. f_equal. cbn [band_stats List.map band_stat fst snd].
  f_equal.
  - rewrite (tab_of_list (length (nd_mean d)) (nd_mean d) 0%R eq_refl) at 2.
    apply tab_ext. intros j Hj. now apply weighted_average_single.
  - rewrite <- Hlen.
    rewrite (tab_of_list (length (nd_std d)) (List.map Rabs (nd_std d)) 0%R)
      by now rewrite length_map.
    apply tab_ext. intros j Hj.
    rewrite weighted_average_single by assumption.
    unfold weighted_variance. cbn [List.map fst snd].
    rewrite weighted_average_single by assumption.
    unfold band_stat. cbn [fst snd s_zero real_scalar].
    rewrite (nth_indep (List.map Rabs (nd_std d)) 0%R (Rabs 0))
      by (rewrite List.length_map; exact Hj).
    rewrite map_nth.
    replace (nth j (nd_std d) 0 * nth j (nd_std d) 0
             + (nth j (nd_mean d) 0 - nth j (nd_mean d) 0)
               * (nth j (nd_mean d) 0 - nth j (nd_mean d) 0))%R
      with (Rsqr (nth j (nd_std d) 0%R)) by (unfold Rsqr; ring).
    apply sqrt_Rsqr_abs.
Qed.

Lemma adjust_normalizing_dict_single_witness :
  adjust_normalizing_dict
    [(7, Some {| nd_mean := [1; 2]%R; nd_std := [3; -4]%R |})]
  = Ok (Some {| nd_mean := [1; 2]%R; nd_std := List.map Rabs [3; -4]%R |}).
Proof.
  apply (adjust_normalizing_dict_single 7
           {| nd_mean := [1; 2]%R; nd_std := [3; -4]%R |}); [lia | reflexivity].
Defined.

Lemma Zsum_app (l k : list Z) :
  fold_right Z.add 0 (l ++ k) = fold_right Z.add 0 l + fold_right Z.add 0 k.
Proof. induction l as [| x l IH]; simpl; [reflexivity | lia]. Qed.

Lemma weighted_average_zero_count (l1 l2 : list (Z * R)) (x : R) :
  weighted_average (l1 ++ (0, x) :: l2) = weighted_average (l1 ++ l2).
Proof.
  unfold weighted_average. rewrite !map_app. cbn [List.map fst snd].
  rewrite !Rsum_app, !Zsum_app. cbn [fold_right]. unfold Rsum at 2.
  cbn [fold_right]. fold (Rsum (List.map (fun p : Z * R => (IZR p.1 * p.2)%R) l2)).
  rewrite Z.add_0_l. f_equal. lra.
Qed.

Lemma weighted_variance_zero_count (m : R) (l1 l2 : list (Z * (R * R)))
    (x : R * R) :
  weighted_variance m (l1 ++ (0, x) :: l2) = weighted_variance m (l1 ++ l2).
Proof.
  unfold weighted_variance. rewrite !map_app. cbn [List.map fst snd].
  apply weighted_average_zero_count.
Qed.

(** X17: Over the reals, a dict that comes with the count 0 changes nothing in
    the merge of the others. *)
Theorem adjust_normalizing_dict_zero_count (B : nat)
    (ds1 ds2 : list (Z * ndict R)) (d0 : ndict R) :
  ds1 ++ ds2 <> [] -> wf_dicts B (ds1 ++ (0, d0) :: ds2) ->
  adjust_normalizing_dict (present (ds1 ++ (0, d0) :: ds2))
  = adjust_normalizing_dict (present (ds1 ++ ds2)).
Proof.
  intros Hne Hwf.
  assert (Hwf' : wf_dicts B (ds1 ++ ds2)).
  { unfold wf_dicts in *. apply Forall_app in Hwf as [H1 H2].
    apply Forall_app. split; [exact H1 | now inversion H2]. }
  rewrite (adjust_normalizing_dict_closed B (ds1 ++ (0, d0) :: ds2));
    [| now destruct ds1 | exact Hwf].
  rewrite (adjust_normalizing_dict_closed B (ds1 ++ ds2) Hne Hwf').
  assert (Hm : forall j,
    weighted_average
      (List.map (fun q => (fst q, fst (snd q)))
         (band_stats j (ds1 ++ (0, d0) :: ds2)))
    = weighted_average
        (List.map (fun q => (fst q, fst (snd q))) (band_stats j (ds1 ++ ds2)))).
  { intros j. unfold band_stats. rewrite !map_app. cbn [List.map].
    apply weighted_average_zero_count. }
  f_equal. f_equal. f_equal.
  - apply tab_ext. intros j _. apply Hm.
  - apply tab_ext. intros j _. rewrite Hm. f_equal.
    unfold band_stats. rewrite !map_app. cbn [List.map].
    apply weighted_variance_zero_count.
Qed.

Lemma adjust_normalizing_dict_zero_count_witness :
  adjust_normalizing_dict
    (present ([(3, {| nd_mean := [1%R]; nd_std := [2%R] |})]
              ++ (0, {| nd_mean := [9%R]; nd_std := [9%R] |}) :: []))
  = adjust_normalizing_dict
      (present ([(3, {| nd_mean := [1%R]; nd_std := [2%R] |})] ++ [])).
Proof.
  apply (adjust_normalizing_dict_zero_count 1).
  - discriminate.
  - repeat constructor.
Defined.

(** X18: Two dicts whose means have different numbers of bands, neither of them
    one, cannot be merged: numpy cannot add the two vectors, and
    [adjust_normalizing_dict] raises ValueError. *)
Theorem adjust_normalizing_dict_other_width {F : Type} `{Scalar F}
    (n1 n2 : Z) (d1 d2 : ndict F) :
  length (nd_mean d1) <> length (nd_mean d2) ->
  length (nd_mean d1) <> 1%nat -> length (nd_mean d2) <> 1%nat ->
  adjust_normalizing_dict [(n1, Some d1); (n2, Some d2)] = Raise ValueError.
Proof.
  intros Hne H1 H2. unfold adjust_normalizing_dict. cbn [all_present].
  cbn [List.map]. unfold py_sum. cbn [fold_left bind].
  rewrite broadcast2_mismatch; [reflexivity | | |];
    unfold mean_term; rewrite ?length_map; assumption.
Qed.

Lemma adjust_normalizing_dict_other_width_witness :
  adjust_normalizing_dict
    [(5, Some {| nd_mean := [1; 2]%float; nd_std := [0; 0]%float |});
     (5, Some {| nd_mean := [1; 2; 3]%float; nd_std := [0; 0; 0]%float |})]
  = Raise ValueError.
Proof.
  apply adjust_normalizing_dict_other_width; cbn; lia.
Defined.
(** ** The training instance of one file *)

Lemma welford_step_count {F : Type} `{Scalar F} (n n' : Z)
    (mean M2 mean' M2' x : list F) :
  welford_step (n, mean, M2) x = Ok (n', mean', M2') -> n' = n + 1.
Proof.
  unfold welford_step. intros E. repeat step_bind E. now injection E.
Qed.

Lemma welford_rows_count {F : Type} `{Scalar F} (rows : list (list F))
    (st st' : Z * list F * list F) :
  welford_rows st rows = Ok st' ->
  fst (fst st') = fst (fst st) + Z.of_nat (length rows).
Proof.
  revert st. induction rows as [| x rows IH]; intros st E; cbn [welford_rows] in E.
  - injection E as <-. cbn [length]. lia.
  - step_bind E. apply IH in E. destruct st as [[n m] q], a as [[n1 m1] q1].
    apply welford_step_count in E0. cbn [fst length] in *. lia.
Qed.

Lemma update_normalizing_values_count {F : Type} `{Scalar F}
    (st st' : norm_interim F) (B : nat) (d : list (list F)) :
  update_normalizing_values st B d = Ok st' ->
  ni_n st' = ni_n st + Z.of_nat (length d).
Proof.
  unfold update_normalizing_values. cbv zeta.
  destruct (match ni_stats st with
            | Some stats => stats
            | None => (repeat s_zero B, repeat s_zero B)
            end) as [mean M2].
  intros E. step_bind E. destruct a as [[n1 m1] q1]. injection E as <-.
  apply welford_rows_count in E0. exact E0.
Qed.

(** X19: What [process_single_file] returns.  An instance carries the fields of
    its label row and an array of rank 2 with one row per row of the
    selection, the final band order's number of columns and no NaN, and the
    normalizer has been fed that array, its count grown by the number of
    rows.  When the file is skipped the normalizer is as it was. *)
Theorem process_single_file_postcondition {F : Type} `{ScalarLaws F}
    (DYNAMIC_BANDS STATIC_BANDS : list string)
    (NUM_TIMESTEPS DAYS_PER_TIMESTEP : Z)
    (load_tif : string -> Z -> result (DataArray F * F))
    (st st' : norm_interim F) (path_to_file : string) (row : label_row F)
    (returned : option (DataInstance F)) :
  process_single_file DYNAMIC_BANDS STATIC_BANDS NUM_TIMESTEPS
    DAYS_PER_TIMESTEP load_tif st path_to_file row = Ok (st', returned) ->
  match returned with
  | None => st' = st
  | Some instance =>
      let B := length (BANDS DYNAMIC_BANDS STATIC_BANDS) in
      exists T d,
        array instance = Arr2 T B d
        /\ Forall (fun r => length r = B) d
        /\ Forall (Forall (fun v => s_isnan v = false)) d
        /\ update_normalizing_values st B d = Ok st'
        /\ ni_n st' = ni_n st + Z.of_nat (length d)
        /\ dataset instance = row_dataset row
        /\ is_crop instance = row_is_crop row
        /\ label instance = row_label row
        /\ label_lat instance = row_lat row
        /\ label_lon instance = row_lon row
  end.
Proof.
  intros Hrun. unfold process_single_file in Hrun.
  step_bind Hrun. destruct a as [da average_slope].
  step_bind Hrun. step_bind Hrun.
  destruct (da_sel da a a0) as [[T B0] d0].
  step_bind Hrun. step_bind Hrun. step_bind Hrun.
  destruct a3 as [out |]; [| inversion Hrun; subst; reflexivity].
  assert (Hrank : exists T1 B1 d1, a2 = Arr2 T1 B1 d1).
  { cbn [calculate_ndvi] in E2. repeat step_bind E2. cbv zeta in E2.
    injection E2 as <-.
    cbn [remove_bands] in E3. step_bind E3. cbv zeta in E3.
    injection E3 as <-.
    now eexists _, _, _. }
  destruct Hrank as (T1 & B1 & d1 & ->).
  apply fillna_rank2_Some in E4 as (fills & -> & HB & Hfill).
  step_bind Hrun.
  match goal with
  | Hu : update_normalizing_values _ _ _ = Ok _ |- _ => rename Hu into Hupd
  end.
  injection Hrun as <- <-. cbv zeta.
  cbn [array dataset is_crop label label_lat label_lon].
  exists T1, (List.map (fill_row B1 fills) d1). rewrite <- HB.
  split; [reflexivity |]. split.
  { apply Forall_map, Forall_true. intros r. apply fill_row_length. }
  split.
  { apply Forall_map, Forall_true. intros r. now apply fill_row_not_nan. }
  split; [exact Hupd |].
  split; [now apply update_normalizing_values_count in Hupd |].
  repeat split; reflexivity.
Qed.

Lemma process_single_file_postcondition_witness :
  exists st' instance T d,
    process_single_file demo_dynamic demo_static 12 30 demo_load_tif
      norm_init "2-a_y.tif" (nth 1 demo_labels (nth 0 demo_labels
        {| row_dataset := ""; row_index := 0; row_lat := 0%float;
           row_lon := 0%float; row_export_end_date := 0; row_is_crop := 0;
           row_label := None |}))
    = Ok (st', Some instance)
    /\ array instance = Arr2 T 4 d
    /\ Forall (fun r => length r = 4%nat) d
    /\ Forall (Forall (fun v => s_isnan v = false)) d
    /\ ni_n st' = 0 + Z.of_nat (length d)
    /\ dataset instance = "a".
Proof.
  destruct (process_single_file demo_dynamic demo_static 12 30 demo_load_tif
              norm_init "2-a_y.tif" (nth 1 demo_labels (nth 0 demo_labels
                {| row_dataset := ""; row_index := 0; row_lat := 0%float;
                   row_lon := 0%float; row_export_end_date := 0;
                   row_is_crop := 0; row_label := None |})))
    as [[st' [instance |]] | e] eqn:Hrun;
    [| vm_compute in Hrun; discriminate | vm_compute in Hrun; discriminate].
  destruct (process_single_file_postcondition _ _ _ _ _ _ _ _ _ _ Hrun)
    as (T & d & Harr & Hshape & Hnan & _ & Hcount & Hds & _).
  exists st', instance, T, d.
  split; [reflexivity |]. split; [exact Harr |]. split; [exact Hshape |].
  split; [exact Hnan |]. split; [exact Hcount | exact Hds].
Defined.
(** ** The orchestrator: counters, and a file without a label row *)

Section OrchestratorCounts.
Context {F : Type} `{Scalar F}.
Variables DYNAMIC_BANDS STATIC_BANDS : list string.
Variables NUM_TIMESTEPS DAYS_PER_TIMESTEP : Z.
Variable load_tif : string -> Z -> result (DataArray F * F).
Variable process_filename : string -> result (Z * string).

Local Abbreviation one_file :=
  (process_eo_file DYNAMIC_BANDS STATIC_BANDS NUM_TIMESTEPS DAYS_PER_TIMESTEP
     load_tif process_filename).
Local Abbreviation all_files :=
  (process_eo_files DYNAMIC_BANDS STATIC_BANDS NUM_TIMESTEPS DAYS_PER_TIMESTEP
     load_tif process_filename).

Lemma process_eo_file_counts (checkpoint : bool) (labels : list (label_row F))
    (ls ls' : loop_state) (file_path : string) :
  one_file checkpoint labels ls file_path = Ok ls' ->
  num_new_files ls <= num_new_files ls'
  /\ skipped_files ls <= skipped_files ls'
  /\ num_new_files ls' + skipped_files ls'
     <= num_new_files ls + skipped_files ls + 1
  /\ (checkpoint = false ->
      num_new_files ls' + skipped_files ls'
      = num_new_files ls + skipped_files ls + 1)
  /\ Z.of_nat (size (ls_arrays ls'))
     <= Z.of_nat (size (ls_arrays ls)) + (num_new_files ls' - num_new_files ls).
Proof.
  unfold process_eo_file. intros E. step_bind E. destruct a as [i ds].
  destruct (checkpoint
            && bool_decide (is_Some (ls_arrays ls !! (pretty i +:+ "_" +:+ ds +:+ ".pkl"))))%bool
    eqn:Hc.
  - injection E as <-. apply andb_true_iff in Hc as [-> _].
    repeat split; first [lia | discriminate].
  - step_bind E. step_bind E. destruct a0 as [st [inst |]]; injection E as <-;
      cbn [num_new_files skipped_files ls_arrays].
    + repeat split; try lia.
      rewrite map_size_insert.
      destruct (ls_arrays ls !! (pretty i +:+ "_" +:+ ds +:+ ".pkl"));
        unfold Datatypes.id; lia.
    + repeat split; lia.
Qed.

Lemma process_eo_files_counts (checkpoint : bool) (labels : list (label_row F))
    (eo_files : list string) (ls ls' : loop_state) :
  all_files checkpoint labels ls eo_files = Ok ls' ->
  num_new_files ls <= num_new_files ls'
  /\ skipped_files ls <= skipped_files ls'
  /\ num_new_files ls' + skipped_files ls'
     <= num_new_files ls + skipped_files ls + Z.of_nat (length eo_files)
  /\ (checkpoint = false ->
      num_new_files ls' + skipped_files ls'
      = num_new_files ls + skipped_files ls + Z.of_nat (length eo_files))
  /\ Z.of_nat (size (ls_arrays ls'))
     <= Z.of_nat (size (ls_arrays ls)) + (num_new_files ls' - num_new_files ls).
Proof.
  revert ls. induction eo_files as [| f rest IH]; intros ls E;
    cbn [process_eo_files] in E.
  - injection E as <-. cbn [length]. repeat split; lia.
  - step_bind E. apply process_eo_file_counts in E0.
    apply IH in E. cbn [length]. destruct E0 as (A1 & A2 & A3 & A4 & A5).
    destruct E as (B1 & B2 & B3 & B4 & B5).
    repeat split; try lia. intros Hc. specialize (A4 Hc). specialize (B4 Hc).
    lia.
Qed.

Lemma process_eo_files_app (checkpoint : bool) (labels : list (label_row F))
    (files files' : list string) (ls : loop_state) :
  all_files checkpoint labels ls (files ++ files')
  = (ls1 <~ all_files checkpoint labels ls files ;;
     all_files checkpoint labels ls1 files').
Proof.
  revert ls. induction files as [| f files IH]; intros ls; [reflexivity |].
  cbn [app process_eo_files].
  destruct (one_file checkpoint labels ls f); cbn [bind]; [apply IH | reflexivity].
Qed.

Lemma find_row_none (labels : list (label_row F)) (ds : string) (i : Z) :
  Forall (fun r => row_dataset r <> ds \/ row_index r <> i) labels ->
  find_row labels ds i = Raise IndexError.
Proof.
  intros Hno. unfold find_row.
  assert (Hf : List.filter
                 (fun r => (String.eqb (row_dataset r) ds
                            && (row_index r =? i)%Z)%bool) labels = []).
  { induction Hno as [| r l Hr _ IH]; [reflexivity |]. cbn [List.filter].
    destruct Hr as [Hd | Hi].
    - apply String.eqb_neq in Hd. rewrite Hd. exact IH.
    - apply Z.eqb_neq in Hi. rewrite Hi, andb_false_r. exact IH. }
  now rewrite Hf.
Qed.

End OrchestratorCounts.

(** X20: The two counters of [create_pickled_dataset] account for the files of
    the listing: neither is negative, together they count at most the
    files, and all of them when nothing is checkpointed; the outputs grow by
    at most the files written; and without checkpointing the normalizing
    dict is the one of this run alone, an earlier dict staying only if this
    run computed none. *)
Theorem create_pickled_dataset_counts {F : Type} `{Scalar F}
    (DYNAMIC_BANDS STATIC_BANDS : list string)
    (NUM_TIMESTEPS DAYS_PER_TIMESTEP : Z)
    (load_tif : string -> Z -> result (DataArray F * F))
    (process_filename : string -> result (Z * string))
    (checkpoint : bool) (labels : list (label_row F)) (eo_files : list string)
    (w w' : world F) (new skipped : Z) :
  create_pickled_dataset DYNAMIC_BANDS STATIC_BANDS NUM_TIMESTEPS
    DAYS_PER_TIMESTEP load_tif process_filename checkpoint labels eo_files w
  = Ok (w', new, skipped) ->
  0 <= new /\ 0 <= skipped
  /\ new + skipped <= Z.of_nat (length eo_files)
  /\ Z.of_nat (size (arrays_dir w')) <= Z.of_nat (size (arrays_dir w)) + new
  /\ (checkpoint = false ->
      new + skipped = Z.of_nat (length eo_files)
      /\ normalizing_dict_pkl w'
         = match calculate_normalizing_dict (engine w') with
           | Some nd => Some nd
           | None => normalizing_dict_pkl w
           end).
Proof.
  intros Hrun. unfold create_pickled_dataset in Hrun. step_bind Hrun.
  apply process_eo_files_counts in E as (A1 & A2 & A3 & A4 & A5).
  cbn [num_new_files skipped_files ls_arrays] in *.
  step_bind Hrun. injection Hrun as <- <- <-. cbn [arrays_dir].
  repeat split; try lia.
  - now apply A4.
  - subst checkpoint. cbn [normalizing_dict_pkl engine].
    match goal with Hd : Ok _ = Ok _ |- _ => injection Hd as <- end.
    reflexivity.
Qed.

Lemma create_pickled_dataset_counts_witness :
  exists w' new skipped,
    create_pickled_dataset demo_dynamic demo_static 12 30 demo_load_tif
      (process_filename demo_int) false demo_labels ["1-a_x.tif"; "2-a_y.tif"]
      demo_world = Ok (w', new, skipped)
    /\ new + skipped = 2
    /\ Z.of_nat (size (arrays_dir w')) <= 1 + new
    /\ normalizing_dict_pkl w' = calculate_normalizing_dict (engine w').
Proof.
  destruct (create_pickled_dataset demo_dynamic demo_static 12 30 demo_load_tif
              (process_filename demo_int) false demo_labels
              ["1-a_x.tif"; "2-a_y.tif"] demo_world)
    as [[[w' new] skipped] | e] eqn:Hrun;
    [| vm_compute in Hrun; discriminate].
  destruct (create_pickled_dataset_counts _ _ _ _ _ _ _ _ _ _ _ _ _ Hrun)
    as (_ & _ & _ & Hsize & Hall).
  destruct (Hall eq_refl) as [Hsum Hdict].
  exists w', new, skipped. split; [reflexivity |]. split; [exact Hsum |].
  split; [exact Hsize |]. rewrite Hdict.
  assert (Hsome : is_Some (calculate_normalizing_dict (engine w'))).
  { vm_compute in Hrun. injection Hrun as <- _ _. vm_compute. now eexists. }
  destruct Hsome as [nd ->]. reflexivity.
Defined.

(** X21: A raw file that has no output yet and whose dataset and index are on no
    row of the labels stops the run: taking the first row of an empty
    selection raises IndexError. *)
Theorem create_pickled_dataset_missing_label_row {F : Type} `{Scalar F}
    (DYNAMIC_BANDS STATIC_BANDS : list string)
    (NUM_TIMESTEPS DAYS_PER_TIMESTEP : Z)
    (load_tif : string -> Z -> result (DataArray F * F))
    (process_filename : string -> result (Z * string))
    (checkpoint : bool) (labels : list (label_row F))
    (before after : list string) (file_path : string) (w : world F)
    (ls : loop_state) (file_index : Z) (dataset : string) :
  process_eo_files DYNAMIC_BANDS STATIC_BANDS NUM_TIMESTEPS DAYS_PER_TIMESTEP
    load_tif process_filename checkpoint labels
    {| ls_arrays := arrays_dir w; ls_engine := engine w;
       num_new_files := 0; skipped_files := 0 |} before = Ok ls ->
  process_filename file_path = Ok (file_index, dataset) ->
  checkpoint = false
  \/ ls_arrays ls !! (pretty file_index +:+ "_" +:+ dataset +:+ ".pkl") = None ->
  Forall (fun r => row_dataset r <> dataset \/ row_index r <> file_index)
    labels ->
  create_pickled_dataset DYNAMIC_BANDS STATIC_BANDS NUM_TIMESTEPS
    DAYS_PER_TIMESTEP load_tif process_filename checkpoint labels
    (before ++ file_path :: after) w
  = Raise IndexError.
Proof.
  intros Hbefore Hname Hnew Hno. unfold create_pickled_dataset.
  rewrite process_eo_files_app, Hbefore. cbn [bind process_eo_files].
  unfold process_eo_file. rewrite Hname. cbn [bind].
  assert (Hc : (checkpoint
                && bool_decide (is_Some (ls_arrays ls
                     !! (pretty file_index +:+ "_" +:+ dataset +:+ ".pkl"))))%bool
               = false).
  { destruct Hnew as [-> | Hnone]; [reflexivity |].
    rewrite Hnone. apply andb_false_iff. right.
    apply bool_decide_eq_false_2. intros [v Hv]. discriminate. }
  rewrite Hc, (find_row_none labels dataset file_index Hno). reflexivity.
Qed.

Lemma create_pickled_dataset_missing_label_row_witness :
  create_pickled_dataset demo_dynamic demo_static 12 30 demo_load_tif
    (process_filename demo_int) true demo_labels
    (["1-a_x.tif"] ++ "3-a_z.tif" :: ["2-a_y.tif"]) demo_world
  = Raise IndexError.
Proof.
  apply (create_pickled_dataset_missing_label_row demo_dynamic demo_static 12 30
           demo_load_tif (process_filename demo_int) true demo_labels
           ["1-a_x.tif"] ["2-a_y.tif"] "3-a_z.tif" demo_world
           {| ls_arrays := arrays_dir demo_world; ls_engine := engine demo_world;
              num_new_files := 0; skipped_files := 0 |} 3 "a").
  - vm_compute. reflexivity.
  - reflexivity.
  - right. vm_compute. reflexivity.
  - constructor; [right; cbn; lia |].
    constructor; [right; cbn; lia |]. constructor.
Defined.
(** ** Test instances *)

Lemma nth_map_lt {A C : Type} (f : A -> C) (l : list A) (i : nat) (d : A)
    (d' : C) :
  (i < length l)%nat -> nth i (List.map f l) d' = f (nth i l d).
Proof.
  intros Hi. rewrite (nth_indep _ d' (f d)) by now rewrite length_map.
  apply map_nth.
Qed.

Lemma zip_with_nth {A C D : Type} (f : A -> C -> D) (a : list A) (b : list C)
    (k : nat) (da : A) (db : C) (d : D) :
  (k < length a)%nat -> (k < length b)%nat ->
  nth k (zip_with f a b) d = f (nth k a da) (nth k b db).
Proof.
  revert b k. induction a as [| x a IH]; intros [| y b] [| k] Ha Hb;
    simpl in *; try lia; [reflexivity |].
  apply IH; lia.
Qed.

Lemma meshgrid_wf {F : Type} `{Scalar F} (xs ys : list F) :
  wf2 (length ys) (length xs) (fst (meshgrid xs ys))
  /\ wf2 (length ys) (length xs) (snd (meshgrid xs ys)).
Proof.
  unfold meshgrid, wf2. cbn [fst snd]. rewrite !length_map.
  repeat split; apply Forall_map, Forall_true; intros v;
    [reflexivity | apply length_map].
Qed.

Lemma fill_values_rank3_Some {F : Type} `{Scalar F}
    (DYNAMIC_BANDS STATIC_BANDS : list string) (B : nat) (m fills : list F)
    (s : F) :
  fill_values DYNAMIC_BANDS STATIC_BANDS 2 B m s = Ok (Some fills) ->
  existsb s_isnan m = false.
Proof.
  unfold fill_values. intros E. step_bind E.
  destruct (existsb s_isnan m) eqn:Hm; [| reflexivity].
  step_bind E.
  destruct ((length (List.filter s_isnan m) =? 2)%nat
            && s_isnan (nth a0 m s_zero))%bool eqn:Hc; [| discriminate].
  apply andb_true_iff in Hc as [Hcount _]. apply Nat.eqb_eq in Hcount.
  pose proof (filter_insert_length s_isnan m a0 s) as Hle.
  rewrite (existsb_filter_pos s_isnan (<[a0:=s]> m)) in E by lia.
  discriminate.
Qed.

Lemma fillna_rank3_means {F : Type} `{Scalar F}
    (DYNAMIC_BANDS STATIC_BANDS : list string) (N T B : nat)
    (d : list (list (list F))) (s : F) (out : ndarray F) :
  fillna DYNAMIC_BANDS STATIC_BANDS (Arr3 N T B d) s = Ok (Some out) ->
  let means := nanmean_axis0 B (nanmean3_axis0 T B d) in
  out = Arr3 N T B (List.map (List.map (fill_row B means)) d)
  /\ B = length (BANDS DYNAMIC_BANDS STATIC_BANDS)
  /\ existsb s_isnan means = false.
Proof.
  intros E means. cbn [fillna] in E. step_bind E.
  destruct a as [fills |]; [| discriminate]. injection E as <-.
  pose proof (fill_values_rank3_Some _ _ _ _ _ _ E0) as Hnan.
  pose proof (fill_values_Some _ _ _ _ _ _ _ E0) as (HB & _ & _).
  fold means in E0, Hnan. unfold fill_values in E0. rewrite Hnan in E0.
  step_bind E0. injection E0 as <-. auto.
Qed.

Lemma test_features_rows {F : Type} `{Scalar F}
    (DYNAMIC_BANDS STATIC_BANDS : list string) (T B h w : nat)
    (values : list (list (list (list F)))) (s : F) (x_np : ndarray F) :
  test_features DYNAMIC_BANDS STATIC_BANDS T B h w values s = Ok (Some x_np) ->
  exists i1 i2 removed,
    index "B8" (BANDS DYNAMIC_BANDS STATIC_BANDS) = Ok i1
    /\ index "B4" (BANDS DYNAMIC_BANDS STATIC_BANDS) = Ok i2
    /\ mapM (fun band => index band (RAW_BANDS DYNAMIC_BANDS STATIC_BANDS))
         REMOVED_BANDS = Ok removed
    /\ let nB := length (BANDS DYNAMIC_BANDS STATIC_BANDS) in
       let bands_of := fun row =>
         pick (indices_to_keep (S B) removed) (ndvi_row i1 i2 row) in
       let unfilled :=
         List.map (List.map bands_of) (pixels_first (h * w) values) in
       let means := nanmean_axis0 nB (nanmean3_axis0 T nB unfilled) in
       existsb s_isnan means = false
       /\ x_np = Arr3 (h * w) T nB
                   (List.map (List.map (fill_row nB means)) unfilled).
Proof.
  unfold test_features. intros E. step_bind E. step_bind E.
  pose proof E0 as Hcopy. cbn [calculate_ndvi] in E0.
  destruct (index "B8" (BANDS DYNAMIC_BANDS STATIC_BANDS)) as [i1 |] eqn:H8;
    cbn [bind] in E0; [| discriminate].
  unfold take_band3 in E0 at 1.
  destruct (Nat.ltb_spec i1 B) as [Hi1 | _]; cbn [bind] in E0; [| discriminate].
  destruct (index "B4" (BANDS DYNAMIC_BANDS STATIC_BANDS)) as [i2 |] eqn:H4;
    cbn [bind] in E0; [| discriminate].
  unfold take_band3 in E0.
  destruct (Nat.ltb_spec i2 B) as [Hi2 | _]; cbn [bind] in E0; [| discriminate].
  clear E0.
  rewrite (calculate_ndvi_rank3 DYNAMIC_BANDS STATIC_BANDS i1 i2 (h * w) T B
             (pixels_first (h * w) values) H8 H4 Hi1 Hi2) in Hcopy.
  injection Hcopy as <-.
  cbn [remove_bands] in E1. step_bind E1. cbv zeta in E1. injection E1 as <-.
  apply fillna_rank3_means in E. cbv zeta in E. destruct E as (-> & HB & Hnan).
  exists i1, i2, a. split; [reflexivity |]. split; [reflexivity |].
  split; [reflexivity |]. cbv zeta.
  rewrite HB in *. rewrite !map_map in *.
  assert (Hrows : List.map (fun x => List.map (pick (indices_to_keep (S B) a))
                               (List.map (ndvi_row i1 i2) x))
                    (pixels_first (h * w) values)
                  = List.map
                      (List.map (fun row => pick (indices_to_keep (S B) a)
                                              (ndvi_row i1 i2 row)))
                      (pixels_first (h * w) values)).
  { apply map_ext. intros px. now rewrite map_map. }
  rewrite Hrows in Hnan. split; [exact Hnan |].
  f_equal. rewrite Hrows. apply map_ext. intros px. rewrite !map_map. reflexivity.
Qed.

Lemma pixels_first_row_major {F : Type} `{Scalar F} (h w : nat)
    (values : list (list (list (list F)))) :
  Forall (Forall (wf2 h w)) values ->
  pixels_first (h * w) values
  = List.map (fun k =>
      List.map (List.map (fun band => nth (k mod w) (nth (k / w) band []) s_zero))
        values)
      (seq 0 (h * w)).
Proof.
  intros Hwf. unfold pixels_first. apply map_ext_in. intros k Hk.
  apply in_seq in Hk. destruct Hk as [_ Hk]. cbn [Nat.add] in Hk.
  assert (Hw : (0 < w)%nat) by nia.
  assert (Hr : (k / w < h)%nat) by (apply Nat.Div0.div_lt_upper_bound; lia).
  assert (Hc : (k mod w < w)%nat) by (apply Nat.mod_upper_bound; lia).
  assert (Hkk : k = (k / w * w + k mod w)%nat)
    by (rewrite Nat.mul_comm; apply Nat.div_mod_eq).
  apply map_ext_in. intros time_slice Hin.
  apply map_ext_in. intros band Hb.
  rewrite Hkk at 1.
  apply (concat_nth_wf2 h w (k / w) (k mod w) band s_zero);
    [| assumption | assumption].
  pose proof (proj1 (List.Forall_forall _ values) Hwf _ Hin) as Hts.
  exact (proj1 (List.Forall_forall _ time_slice) Hts _ Hb).
Qed.

(** X24: An instance that the body of [process_test_file] returns is aligned
    pixel by pixel: with the masks of the raster's height and width, the
    pixel in row r and column c of the raster is pixel r * width + c of the
    features, of the labels and of the two coordinate vectors.  Its latitude
    and longitude are the raster's y at r and x at c, and its label follows
    from the two masks at (r, c).  Its features are, time step by time step,
    the entries at (r, c) of the bands with their NDVI appended (from the
    positions of B8 and B4 in BANDS), the columns of the removed bands
    dropped, and what is NaN or infinite replaced as [np.nan_to_num] does,
    a NaN by the mean of its band: the means are the ones of the whole
    raster, the pixels taken row by row, and none of them is NaN. *)
Theorem test_instance_aligned {F : Type} `{Scalar F}
    (DYNAMIC_BANDS STATIC_BANDS : list string) (da : TimeStack F)
    (average_slope : F) (positive negative : list (list bool))
    (instance : TestInstance F) :
  let h := length (stack_y da) in
  let w := length (stack_x da) in
  wf2 h w positive -> wf2 h w negative ->
  Forall (Forall (wf2 h w)) (stack_values da) ->
  test_instance DYNAMIC_BANDS STATIC_BANDS da average_slope positive negative
  = Produced instance ->
  length (lats instance) = (h * w)%nat
  /\ length (lons instance) = (h * w)%nat
  /\ length (test_y instance) = (h * w)%nat
  /\ exists i1 i2 removed d,
       index "B8" (BANDS DYNAMIC_BANDS STATIC_BANDS) = Ok i1
       /\ index "B4" (BANDS DYNAMIC_BANDS STATIC_BANDS) = Ok i2
       /\ mapM (fun band => index band (RAW_BANDS DYNAMIC_BANDS STATIC_BANDS))
            REMOVED_BANDS = Ok removed
       /\ let T := length (stack_time da) in
          let nB := length (BANDS DYNAMIC_BANDS STATIC_BANDS) in
          let keep :=
            indices_to_keep (S (length DYNAMIC_BANDS + length STATIC_BANDS))
              removed in
          (* the [T, nB] array of the pixel at (r, c), before imputation *)
          let pixel := fun r c =>
            List.map
              (fun time_slice =>
                 pick keep
                   (ndvi_row i1 i2
                      (List.map (fun band => nth c (nth r band []) s_zero)
                         time_slice)))
              (stack_values da) in
          let means :=
            nanmean_axis0 nB
              (nanmean3_axis0 T nB
                 (List.map (fun k => pixel (k / w)%nat (k mod w)%nat)
                    (seq 0 (h * w)))) in
          test_x instance = Arr3 (h * w) T nB d
          /\ length d = (h * w)%nat
          /\ existsb s_isnan means = false
          /\ forall r c, (r < h)%nat -> (c < w)%nat ->
               let k := (r * w + c)%nat in
               nth k (lats instance) s_zero = nth r (stack_y da) s_zero
               /\ nth k (lons instance) s_zero = nth c (stack_x da) s_zero
               /\ nth k (test_y instance) MISSING_DATA
                  = label_of (negb (nth c (nth r positive []) true))
                             (negb (nth c (nth r negative []) true))
               /\ nth k d [] = List.map (fill_row nB means) (pixel r c).
Proof.
  intros h w Hp Hn Hv Hrun. unfold test_instance in Hrun.
  destruct (meshgrid (stack_x da) (stack_y da)) as [lon lat] eqn:Hmesh.
  destruct (meshgrid_wf (stack_x da) (stack_y da)) as [Hlon Hlat].
  rewrite Hmesh in Hlon, Hlat. cbn [fst snd] in Hlon, Hlat.
  fold h w in Hlon, Hlat, Hrun.
  destruct (test_features DYNAMIC_BANDS STATIC_BANDS (length (stack_time da))
              (length DYNAMIC_BANDS + length STATIC_BANDS) h w
              (stack_values da) average_slope) as [[x_np |] | e] eqn:Hfeat.
  3:{ discriminate. }
  2:{ destruct (test_labels positive negative); discriminate. }
  pose proof (concat_length_wf2 h w positive Hp) as Lp.
  pose proof (concat_length_wf2 h w negative Hn) as Ln.
  rewrite (test_labels_eq positive negative) in Hrun by congruence.
  apply test_features_rows in Hfeat
    as (i1 & i2 & removed & H8 & H4 & Hrem & Hfeat).
  cbv zeta in Hfeat. destruct Hfeat as [Hnan ->].
  cbn [shape0] in Hrun.
  destruct (Nat.eqb_spec
              (length (zip_with (fun p n => label_of (negb p) (negb n))
                         (concat positive) (concat negative))) (h * w))
    as [Hy | _]; [| discriminate].
  injection Hrun as <-. cbn [lats lons test_y test_x].
  split; [now apply concat_length_wf2 |].
  split; [now apply concat_length_wf2 |].
  split; [exact Hy |].
  exists i1, i2, removed. eexists.
  split; [exact H8 |]. split; [exact H4 |]. split; [exact Hrem |].
  cbv zeta.
  assert (Hpix : List.map
                   (List.map (fun row =>
                      pick (indices_to_keep
                              (S (length DYNAMIC_BANDS + length STATIC_BANDS))
                              removed) (ndvi_row i1 i2 row)))
                   (pixels_first (h * w) (stack_values da))
                 = List.map
                     (fun k =>
                        List.map
                          (fun time_slice =>
                             pick (indices_to_keep
                                     (S (length DYNAMIC_BANDS
                                         + length STATIC_BANDS)) removed)
                               (ndvi_row i1 i2
                                  (List.map
                                     (fun band =>
                                        nth (k mod w) (nth (k / w) band [])
                                          s_zero) time_slice)))
                          (stack_values da))
                     (seq 0 (h * w))).
  { rewrite (pixels_first_row_major h w _ Hv). rewrite map_map.
    apply map_ext. intros k. now rewrite map_map. }
  rewrite Hpix in Hnan.
  split; [reflexivity |].
  split; [unfold pixels_first; now rewrite !length_map, length_seq |].
  split; [exact Hnan |].
  intros r c Hr Hc.
  assert (Hk : (r * w + c < h * w)%nat) by nia.
  assert (Hmesh' : lon = List.map (fun _ => stack_x da) (stack_y da)
                   /\ lat = List.map (fun yv => List.map (fun _ => yv) (stack_x da))
                              (stack_y da)).
  { unfold meshgrid in Hmesh. now injection Hmesh as <- <-. }
  destruct Hmesh' as [-> ->].
  split; [| split; [| split]].
  - rewrite (concat_nth_wf2 h w r c _ s_zero Hlat Hr Hc).
    rewrite (nth_map_lt _ _ _ s_zero) by assumption.
    rewrite (nth_map_lt _ _ _ s_zero) by assumption. reflexivity.
  - rewrite (concat_nth_wf2 h w r c _ s_zero Hlon Hr Hc).
    rewrite (nth_map_lt _ _ _ s_zero) by assumption. reflexivity.
  - rewrite (zip_with_nth _ _ _ _ true true) by lia.
    rewrite (concat_nth_wf2 h w r c positive true Hp Hr Hc).
    rewrite (concat_nth_wf2 h w r c negative true Hn Hr Hc). reflexivity.
  - rewrite Hpix.
    rewrite (nth_map_lt _ _ _ []) by now rewrite length_map, length_seq.
    rewrite (nth_map_lt _ _ _ 0%nat) by now rewrite length_seq.
    rewrite seq_nth by assumption. cbn [Nat.add].
    replace ((r * w + c) / w)%nat with r by (apply Nat.div_unique with c; lia).
    replace ((r * w + c) mod w)%nat with c by (apply Nat.mod_unique with r; lia).
    now rewrite !map_map.
Qed.

Lemma test_instance_aligned_witness :
  exists instance,
    test_instance demo_dynamic demo_static demo_stack 1%float
      [[false; true]] [[true; true]] = Produced instance
    /\ length (lats instance) = 2%nat
    /\ length (lons instance) = 2%nat
    /\ test_y instance = [1; -1]
    /\ nth 1 (lats instance) s_zero = 50%float
    /\ nth 1 (lons instance) s_zero = 20%float
    /\ exists d,
         test_x instance = Arr3 2 2 4 d
         /\ nth 1 d []
            = [[4; 6; 1.5; (4 - 2) / (4 + 2)];
               [14; 16; 1.5; (14 - 12) / (14 + 12)]]%float.
Proof.
  destruct (test_instance demo_dynamic demo_static demo_stack 1%float
              [[false; true]] [[true; true]]) as [instance | e |] eqn:Hrun;
    [| vm_compute in Hrun; discriminate | vm_compute in Hrun; discriminate].
  destruct (test_instance_aligned demo_dynamic demo_static demo_stack 1%float
              [[false; true]] [[true; true]] instance)
    as (Hlat & Hlon & _ & i1 & i2 & removed & d & H8 & H4 & Hrem & Hx & _ & _
        & Hpix).
  - split; [reflexivity | repeat constructor].
  - split; [reflexivity | repeat constructor].
  - repeat constructor.
  - exact Hrun.
  - exists instance. split; [reflexivity |]. split; [exact Hlat |].
    split; [exact Hlon |].
    destruct (Hpix 0%nat 1%nat ltac:(cbn; lia) ltac:(cbn; lia))
      as (H1 & H2 & _ & H3).
    vm_compute in H8. injection H8 as <-.
    vm_compute in H4. injection H4 as <-.
    vm_compute in Hrem. injection Hrem as <-.
    split; [| split; [exact H1 | split; [exact H2 |]]].
    + vm_compute in Hrun. injection Hrun as <-. reflexivity.
    + exists d. split; [exact Hx |].
      change (nth 1 d []) with (nth (0 * length (stack_x demo_stack) + 1) d []).
      rewrite H3. vm_compute. reflexivity.
Defined.


(** X25: A test raster one of whose bands has a NaN mean gives no test
    instance: for the array of rank 3 [fillna] returns no array, and where
    it returns None the body of [process_test_file] goes on to take the
    shape of None and raises AttributeError. *)
Theorem test_instance_nan_band {F : Type} `{Scalar F}
    (DYNAMIC_BANDS STATIC_BANDS : list string) (da : TimeStack F)
    (average_slope : F) (positive negative : list (list bool))
    (N T B : nat) (d : list (list (list F))) :
  let h := length (stack_y da) in
  let w := length (stack_x da) in
  (x_np <~ calculate_ndvi DYNAMIC_BANDS STATIC_BANDS
             (Arr3 (h * w) (length (stack_time da))
                (length DYNAMIC_BANDS + length STATIC_BANDS)
                (pixels_first (h * w) (stack_values da))) ;;
   remove_bands DYNAMIC_BANDS STATIC_BANDS x_np) = Ok (Arr3 N T B d) ->
  existsb s_isnan (nanmean_axis0 B (nanmean3_axis0 T B d)) = true ->
  (forall instance,
     test_instance DYNAMIC_BANDS STATIC_BANDS da average_slope positive negative
     <> Produced instance)
  /\ (fillna DYNAMIC_BANDS STATIC_BANDS (Arr3 N T B d) average_slope = Ok None ->
      length (concat positive) = length (concat negative) ->
      test_instance DYNAMIC_BANDS STATIC_BANDS da average_slope positive negative
      = RaisedAttributeError).
Proof.
  intros h w Hpre Hnan.
  assert (Hfeat : test_features DYNAMIC_BANDS STATIC_BANDS
                    (length (stack_time da))
                    (length DYNAMIC_BANDS + length STATIC_BANDS) h w
                    (stack_values da) average_slope
                  = fillna DYNAMIC_BANDS STATIC_BANDS (Arr3 N T B d)
                      average_slope).
  { unfold test_features.
    destruct (calculate_ndvi DYNAMIC_BANDS STATIC_BANDS
                (Arr3 (h * w) (length (stack_time da))
                   (length DYNAMIC_BANDS + length STATIC_BANDS)
                   (pixels_first (h * w) (stack_values da)))) as [x1 |];
      cbn [bind] in *; [| discriminate].
    now rewrite Hpre. }
  assert (Hnever : forall out,
            fillna DYNAMIC_BANDS STATIC_BANDS (Arr3 N T B d) average_slope
            <> Ok (Some out)).
  { intros out E. cbn [fillna] in E. step_bind E.
    destruct a as [fills |]; [| discriminate].
    apply fill_values_rank3_Some in E0. congruence. }
  split.
  - intros instance Hrun. unfold test_instance in Hrun.
    destruct (meshgrid (stack_x da) (stack_y da)) as [lon lat].
    fold h w in Hrun. rewrite Hfeat in Hrun.
    destruct (fillna DYNAMIC_BANDS STATIC_BANDS (Arr3 N T B d) average_slope)
      as [[out |] | e] eqn:Hfill.
    + now apply (Hnever out).
    + destruct (test_labels positive negative); discriminate.
    + discriminate.
  - intros Hnone Hlen. unfold test_instance.
    destruct (meshgrid (stack_x da) (stack_y da)) as [lon lat].
    fold h w. rewrite Hfeat, Hnone.
    now rewrite (test_labels_eq positive negative Hlen).
Qed.

Lemma test_instance_nan_band_witness :
  (forall instance,
     test_instance demo_dynamic demo_static demo_stack_nan 3%float
       [[false; true]] [[true; true]] <> Produced instance)
  /\ test_instance demo_dynamic demo_static demo_stack_nan 3%float
       [[false; true]] [[true; true]] = RaisedAttributeError.
Proof.
  edestruct (test_instance_nan_band demo_dynamic demo_static demo_stack_nan
               3%float [[false; true]] [[true; true]])
    as [Hnever Hattr].
  - lazy. reflexivity.
  - vm_compute. reflexivity.
  - split; [exact Hnever |]. apply Hattr; vm_compute; reflexivity.
Defined.

Lemma str_app_length (a b : string) :
  String.length (a +:+ b) = (String.length a + String.length b)%nat.
Proof.
  induction a as [| c a IH]; [reflexivity |].
  change (S (String.length (a +:+ b))
          = S (String.length a + String.length b)).
  now rewrite IH.
Qed.

Lemma str_app_inj_r (a b t : string) : a +:+ t = b +:+ t -> a = b.
Proof.
  revert b. induction a as [| c a IH]; intros [| c' b] E.
  - reflexivity.
  - apply (f_equal String.length) in E. rewrite !str_app_length in E.
    cbn [String.length] in E. lia.
  - apply (f_equal String.length) in E. rewrite !str_app_length in E.
    cbn [String.length] in E. lia.
  - change (String c (a +:+ t) = String c' (b +:+ t)) in E.
    injection E as -> E. f_equal. now apply IH.
Qed.

Section PickleLoop.
Context {F : Type}.
Variable process_test_file : string -> test_outcome (string * TestInstance F).

Lemma pickle_loop_other (files : list string) (name : string)
    (dir dir' : gmap string (TestInstance F)) :
  pickle_loop process_test_file files dir = Produced dir' ->
  (forall f identifier instance,
     In f files -> process_test_file f = Produced (identifier, instance) ->
     identifier +:+ ".pkl" <> name) ->
  dir' !! name = dir !! name.
Proof.
  revert dir. induction files as [| f files IH]; intros dir E Hother;
    cbn [pickle_loop] in E.
  - now injection E as <-.
  - destruct (process_test_file f) as [[identifier instance] | e |] eqn:Hf;
      try discriminate.
    rewrite (IH _ E).
    + apply lookup_insert_ne. apply (Hother f identifier instance);
        [now left | exact Hf].
    + intros f' id' i' Hin. apply Hother. now right.
Qed.

Lemma pickle_loop_app (files files' : list string)
    (dir : gmap string (TestInstance F)) :
  pickle_loop process_test_file (files ++ files') dir
  = match pickle_loop process_test_file files dir with
    | Produced dir1 => pickle_loop process_test_file files' dir1
    | Raised e => Raised e
    | RaisedAttributeError => RaisedAttributeError
    end.
Proof.
  revert dir. induction files as [| f files IH]; intros dir; [reflexivity |].
  cbn [app pickle_loop].
  destruct (process_test_file f) as [[identifier instance] | e |];
    [apply IH | reflexivity | reflexivity].
Qed.

End PickleLoop.

(** X26: [pickle_test_instances] makes the directory features/test_arrays
    and writes nothing into it; the instances go to test_features, one file
    per identifier, so of several rasters with one identifier the last in
    the listing is the one that stays, and every other file of the directory
    is left as it was. *)
Theorem pickle_test_instances_last_wins {F : Type}
    (process_test_file : string -> test_outcome (string * TestInstance F))
    (before after : list string) (filepath identifier : string)
    (test_instance : TestInstance F) (w w' : test_dirs F) :
  process_test_file filepath = Produced (identifier, test_instance) ->
  (forall f identifier' instance',
     In f after -> process_test_file f = Produced (identifier', instance') ->
     identifier' <> identifier) ->
  pickle_test_instances process_test_file (before ++ filepath :: after) w
  = Produced w' ->
  test_savedir w' !! (identifier +:+ ".pkl") = Some test_instance
  /\ features_test_arrays w'
     = Some (match features_test_arrays w with
             | Some files => files
             | None => ∅
             end)
  /\ forall name,
       (forall f identifier' instance',
          In f (before ++ filepath :: after) ->
          process_test_file f = Produced (identifier', instance') ->
          identifier' +:+ ".pkl" <> name) ->
       test_savedir w' !! name = test_savedir w !! name.
Proof.
  intros Hfile Hafter Hrun. unfold pickle_test_instances in Hrun.
  destruct (pickle_loop process_test_file (before ++ filepath :: after)
              (test_savedir w)) as [dir | e |] eqn:Hloop; try discriminate.
  injection Hrun as <-. cbn [test_savedir features_test_arrays].
  split; [| split].
  - rewrite pickle_loop_app in Hloop.
    destruct (pickle_loop process_test_file before (test_savedir w))
      as [dir1 | e |]; try discriminate.
    cbn [pickle_loop] in Hloop. rewrite Hfile in Hloop.
    rewrite (pickle_loop_other process_test_file after _ _ _ Hloop).
    + apply lookup_insert_eq.
    + intros f id' i' Hin Hf Heq. apply (Hafter f id' i' Hin Hf).
      now apply (str_app_inj_r _ _ ".pkl").
  - destruct (features_test_arrays w); reflexivity.
  - intros name Hother.
    now apply (pickle_loop_other process_test_file _ name _ _ Hloop).
Qed.

Lemma pickle_test_instances_last_wins_witness :
  exists w',
    pickle_test_instances demo_process_test_file
      (["togo_crop_2019_0_a.tif"] ++ "togo_crop_2019_0_b.tif" :: [])
      {| features_test_arrays := None; test_savedir := ∅ |} = Produced w'
    /\ (test_y <$> test_savedir w' !! ("togo_crop_2019_0" +:+ ".pkl"))
       = Some [-1; 1]
    /\ features_test_arrays w' = Some ∅.
Proof.
  destruct (pickle_test_instances demo_process_test_file
              (["togo_crop_2019_0_a.tif"] ++ "togo_crop_2019_0_b.tif" :: [])
              {| features_test_arrays := None; test_savedir := ∅ |})
    as [w' | e |] eqn:Hrun;
    [| vm_compute in Hrun; discriminate | vm_compute in Hrun; discriminate].
  destruct (demo_process_test_file "togo_crop_2019_0_b.tif")
    as [[identifier instance] | e |] eqn:Hfile;
    [| vm_compute in Hfile; discriminate | vm_compute in Hfile; discriminate].
  assert (Hid : identifier = "togo_crop_2019_0"
                /\ test_y instance = [-1; 1]).
  { vm_compute in Hfile. injection Hfile as <- <-. split; reflexivity. }
  destruct Hid as [-> Hy].
  destruct (pickle_test_instances_last_wins demo_process_test_file
              ["togo_crop_2019_0_a.tif"] [] "togo_crop_2019_0_b.tif"
              "togo_crop_2019_0" instance
              {| features_test_arrays := None; test_savedir := ∅ |} w'
              Hfile ltac:(intros f i' t' []) Hrun)
    as (Hlook & Hdir & _).
  exists w'. split; [reflexivity |]. split; [| exact Hdir].
  rewrite Hlook. cbn [fmap option_fmap option_map]. now rewrite Hy.
Defined.
(** ** Running the checkpointed loop again *)

Section RunAgain.
Context {F : Type} `{Scalar F}.
Variables DYNAMIC_BANDS STATIC_BANDS : list string.
Variables NUM_TIMESTEPS DAYS_PER_TIMESTEP : Z.
Variable load_tif : string -> Z -> result (DataArray F * F).
Variable process_filename : string -> result (Z * string).

Local Abbreviation file_of :=
  (process_single_file DYNAMIC_BANDS STATIC_BANDS NUM_TIMESTEPS
     DAYS_PER_TIMESTEP load_tif).
Local Abbreviation turn :=
  (process_eo_file DYNAMIC_BANDS STATIC_BANDS NUM_TIMESTEPS DAYS_PER_TIMESTEP
     load_tif process_filename).
Local Abbreviation turns :=
  (process_eo_files DYNAMIC_BANDS STATIC_BANDS NUM_TIMESTEPS DAYS_PER_TIMESTEP
     load_tif process_filename).

(** whether a file is skipped does not depend on the normalizer *)
Lemma process_single_file_skip_any_state (st st' st2 : norm_interim F)
    (path : string) (row : label_row F) :
  file_of st path row = Ok (st', None) -> file_of st2 path row = Ok (st2, None).
Proof.
  unfold process_single_file. intros E.
  destruct (load_tif path
              (row_export_end_date row - NUM_TIMESTEPS * DAYS_PER_TIMESTEP))
    as [[da s] |]; cbn [bind] in *; [| discriminate].
  destruct (find_nearest (da_x da) (row_lon row)) as [lon |]; cbn [bind] in *;
    [| discriminate].
  destruct (find_nearest (da_y da) (row_lat row)) as [lat |]; cbn [bind] in *;
    [| discriminate].
  destruct (da_sel da lon lat) as [[T B] d].
  destruct (calculate_ndvi DYNAMIC_BANDS STATIC_BANDS (Arr2 T B d)) as [x1 |];
    cbn [bind] in *; [| discriminate].
  destruct (remove_bands DYNAMIC_BANDS STATIC_BANDS x1) as [x2 |];
    cbn [bind] in *; [| discriminate].
  destruct (fillna DYNAMIC_BANDS STATIC_BANDS x2 s) as [[out |] |];
    cbn [bind] in *; [| reflexivity | discriminate].
  destruct out as [T1 B1 d1 | |]; try discriminate.
  destruct (update_normalizing_values st B1 d1); cbn [bind] in E; discriminate.
Qed.

Lemma process_eo_file_keeps (labels : list (label_row F))
    (ls ls' : loop_state) (file_path : string) :
  turn true labels ls file_path = Ok ls' ->
  forall k, is_Some (ls_arrays ls !! k) -> is_Some (ls_arrays ls' !! k).
Proof.
  intros E k [v Hv].
  destruct (process_eo_file_checkpoint DYNAMIC_BANDS STATIC_BANDS NUM_TIMESTEPS
              DAYS_PER_TIMESTEP load_tif process_filename labels ls ls'
              file_path E) as [Hkeep _].
  exists v. now apply Hkeep.
Qed.

Lemma process_eo_files_keeps (labels : list (label_row F))
    (eo_files : list string) (ls ls' : loop_state) :
  turns true labels ls eo_files = Ok ls' ->
  forall k, is_Some (ls_arrays ls !! k) -> is_Some (ls_arrays ls' !! k).
Proof.
  intros E k [v Hv].
  destruct (process_eo_files_checkpoint DYNAMIC_BANDS STATIC_BANDS NUM_TIMESTEPS
              DAYS_PER_TIMESTEP load_tif process_filename labels eo_files ls ls'
              E) as [Hkeep _].
  exists v. now apply Hkeep.
Qed.

Lemma process_eo_files_again (labels : list (label_row F))
    (eo_files : list string) (ls ls1 ls2 : loop_state) :
  turns true labels ls eo_files = Ok ls1 ->
  (forall k, is_Some (ls_arrays ls2 !! k) <-> is_Some (ls_arrays ls1 !! k)) ->
  exists ls3,
    turns true labels ls2 eo_files = Ok ls3
    /\ ls_arrays ls3 = ls_arrays ls2
    /\ ls_engine ls3 = ls_engine ls2
    /\ num_new_files ls3 = num_new_files ls2.
Proof.
  revert ls ls2. induction eo_files as [| f rest IH]; intros ls ls2 E Hsame;
    cbn [process_eo_files] in *.
  - exists ls2. repeat split; reflexivity.
  - step_bind E. rename a into lsa. rename E0 into Ef.
    pose proof (process_eo_files_keeps labels rest lsa ls1 E) as Hmono.
    assert (Hturn : exists ls2',
              turn true labels ls2 f = Ok ls2'
              /\ ls_arrays ls2' = ls_arrays ls2
              /\ ls_engine ls2' = ls_engine ls2
              /\ num_new_files ls2' = num_new_files ls2).
    { unfold process_eo_file in Ef |- *.
      destruct (process_filename f) as [[i ds] |]; cbn [bind] in *;
        [| discriminate].
      set (name := pretty i +:+ "_" +:+ ds +:+ ".pkl") in *.
      destruct (bool_decide (is_Some (ls_arrays ls2 !! name))) eqn:H2;
        cbn [andb].
      { exists ls2. repeat split; reflexivity. }
      apply bool_decide_eq_false_1 in H2.
      assert (Habs1 : ~ is_Some (ls_arrays ls1 !! name))
        by (intros Hs; apply H2; now apply Hsame).
      assert (Habsa : ~ is_Some (ls_arrays lsa !! name))
        by (intros Hs; apply Habs1; now apply Hmono).
      destruct (bool_decide (is_Some (ls_arrays ls !! name))) eqn:H0;
        cbn [andb] in Ef.
      { injection Ef as <-. apply bool_decide_eq_true_1 in H0. contradiction. }
      destruct (find_row labels ds i) as [row |]; cbn [bind] in *;
        [| discriminate].
      destruct (file_of (ls_engine ls) f row) as [[st [inst |]] |] eqn:Hfile;
        cbn [bind] in Ef; [| | discriminate].
      { injection Ef as <-. exfalso. apply Habsa. cbn [ls_arrays].
        rewrite lookup_insert_eq. now eexists. }
      rewrite (process_single_file_skip_any_state _ _ (ls_engine ls2) _ _ Hfile).
      cbn [bind]. eexists. split; [reflexivity |]. repeat split; reflexivity. }
    destruct Hturn as (ls2' & Hrun2 & Harr & Heng & Hnew).
    rewrite Hrun2. cbn [bind].
    destruct (IH lsa ls2' E) as (ls3 & Hrun3 & Harr3 & Heng3 & Hnew3).
    { intros k. rewrite Harr. apply Hsame. }
    exists ls3. split; [exact Hrun3 |].
    rewrite Harr3, Heng3, Hnew3. repeat split; assumption.
Qed.

End RunAgain.

(** X22: A checkpointed pass over the listing that has come to its end can be
    repeated: over the outputs it left, the same listing is processed to the
    end again, and that second pass writes no file, counts no new file and
    feeds the normalizer nothing (files skipped for lack of data are tried,
    and skipped, again). *)
Theorem process_eo_files_run_again {F : Type} `{Scalar F}
    (DYNAMIC_BANDS STATIC_BANDS : list string)
    (NUM_TIMESTEPS DAYS_PER_TIMESTEP : Z)
    (load_tif : string -> Z -> result (DataArray F * F))
    (process_filename : string -> result (Z * string))
    (labels : list (label_row F)) (eo_files : list string)
    (ls ls1 : loop_state) (st : norm_interim F) :
  process_eo_files DYNAMIC_BANDS STATIC_BANDS NUM_TIMESTEPS DAYS_PER_TIMESTEP
    load_tif process_filename true labels ls eo_files = Ok ls1 ->
  exists skipped,
    process_eo_files DYNAMIC_BANDS STATIC_BANDS NUM_TIMESTEPS DAYS_PER_TIMESTEP
      load_tif process_filename true labels
      {| ls_arrays := ls_arrays ls1; ls_engine := st;
         num_new_files := 0; skipped_files := 0 |} eo_files
    = Ok {| ls_arrays := ls_arrays ls1; ls_engine := st;
            num_new_files := 0; skipped_files := skipped |}.
Proof.
  intros Hrun.
  destruct (process_eo_files_again DYNAMIC_BANDS STATIC_BANDS NUM_TIMESTEPS
              DAYS_PER_TIMESTEP load_tif process_filename labels eo_files
              ls ls1
              {| ls_arrays := ls_arrays ls1; ls_engine := st;
                 num_new_files := 0; skipped_files := 0 |} Hrun)
    as (ls3 & Hrun3 & Harr & Heng & Hnew); [reflexivity |].
  exists (skipped_files ls3). rewrite Hrun3. f_equal.
  destruct ls3 as [a3 e3 n3 s3]. cbn in *. now subst.
Qed.

Lemma process_eo_files_run_again_witness :
  exists ls1 skipped,
    process_eo_files demo_dynamic demo_static 12 30 demo_load_tif
      (process_filename demo_int) true demo_labels
      {| ls_arrays := arrays_dir demo_world; ls_engine := norm_init;
         num_new_files := 0; skipped_files := 0 |}
      ["1-a_x.tif"; "2-a_y.tif"] = Ok ls1
    /\ num_new_files ls1 = 1
    /\ process_eo_files demo_dynamic demo_static 12 30 demo_load_tif
         (process_filename demo_int) true demo_labels
         {| ls_arrays := ls_arrays ls1; ls_engine := norm_init;
            num_new_files := 0; skipped_files := 0 |}
         ["1-a_x.tif"; "2-a_y.tif"]
       = Ok {| ls_arrays := ls_arrays ls1; ls_engine := norm_init;
               num_new_files := 0; skipped_files := skipped |}.
Proof.
  destruct (process_eo_files demo_dynamic demo_static 12 30 demo_load_tif
              (process_filename demo_int) true demo_labels
              {| ls_arrays := arrays_dir demo_world; ls_engine := norm_init;
                 num_new_files := 0; skipped_files := 0 |}
              ["1-a_x.tif"; "2-a_y.tif"]) as [ls1 | e] eqn:Hrun;
    [| vm_compute in Hrun; discriminate].
  destruct (process_eo_files_run_again _ _ _ _ _ _ _ _ _ _ norm_init Hrun)
    as [skipped Hagain].
  exists ls1, skipped. split; [reflexivity |]. split; [| exact Hagain].
  vm_compute in Hrun. injection Hrun as <-. reflexivity.
Defined.

(** ** NDVI of missing reflectances, in binary64 *)

Lemma is_nan_of_SF (x : float) : Prim2SF x = S754_nan -> is_nan x = true.
Proof.
  intros E. unfold is_nan. rewrite eqb_spec, E. reflexivity.
Qed.

Lemma float_add_nan (x y : float) :
  is_nan x = true \/ is_nan y = true -> is_nan (x + y) = true.
Proof.
  intros Hn. apply is_nan_of_SF. rewrite add_spec.
  destruct Hn as [Hx | Hy].
  - rewrite (is_nan_true x Hx). reflexivity.
  - rewrite (is_nan_true y Hy). destruct (Prim2SF x); reflexivity.
Qed.

(** X28: In binary64, a row whose near-infrared or red entry is NaN gets the
    NDVI 0, not NaN: the sum of the two is NaN, which is not greater than 0,
    so [np.where] takes the 0. *)
Theorem calculate_ndvi_of_nan_is_zero
    (DYNAMIC_BANDS STATIC_BANDS : list string) (i1 i2 T B : nat)
    (d : list (list float)) :
  index "B8" (BANDS DYNAMIC_BANDS STATIC_BANDS) = Ok i1 ->
  index "B4" (BANDS DYNAMIC_BANDS STATIC_BANDS) = Ok i2 ->
  (i1 < B)%nat -> (i2 < B)%nat ->
  exists out,
    calculate_ndvi DYNAMIC_BANDS STATIC_BANDS (Arr2 T B d)
    = Ok (Arr2 T (S B) out)
    /\ Forall2
         (fun r r' =>
            r' = ndvi_row i1 i2 r
            /\ (is_nan (nth i1 r 0%float) = true
                \/ is_nan (nth i2 r 0%float) = true ->
                nth (length r) r' 0%float = 0%float))
         d out.
Proof.
  intros H8 H4 Hi1 Hi2. exists (List.map (ndvi_row i1 i2) d).
  split; [now apply calculate_ndvi_rank2 |].
  apply Forall2_map_self. intros r. split; [reflexivity |].
  intros Hnan.
  pose proof (ndvi_row_last i1 i2 r) as Hlast.
  change (s_zero : float) with 0%float in Hlast. rewrite Hlast.
  unfold ndvi_value.
  rewrite (ltb_nan (F := float) s_zero (s_add (nth i1 r 0%float) (nth i2 r 0%float)));
    [reflexivity |].
  now apply float_add_nan.
Qed.

Lemma calculate_ndvi_of_nan_is_zero_witness :
  exists out,
    calculate_ndvi demo_dynamic demo_static
      (Arr2 1 5 [[2; nan; 3; 4; 5]%float]) = Ok (Arr2 1 6 out)
    /\ Forall2
         (fun r r' =>
            r' = ndvi_row 1 0 r
            /\ (is_nan (nth 1 r 0%float) = true
                \/ is_nan (nth 0 r 0%float) = true ->
                nth (length r) r' 0%float = 0%float))
         [[2; nan; 3; 4; 5]%float] out.
Proof.
  apply (calculate_ndvi_of_nan_is_zero demo_dynamic demo_static 1 0 1 5
           [[2; nan; 3; 4; 5]%float] eq_refl eq_refl); lia.
Defined.

Example ndvi_of_infinity_is_nan :
  is_nan (ndvi_value infinity 1%float) = true.
Proof. vm_compute. reflexivity. Qed.

(** ** A first run *)

Lemma process_eo_files_fresh {F : Type} `{Scalar F}
    (DYNAMIC_BANDS STATIC_BANDS : list string)
    (NUM_TIMESTEPS DAYS_PER_TIMESTEP : Z)
    (load_tif : string -> Z -> result (DataArray F * F))
    (process_filename : string -> result (Z * string))
    (labels : list (label_row F)) (eo_files : list string) (ls : loop_state) :
  List.NoDup (output_names process_filename eo_files) ->
  (forall n, In n (output_names process_filename eo_files) ->
     ls_arrays ls !! n = None) ->
  process_eo_files DYNAMIC_BANDS STATIC_BANDS NUM_TIMESTEPS DAYS_PER_TIMESTEP
    load_tif process_filename true labels ls eo_files
  = process_eo_files DYNAMIC_BANDS STATIC_BANDS NUM_TIMESTEPS DAYS_PER_TIMESTEP
      load_tif process_filename false labels ls eo_files.
Proof.
  revert ls. induction eo_files as [| f rest IH]; intros ls Hnd Hfree;
    [reflexivity |].
  cbn [process_eo_files output_names] in *. unfold process_eo_file.
  destruct (process_filename f) as [[i ds] | e]; cbn [bind]; [| reflexivity].
  set (name := (pretty i ++ "_" ++ ds ++ ".pkl")%string) in *.
  inversion Hnd as [| ? ? Hnotin Hnd']; subst.
  rewrite (Hfree name) by now left.
  rewrite bool_decide_eq_false_2 by (intros [v Hv]; discriminate).
  cbn [andb].
  destruct (find_row labels ds i) as [row |]; cbn [bind]; [| reflexivity].
  destruct (process_single_file DYNAMIC_BANDS STATIC_BANDS NUM_TIMESTEPS
              DAYS_PER_TIMESTEP load_tif (ls_engine ls) f row)
    as [[st [inst |]] |]; cbn [bind]; [| | reflexivity].
  - apply IH; [exact Hnd' |]. intros n Hn. cbn [ls_arrays].
    rewrite lookup_insert_ne; [apply Hfree; now right |].
    intros <-. contradiction.
  - apply IH; [exact Hnd' |]. intros n Hn. cbn [ls_arrays].
    apply Hfree. now right.
Qed.

(** X27: On a first run, where no normalizing dict is saved, none of the
    listed files has an output yet and no two of them share an output name,
    [create_pickled_dataset] does the same with and without checkpointing. *)
Theorem create_pickled_dataset_first_run {F : Type} `{Scalar F}
    (DYNAMIC_BANDS STATIC_BANDS : list string)
    (NUM_TIMESTEPS DAYS_PER_TIMESTEP : Z)
    (load_tif : string -> Z -> result (DataArray F * F))
    (process_filename : string -> result (Z * string))
    (labels : list (label_row F)) (eo_files : list string) (w : world F) :
  normalizing_dict_pkl w = None ->
  List.NoDup (output_names process_filename eo_files) ->
  (forall n, In n (output_names process_filename eo_files) ->
     arrays_dir w !! n = None) ->
  create_pickled_dataset DYNAMIC_BANDS STATIC_BANDS NUM_TIMESTEPS
    DAYS_PER_TIMESTEP load_tif process_filename true labels eo_files w
  = create_pickled_dataset DYNAMIC_BANDS STATIC_BANDS NUM_TIMESTEPS
      DAYS_PER_TIMESTEP load_tif process_filename false labels eo_files w.
Proof.
  intros Hpkl Hnd Hfree. unfold create_pickled_dataset.
  rewrite Hpkl.
  rewrite (process_eo_files_fresh DYNAMIC_BANDS STATIC_BANDS NUM_TIMESTEPS
             DAYS_PER_TIMESTEP load_tif process_filename labels eo_files
             {| ls_arrays := arrays_dir w; ls_engine := engine w;
                num_new_files := 0; skipped_files := 0 |} Hnd Hfree).
  reflexivity.
Qed.

Lemma create_pickled_dataset_first_run_witness :
  create_pickled_dataset demo_dynamic demo_static 12 30 demo_load_tif
    (process_filename demo_int) true demo_labels ["1-a_x.tif"; "2-a_y.tif"]
    {| arrays_dir := ∅; normalizing_dict_pkl := None; engine := norm_init |}
  = create_pickled_dataset demo_dynamic demo_static 12 30 demo_load_tif
      (process_filename demo_int) false demo_labels ["1-a_x.tif"; "2-a_y.tif"]
      {| arrays_dir := ∅; normalizing_dict_pkl := None; engine := norm_init |}.
Proof.
  apply create_pickled_dataset_first_run.
  - reflexivity.
  - vm_compute. repeat constructor; cbn; intuition discriminate.
  - intros n _. apply lookup_empty.
Defined.
